(** * Circuit reconstruction and ASC parsing: a shallow embedding

    The development follows the Python modules of the repository:

    - [asc_to_json_parser.py] (class [ASCParser]) in [Module ASC];
    - [app/services/circuit_recognizer.py] (class [Wire], and the methods
      [_process_junctions], [_generate_asc_content] and
      [_process_image_to_asc] of [CircuitRecognitionService]) in
      [Module Recognizer];
    - the scratch files of [app/services/asc_parser.py] and of
      [process_image] in [Module Scratch];
    - [save_json] and [convert_asc_to_json] of [asc_to_json_parser.py],
      which parse twice with one parser, in [Module ASCObject];
    - the routes of [app/api/v1/routes] in [Module Routes].

    [Module Serializer] holds the serializer that the specification
    describes and the repository does not have.  The vocabulary of the
    properties comes next, and then the properties, module by module.

    Python values are modelled as follows.  An [int] is a [Z].  A [float]
    that holds a pixel coordinate is a rational [Q]: every finite float is
    a rational, and the operations that the code applies to coordinates
    (comparison with an integer, [%] by 16 on a non-negative value,
    subtraction of that remainder, [int()]) are exact on floats.  The one
    transcendental computation, [math.atan2], is a parameter.  A [str] is
    a [string] of ASCII characters.  A raised exception is a value of
    [exn]; a function that may raise returns a [result]. *)

From Stdlib Require Import ZArith QArith Qround Qabs List String Ascii Bool Lia Lqa.
From Stdlib Require Import Numbers.DecimalString Numbers.DecimalPos Numbers.DecimalZ.
From Stdlib Require Import Sorting.Sorted.
Import ListNotations.

Local Open Scope Z_scope.

(** ** Python primitives *)

Module Py.

Inductive exn : Type :=
| IndexError                 (* list index out of range *)
| ValueError (tok : string)  (* invalid literal for int() with base 10: tok *)
| KeyError (key : string)    (* label not in the frame *)
| TypeError                  (* an operand of the wrong type *)
| OSError.                   (* a failing system call *)

Definition result (A : Type) : Type := (exn + A)%type.

Definition ret {A} (a : A) : result A := inr a.
Definition raise {A} (e : exn) : result A := inl e.
Definition bind {A B} (m : result A) (k : A -> result B) : result B :=
  match m with
  | inl e => inl e
  | inr a => k a
  end.

Declare Scope py_scope.
Delimit Scope py_scope with py.
Notation "x <- m ;; k" := (bind m (fun x => k))
  (at level 61, m at next level, right associativity) : py_scope.

(** [nl] is the one-character string "\n". *)
Definition LF : ascii := "010"%char.
Definition CR : ascii := "013"%char.
Definition nl : string := String LF EmptyString.

(** ASCII characters for which [str.isspace] holds: TAB, LF, VT, FF, CR,
    FS, GS, RS, US and the space. *)
Definition isspace (c : ascii) : bool :=
  let n := nat_of_ascii c in
  ((9 <=? n) && (n <=? 13) || (28 <=? n) && (n <=? 32))%nat.

(** [s.lstrip()], [s.rstrip()], [s.strip()] *)
Fixpoint lstrip (s : string) : string :=
  match s with
  | EmptyString => EmptyString
  | String c s' => if isspace c then lstrip s' else s
  end.

Fixpoint all_space (s : string) : bool :=
  match s with
  | EmptyString => true
  | String c s' => isspace c && all_space s'
  end.

Fixpoint rstrip (s : string) : string :=
  match s with
  | EmptyString => EmptyString
  | String c s' => if all_space s then EmptyString else String c (rstrip s')
  end.

Definition strip (s : string) : string := rstrip (lstrip s).

(** [s.startswith(p)] *)
Definition startswith (s p : string) : bool := String.prefix p s.

(** [s.split()]: the maximal runs of non-space characters.  [cur] is the
    token being read, in reverse. *)
Fixpoint rev_string (acc s : string) : string :=
  match s with
  | EmptyString => acc
  | String c s' => rev_string (String c acc) s'
  end.

Definition flush (cur : string) : list string :=
  match cur with
  | EmptyString => []
  | _ => [rev_string EmptyString cur]
  end.

Fixpoint split_aux (cur s : string) : list string :=
  match s with
  | EmptyString => flush cur
  | String c s' =>
      if isspace c then flush cur ++ split_aux EmptyString s'
      else split_aux (String c cur) s'
  end.

Definition split (s : string) : list string := split_aux EmptyString s.

(** [sep.join(l)] *)
Fixpoint join (sep : string) (l : list string) : string :=
  match l with
  | [] => EmptyString
  | [a] => a
  | a :: l' => (a ++ sep ++ join sep l')%string
  end.

(** [l[i]] *)
Definition index {A} (l : list A) (i : nat) : result A :=
  match nth_error l i with
  | Some a => ret a
  | None => raise IndexError
  end.

(** [l[i:]] *)
Definition slice_from {A} (l : list A) (i : nat) : list A := skipn i l.

(** [str(n)] for an [int]. *)
Definition str (n : Z) : string := NilEmpty.string_of_int (Z.to_int n).

(** [int(tok)] for a token without white space: an optional sign, then
    decimal digits in groups separated by single underscores.  (The bound
    that recent interpreters put on the number of digits is left out.) *)
Definition is_digit (c : ascii) : bool :=
  let n := nat_of_ascii c in ((48 <=? n) && (n <=? 57))%nat.

(** [groups prev s] checks the digit-and-underscore shape and returns the
    digits; [prev] tells whether the previous character was a digit. *)
Fixpoint groups (prev : bool) (s : string) : option string :=
  match s with
  | EmptyString => if prev then Some EmptyString else None
  | String c s' =>
      if is_digit c then option_map (String c) (groups true s')
      else if (c =? "_")%char then
             if prev then groups false s' else None
           else None
  end.

Definition digits_value (s : string) : option Z :=
  match groups false s with
  | Some ds => option_map Z.of_uint (NilEmpty.uint_of_string ds)
  | None => None
  end.

Definition int_opt (tok : string) : option Z :=
  match tok with
  | String "+" s => digits_value s
  | String "-" s => option_map Z.opp (digits_value s)
  | _ => digits_value tok
  end.

Definition int (tok : string) : result Z :=
  match int_opt tok with
  | Some z => ret z
  | None => raise (ValueError tok)
  end.

(** [int(x)] for a float: truncation toward zero. *)
Definition int_of_float (x : Q) : Z := Z.quot (Qnum x) (Zpos (Qden x)).

(** [x % m] for floats and a positive [m]: the result has the sign of [m]. *)
Definition fmod (x m : Q) : Q := (x - m * inject_Z (Qfloor (x / m)))%Q.

Definition Qltb (x y : Q) : bool := negb (Qle_bool y x).
Definition Qleb (x y : Q) : bool := Qle_bool x y.

End Py.

(** ** The ASC parser ([asc_to_json_parser.py]) *)

Module ASC.
Import Py.
Local Open Scope py_scope.
Local Open Scope string_scope.

Record Sheet := mkSheet { number : Z; width : Z; height : Z }.

(** [attributes] is a Python [dict]: keys are unique and keep the order of
    their first insertion. *)
Record Component := mkComponent {
  id : string;
  type : string;
  x : Z;
  y : Z;
  rotation : string;
  attributes : list (string * string)
}.

Record Wire := mkWire { x1 : Z; y1 : Z; x2 : Z; y2 : Z }.

Record Flag := mkFlag { flag_x : Z; flag_y : Z; net_name : string }.

(** The fields of an [ASCParser] object (the file path apart). *)
Record ASCParser := mkParser {
  components : list Component;
  wires : list Wire;
  flags : list Flag;
  version : option string;
  sheet : option Sheet;
  component_counter : Z
}.

(** [ASCParser.__init__] *)
Definition init : ASCParser := mkParser [] [] [] None None 0.

(** The dictionary that [_to_json] returns. *)
Record CircuitData := mkCircuit {
  cd_version : option string;
  cd_sheet : option Sheet;
  cd_components : list Component;
  cd_wires : list Wire;
  cd_flags : list Flag
}.

(** [d[k] = v] and [d.get(k, default)] *)
Fixpoint dict_set (d : list (string * string)) (k v : string) : list (string * string) :=
  match d with
  | [] => [(k, v)]
  | (k', v') :: d' => if k' =? k then (k', v) :: d' else (k', v') :: dict_set d' k v
  end.

Fixpoint dict_get (d : list (string * string)) (k default : string) : string :=
  match d with
  | [] => default
  | (k', v') :: d' => if k' =? k then v' else dict_get d' k default
  end.

(** [_parse_symbol_line]: the component, and the parser with its counter
    incremented. *)
Definition _parse_symbol_line (self : ASCParser) (line : string)
  : result (Component * ASCParser) :=
  let parts := split line in
  component_type <- index parts 1 ;;
  sx <- index parts 2 ;;
  x <- int sx ;;
  sy <- index parts 3 ;;
  y <- int sy ;;
  rotation <- index parts 4 ;;
  let counter := component_counter self + 1 in
  ret (mkComponent ("comp_" ++ str counter) component_type x y rotation [],
       mkParser (components self) (wires self) (flags self)
                (version self) (sheet self) counter).

(** [_add_symattr_to_component] *)
Definition _add_symattr_to_component (component : Component) (line : string)
  : result Component :=
  let parts := split line in
  attr_type <- index parts 1 ;;
  let attr_value :=
    if (2 <? List.length parts)%nat then join " " (slice_from parts 2) else EmptyString in
  let key := if attr_type =? "InstName" then "name" else attr_type in
  ret (mkComponent (id component) (type component) (x component) (y component)
         (rotation component) (dict_set (attributes component) key attr_value)).

(** [_parse_wire_line] *)
Definition _parse_wire_line (line : string) : result Wire :=
  let parts := split line in
  s1 <- index parts 1 ;; x1 <- int s1 ;;
  s2 <- index parts 2 ;; y1 <- int s2 ;;
  s3 <- index parts 3 ;; x2 <- int s3 ;;
  s4 <- index parts 4 ;; y2 <- int s4 ;;
  ret (mkWire x1 y1 x2 y2).

(** [_parse_flag_line] *)
Definition _parse_flag_line (line : string) : result Flag :=
  let parts := split line in
  s1 <- index parts 1 ;; x <- int s1 ;;
  s2 <- index parts 2 ;; y <- int s2 ;;
  net_name <- index parts 3 ;;
  ret (mkFlag x y net_name).

(** The [SHEET] branch of [parse]. *)
Definition parse_sheet_line (line : string) : result Sheet :=
  let parts := split line in
  s1 <- index parts 1 ;; number <- int s1 ;;
  s2 <- index parts 2 ;; width <- int s2 ;;
  s3 <- index parts 3 ;; height <- int s3 ;;
  ret (mkSheet number width height).

Definition set_version (self : ASCParser) (v : string) : ASCParser :=
  mkParser (components self) (wires self) (flags self) (Some v) (sheet self)
           (component_counter self).
Definition set_sheet (self : ASCParser) (s : Sheet) : ASCParser :=
  mkParser (components self) (wires self) (flags self) (version self) (Some s)
           (component_counter self).
Definition append_component (self : ASCParser) (c : Component) : ASCParser :=
  mkParser (components self ++ [c]) (wires self) (flags self) (version self)
           (sheet self) (component_counter self).
Definition append_wire (self : ASCParser) (w : Wire) : ASCParser :=
  mkParser (components self) (wires self ++ [w]) (flags self) (version self)
           (sheet self) (component_counter self).
Definition append_flag (self : ASCParser) (f : Flag) : ASCParser :=
  mkParser (components self) (wires self) (flags self ++ [f]) (version self)
           (sheet self) (component_counter self).

(** The [while i < len(lines)] loop of [parse].  [lines] is [lines[i:]].
    The inner loop [attrs] consumes the [SYMATTR] lines that follow a
    [SYMBOL] line and hands the first other line back to the outer loop. *)
Fixpoint parse_loop (self : ASCParser) (lines : list string) {struct lines}
  : result ASCParser :=
  match lines with
  | [] => ret self
  | raw :: rest =>
      let line := strip raw in
      if startswith line "Version" then
        v <- index (split line) 1 ;;
        parse_loop (set_version self v) rest
      else if startswith line "SHEET" then
        s <- parse_sheet_line line ;;
        parse_loop (set_sheet self s) rest
      else if startswith line "SYMBOL" then
        cs <- _parse_symbol_line self line ;;
        let self1 := snd cs in
        (fix attrs (component : Component) (l : list string) {struct l}
           : result ASCParser :=
           match l with
           | [] => ret (append_component self1 component)
           | raw' :: l' =>
               if startswith (strip raw') "SYMATTR" then
                 component' <- _add_symattr_to_component component (strip raw') ;;
                 attrs component' l'
               else parse_loop (append_component self1 component) l
           end) (fst cs) rest
      else if startswith line "WIRE" then
        w <- _parse_wire_line line ;;
        parse_loop (append_wire self w) rest
      else if startswith line "FLAG" then
        f <- _parse_flag_line line ;;
        parse_loop (append_flag self f) rest
      else parse_loop self rest
  end.

(** [_remove_duplicate_components]: [seen] is the set [seen_components]. *)
Definition component_key (c : Component) : string * Z * Z * string * string :=
  (type c, x c, y c, rotation c, dict_get (attributes c) "name" EmptyString).

Definition component_key_eqb (a b : string * Z * Z * string * string) : bool :=
  let '(t, x, y, r, n) := a in
  let '(t', x', y', r', n') := b in
  (t =? t') && (x =? x')%Z && (y =? y')%Z && (r =? r') && (n =? n').

Fixpoint unique_components (seen : list (string * Z * Z * string * string))
  (cs : list Component) : list Component :=
  match cs with
  | [] => []
  | component :: cs' =>
      let key := component_key component in
      if existsb (component_key_eqb key) seen then unique_components seen cs'
      else component :: unique_components (key :: seen) cs'
  end.

Definition _remove_duplicate_components (self : ASCParser) : ASCParser :=
  mkParser (unique_components [] (components self)) (wires self) (flags self)
           (version self) (sheet self) (component_counter self).

(** [_remove_duplicate_wires]: [min] and [max] of two pairs, compared
    lexicographically; of two equal pairs both return the first. *)
Definition pair_ltb (a b : Z * Z) : bool :=
  (fst a <? fst b)%Z || ((fst a =? fst b)%Z && (snd a <? snd b)%Z).
Definition pair_min (a b : Z * Z) : Z * Z := if pair_ltb b a then b else a.
Definition pair_max (a b : Z * Z) : Z * Z := if pair_ltb a b then b else a.

Definition wire_key (w : Wire) : Z * Z * Z * Z :=
  let p := pair_min (x1 w, y1 w) (x2 w, y2 w) in
  let q := pair_max (x1 w, y1 w) (x2 w, y2 w) in
  (fst p, snd p, fst q, snd q).

Definition wire_key_eqb (a b : Z * Z * Z * Z) : bool :=
  let '(a1, a2, a3, a4) := a in
  let '(b1, b2, b3, b4) := b in
  ((a1 =? b1) && (a2 =? b2) && (a3 =? b3) && (a4 =? b4))%Z.

Fixpoint unique_wires (seen : list (Z * Z * Z * Z)) (ws : list Wire) : list Wire :=
  match ws with
  | [] => []
  | wire :: ws' =>
      let key := wire_key wire in
      if existsb (wire_key_eqb key) seen then unique_wires seen ws'
      else wire :: unique_wires (key :: seen) ws'
  end.

Definition _remove_duplicate_wires (self : ASCParser) : ASCParser :=
  mkParser (components self) (unique_wires [] (wires self)) (flags self)
           (version self) (sheet self) (component_counter self).

(** [_to_json] *)
Definition _to_json (self : ASCParser) : CircuitData :=
  mkCircuit (version self) (sheet self) (components self) (wires self) (flags self).

(** [parse], from the list that [file.readlines()] returns. *)
Definition parse_lines (lines : list string) : result CircuitData :=
  self <- parse_loop init lines ;;
  ret (_to_json (_remove_duplicate_wires (_remove_duplicate_components self))).

(** [file.readlines()] on a file opened in text mode: lines keep their
    final "\n"; "\r\n" and a lone "\r" are read as "\n". *)
Fixpoint readlines (s : string) : list string :=
  match s with
  | EmptyString => []
  | String c s' =>
      if (c =? LF)%char then nl :: readlines s'
      else if (c =? CR)%char then
             match s' with
             | String c' _ => if (c' =? LF)%char then readlines s'
                              else nl :: readlines s'
             | EmptyString => [nl]
             end
           else match readlines s' with
                | [] => [String c EmptyString]
                | l :: ls => String c l :: ls
                end
  end.

(** [parse], from the content of the file. *)
Definition parse (text : string) : result CircuitData := parse_lines (readlines text).

(** The inner loop of [parse_loop], named. *)
Definition attrs_loop (self1 : ASCParser) : Component -> list string -> result ASCParser :=
  fix attrs (component : Component) (l : list string) {struct l}
    : result ASCParser :=
    match l with
    | [] => ret (append_component self1 component)
    | raw' :: l' =>
        if startswith (strip raw') "SYMATTR" then
          component' <- _add_symattr_to_component component (strip raw') ;;
          attrs component' l'
        else parse_loop (append_component self1 component) l
    end.

End ASC.

(** ** Wires and reconstruction ([app/services/circuit_recognizer.py]) *)

Module Recognizer.
Import Py.
Local Open Scope py_scope.
Local Open Scope string_scope.
Local Open Scope list_scope.

(** The values "h", "v" and "o" of [Wire.orientation]. *)
Inductive Orientation : Type := h | v | o.

(** A [Wire] object.  [oid] is the identity of the object: the class
    defines no [__eq__], so [wire in wires_vertical] compares identities.
    The fields [x_trans] and [y_trans] are never read and are left out. *)
Record Wire := mkWire {
  oid : nat;
  x_start : Z;
  y_start : Z;
  x_end : Z;
  y_end : Z;
  orientation : Orientation
}.

(** [Wire.select_starting_point].  [np.sqrt] is increasing, so the two
    roots compare as the two sums of squares do (in floating point too,
    for sums below 2^53 that are as far apart as pixel coordinates make
    them). *)
Definition select_starting_point (x1 y1 x2 y2 : Z) : Z :=
  if (x1 ^ 2 + y1 ^ 2 <? x2 ^ 2 + y2 ^ 2)%Z then 1 else 2.

(** The comparisons of [Wire.test_if_wire_is_valid], on the angle
    [slope_as_angle] in degrees. *)
Definition limit : Q := 10.

Definition orientation_of_angle (slope_as_angle : Q) : Orientation :=
  if negb (Qltb limit slope_as_angle && Qleb slope_as_angle (360 - limit))
     || (Qleb (180 - limit) slope_as_angle && Qltb slope_as_angle (180 + limit))
  then h
  else if (Qltb (90 - limit) slope_as_angle && Qltb slope_as_angle (90 + limit))
          || (Qltb (270 - limit) slope_as_angle && Qltb slope_as_angle (270 + limit))
  then v
  else o.

(** [Wire.straighten_wires] (no caller in the service). *)
Definition straighten_wires (w : Wire) : Wire :=
  match orientation w with
  | h => mkWire (oid w) (x_start w) (y_start w) (x_end w) (y_start w) (orientation w)
  | v => mkWire (oid w) (x_start w) (y_start w) (x_start w) (y_end w) (orientation w)
  | o => w
  end.

(** A row of the detector's frame [results.pandas().xywh[0]], with its
    index label.  Labels are unique in a frame. *)
Record Row := mkRow {
  label : nat;
  xcenter : Q;
  ycenter : Q;
  width : Q;
  height : Q;
  confidence : Q;
  class : Z;
  name : string
}.

Definition DataFrame : Type := list Row.

Inductive cell : Type := Float (q : Q) | Int (z : Z) | Str (s : string).

(** [row[col]] for an arbitrary column label. *)
Definition getitem (row : Row) (col : string) : result cell :=
  if col =? "xcenter" then ret (Float (xcenter row))
  else if col =? "ycenter" then ret (Float (ycenter row))
  else if col =? "width" then ret (Float (width row))
  else if col =? "height" then ret (Float (height row))
  else if col =? "confidence" then ret (Float (confidence row))
  else if col =? "class" then ret (Int (class row))
  else if col =? "name" then ret (Str (name row))
  else raise (KeyError col).

(** [float(c)], as the arithmetic on a cell needs it. *)
Definition to_float (c : cell) : result Q :=
  match c with
  | Float q => ret q
  | Int z => ret (inject_Z z)
  | Str _ => raise TypeError
  end.

(** [data.loc[index, col]], read. *)
Definition loc (data : DataFrame) (index : nat) (col : string) : result cell :=
  match find (fun r => (label r =? index)%nat) data with
  | Some r => getitem r col
  | None => raise (KeyError "index")
  end.

Definition set_xcenter (r : Row) (q : Q) : Row :=
  mkRow (label r) q (ycenter r) (width r) (height r) (confidence r) (class r) (name r).
Definition set_ycenter (r : Row) (q : Q) : Row :=
  mkRow (label r) (xcenter r) q (width r) (height r) (confidence r) (class r) (name r).

(** [data.loc[index, "xcenter"] = q] and [data.loc[index, "ycenter"] = q] *)
Definition loc_set_x (data : DataFrame) (index : nat) (q : Q) : DataFrame :=
  map (fun r => if (label r =? index)%nat then set_xcenter r q else r) data.
Definition loc_set_y (data : DataFrame) (index : nat) (q : Q) : DataFrame :=
  map (fun r => if (label r =? index)%nat then set_ycenter r q else r) data.

(** [data.loc[index, "xcenter"]] and [data.loc[index, "ycenter"]] for a
    label of the frame. *)
Definition loc_x (data : DataFrame) (index : nat) : Q :=
  match find (fun r => (label r =? index)%nat) data with
  | Some r => xcenter r
  | None => 0
  end.
Definition loc_y (data : DataFrame) (index : nat) : Q :=
  match find (fun r => (label r =? index)%nat) data with
  | Some r => ycenter r
  | None => 0
  end.

(** [df.loc[df['name'] == n]] *)
Definition select (df : DataFrame) (n : string) : DataFrame :=
  filter (fun r => name r =? n) df.

(** *** [_process_junctions]: alignment

    [iterrows] reads the rows of a frame of mixed column types from a copy
    made when the loop starts: the outer [row] holds the coordinates the
    frame had before any alignment, the inner [row2] those it has when the
    inner loop starts. *)
Definition align_lists (index : nat) (row : Row) (data : DataFrame)
  : list nat * list nat :=
  fold_left
    (fun (acc : list nat * list nat) (row2 : Row) =>
       let index2 := label row2 in
       if (index =? index2)%nat then acc
       else if Qltb (Qabs (xcenter row - xcenter row2)) 50
            then (fst acc ++ [index; index2], snd acc)
       else if Qltb (Qabs (ycenter row - ycenter row2)) 50
            then (fst acc, snd acc ++ [index; index2])
       else acc)
    data ([], []).

Definition equate_x (align_x : list nat) (data : DataFrame) : DataFrame :=
  fold_left (fun d index => loc_set_x d index (loc_x d (hd 0%nat align_x))) align_x data.
Definition equate_y (align_y : list nat) (data : DataFrame) : DataFrame :=
  fold_left (fun d index => loc_set_y d index (loc_y d (hd 0%nat align_y))) align_y data.

Definition align_junctions (data : DataFrame) : DataFrame :=
  fold_left
    (fun d row =>
       let al := align_lists (label row) row d in
       equate_y (snd al) (equate_x (fst al) d))
    data data.

(** *** [_process_junctions]: the 16 x 16 grid *)
Definition snap (c : Q) : Q :=
  if Qeq_bool (fmod c 16) 0 then c else (c - fmod c 16)%Q.

Definition snap_xcenter (data : DataFrame) : DataFrame :=
  map (fun r => set_xcenter r (snap (xcenter r))) data.
Definition snap_ycenter (data : DataFrame) : DataFrame :=
  map (fun r => set_ycenter r (snap (ycenter r))) data.

(** The frame of the junctions when the three loops above have run. *)
Definition grid_junctions (data : DataFrame) : DataFrame :=
  snap_ycenter (snap_xcenter (align_junctions data)).

(** The values of [math.degrees(math.atan2(dy, dx))] when [dy] or [dx] is
    0, which are exact; elsewhere the diagonal of the quadrant stands for
    the angle.  It serves to run the pipeline on junctions that lie on
    common horizontal and vertical lines. *)
Definition atan2_degrees_on_axes (dy dx : Z) : Q :=
  if (dx =? 0)%Z then
    if (0 <? dy)%Z then 90 else if (dy <? 0)%Z then -90 else 0
  else if (dy =? 0)%Z then
    if (dx <? 0)%Z then 180 else 0
  else if (0 <? dx)%Z then
    if (0 <? dy)%Z then 45 else -45
  else
    if (0 <? dy)%Z then 135 else -135.

Section Wires.

(** [atan2_degrees dy dx] stands for [math.degrees(math.atan2(dy, dx))],
    a floating point computation of the [math] library. *)
Variable atan2_degrees : Z -> Z -> Q.

(** [Wire.test_if_wire_is_valid] *)
Definition test_if_wire_is_valid (x_start y_start x_end y_end : Z) : Orientation :=
  let slope_as_angle := fmod (atan2_degrees (y_start - y_end) (x_start - x_end)) 360 in
  orientation_of_angle slope_as_angle.

(** [Wire.__init__]; [oid] is the identity of the new object. *)
Definition Wire__init__ (oid : nat) (x1 y1 x2 y2 : Z) : Wire :=
  if (select_starting_point x1 y1 x2 y2 =? 1)%Z
  then mkWire oid x1 y1 x2 y2 (test_if_wire_is_valid x1 y1 x2 y2)
  else mkWire oid x2 y2 x1 y1 (test_if_wire_is_valid x2 y2 x1 y1).

(** *** [_process_junctions]: the wires *)
Record Synth := mkSynth {
  checked_coordinates : list (nat * nat);
  wires : list Wire;
  wires_horizontal : list Wire;
  wires_vertical : list Wire;
  created : nat   (* number of Wire objects built so far *)
}.

Definition pair_in (p : nat * nat) (l : list (nat * nat)) : bool :=
  existsb (fun q => (fst p =? fst q)%nat && (snd p =? snd q)%nat) l.

Definition synth_pair (row row2 : Row) (s : Synth) : Synth :=
  let index := label row in
  let index2 := label row2 in
  if pair_in (index, index2) (checked_coordinates s)
     || pair_in (index2, index) (checked_coordinates s)
  then s
  else
    let checked := checked_coordinates s ++ [(index, index2); (index2, index)] in
    let wire := Wire__init__ (created s)
                  (int_of_float (xcenter row)) (int_of_float (ycenter row))
                  (int_of_float (xcenter row2)) (int_of_float (ycenter row2)) in
    let n := S (created s) in
    if (index =? index2)%nat then
      mkSynth checked (wires s) (wires_horizontal s) (wires_vertical s) n
    else
      match orientation wire with
      | o => mkSynth checked (wires s) (wires_horizontal s) (wires_vertical s) n
      | h => mkSynth checked (wires s ++ [wire]) (wires_horizontal s ++ [wire])
                     (wires_vertical s) n
      | v => mkSynth checked (wires s ++ [wire]) (wires_horizontal s)
                     (wires_vertical s ++ [wire]) n
      end.

Definition synth_wires (data : DataFrame) : Synth :=
  fold_left
    (fun s row => fold_left (fun s' row2 => synth_pair row row2 s') data s)
    data (mkSynth [] [] [] [] 0).

(** [_process_junctions] *)
Definition _process_junctions (data : DataFrame)
  : list Wire * list Wire * list Wire :=
  let s := synth_wires (grid_junctions data) in
  (wires s, wires_horizontal s, wires_vertical s).

(** *** [_generate_asc_content]

    An entry of [asc_lines], before it is formatted. *)
Inductive Item : Type :=
| Header (s : string)
| Symbol (sym : string) (x y : Z) (rot prefix : string) (counter : Z)
| FlagLine (x y : Z)
| WireLine (x1 y1 x2 y2 : Z).

(** The [str.format] calls and the f-string of the wire lines. *)
Definition render (it : Item) : string :=
  match it with
  | Header s => s
  | Symbol sym x y rot prefix counter =>
      "SYMBOL " ++ sym ++ " " ++ str x ++ " " ++ str y ++ " " ++ rot ++ nl
      ++ "SYMATTR InstName " ++ prefix ++ str counter ++ nl
  | FlagLine x y => "FLAG " ++ str x ++ " " ++ str y ++ " 0" ++ nl
  | WireLine x1 y1 x2 y2 =>
      "WIRE " ++ str x1 ++ " " ++ str y1 ++ " " ++ str x2 ++ " " ++ str y2 ++ nl
  end%string.

(** [wire in l], for a list of [Wire] objects. *)
Definition is_in (wire : Wire) (l : list Wire) : bool :=
  existsb (fun w => (oid w =? oid wire)%nat) l.

(** The containment tests; [tol] is 35, 25, 50 or 200. *)
Definition near_vertical (tol : Z) (wire : Wire) (row : Row) : bool :=
  Qltb (inject_Z (y_start wire)) (ycenter row)
  && Qltb (ycenter row) (inject_Z (y_end wire))
  && Qltb (inject_Z (x_start wire - tol)) (xcenter row)
  && Qltb (xcenter row) (inject_Z (x_end wire + tol)).

Definition near_horizontal (tol : Z) (wire : Wire) (row : Row) : bool :=
  Qltb (inject_Z (x_start wire)) (xcenter row)
  && Qltb (xcenter row) (inject_Z (x_end wire))
  && Qltb (inject_Z (y_start wire - tol)) (ycenter row)
  && Qltb (ycenter row) (inject_Z (y_end wire + tol)).

(** The five symbol loops differ in their constants only:
    the symbol and the prefix of the instance name, the two tolerances,
    what is subtracted from the coordinate of the wire ([offset]) and from
    the coordinate of the detection ([shift]), and the two rotations. *)
Record Kind := mkKind {
  sym : string;
  prefix : string;
  tol_vertical : Z;
  tol_horizontal : Z;
  offset : Z;
  shift : Z;
  rot_vertical : string;
  rot_horizontal : string
}.

Definition resistor : Kind := mkKind "res" "R" 35 35 16 0 "R0" "R90".
Definition voltage_dc : Kind := mkKind "voltage" "V" 25 25 0 96 "R0" "R270".
Definition voltage_dc_ac : Kind := mkKind "voltage" "V" 25 25 0 96 "R0" "R270".
Definition capacitor : Kind := mkKind "cap" "C" 50 25 16 0 "R0" "R90".
Definition inductor : Kind := mkKind "ind" "L" 35 35 16 0 "R0" "R90".

(** The body of [for wire in wires] in a symbol loop.  The value written
    to [data.loc[index, ...]] is read back at once and nowhere else;
    [row] is the copy that [iterrows] made and keeps the coordinates of
    the detection. *)
Definition place_on_wire (k : Kind) (wires_horizontal wires_vertical : list Wire)
  (row : Row) (st : list Item * Z) (wire : Wire) : list Item * Z :=
  let asc_lines := fst st in
  let counter := snd st in
  if is_in wire wires_vertical then
    if near_vertical (tol_vertical k) wire row then
      (asc_lines ++ [Symbol (sym k) (x_start wire - offset k)
                        (int_of_float (ycenter row) - shift k)
                        (rot_vertical k) (prefix k) counter],
       counter + 1)
    else st
  else if is_in wire wires_horizontal then
    if near_horizontal (tol_horizontal k) wire row then
      (asc_lines ++ [Symbol (sym k) (int_of_float (xcenter row) - shift k)
                        (y_start wire - offset k)
                        (rot_horizontal k) (prefix k) counter],
       counter + 1)
    else st
  else st.

(** One symbol loop: [counter = 1], then the two nested [for]. *)
Definition place_symbols (k : Kind) (data : DataFrame)
  (wires wires_horizontal wires_vertical : list Wire) (asc_lines : list Item)
  : list Item :=
  fst (fold_left
         (fun st row =>
            fold_left (place_on_wire k wires_horizontal wires_vertical row) wires st)
         data (asc_lines, 1)).

(** The body of [for wire in wires] in the ground loop; the frame
    [data_gnd] is written and then read through [loc].  The connector line
    reads the column "y_center". *)
Definition ground_on_wire (wires_horizontal : list Wire) (row : Row)
  (st : DataFrame * list Item) (wire : Wire) : result (DataFrame * list Item) :=
  let data_gnd := fst st in
  let asc_lines := snd st in
  let index := label row in
  if is_in wire wires_horizontal then
    if near_horizontal 200 wire row then
      let data_gnd := loc_set_y data_gnd index (inject_Z (y_start wire + 16)) in
      c <- loc data_gnd index "ycenter" ;;
      fy <- to_float c ;;
      let asc_lines := asc_lines ++ [FlagLine (int_of_float (xcenter row)) (int_of_float fy)] in
      c1 <- loc data_gnd index "y_center" ;;
      y1 <- to_float c1 ;;
      c2 <- loc data_gnd index "ycenter" ;;
      y2 <- to_float c2 ;;
      ret (data_gnd,
           asc_lines ++ [WireLine (int_of_float (xcenter row)) (int_of_float (y1 - 16))
                                  (int_of_float (xcenter row)) (int_of_float y2)])
    else ret st
  else ret st.

Fixpoint ground_wires (wires_horizontal : list Wire) (row : Row)
  (wires : list Wire) (st : DataFrame * list Item) : result (DataFrame * list Item) :=
  match wires with
  | [] => ret st
  | wire :: wires' =>
      st' <- ground_on_wire wires_horizontal row st wire ;;
      ground_wires wires_horizontal row wires' st'
  end.

(** [for index, row in data_gnd.iterrows()]: [rows] is the copy of the
    frame that [iterrows] reads. *)
Fixpoint place_grounds (rows : list Row) (wires wires_horizontal : list Wire)
  (st : DataFrame * list Item) : result (DataFrame * list Item) :=
  match rows with
  | [] => ret st
  | row :: rows' =>
      st' <- ground_wires wires_horizontal row wires st ;;
      place_grounds rows' wires wires_horizontal st'
  end.

(** The loop that removes duplicates from [asc_lines]. *)
Definition no_duplicates (asc_lines : list string) : list string :=
  fold_left
    (fun acc object => if existsb (String.eqb object) acc then acc else acc ++ [object])
    asc_lines [].

(** The entries of [asc_lines] when the last loop ends. *)
Definition asc_items (data_res data_vol data_vol_ac data_cap data_gnd data_ind : DataFrame)
  (wires wires_horizontal wires_vertical : list Wire) : result (list Item) :=
  let l0 := [Header "Version 4"; Header "SHEET 1 880 680"] in
  let l1 := place_symbols resistor data_res wires wires_horizontal wires_vertical l0 in
  let l2 := place_symbols voltage_dc data_vol wires wires_horizontal wires_vertical l1 in
  let l3 := place_symbols voltage_dc_ac data_vol_ac wires wires_horizontal wires_vertical l2 in
  let l4 := place_symbols capacitor data_cap wires wires_horizontal wires_vertical l3 in
  st5 <- place_grounds data_gnd wires wires_horizontal (data_gnd, l4) ;;
  let l5 := snd st5 in
  let l6 := place_symbols inductor data_ind wires wires_horizontal wires_vertical l5 in
  ret (l6 ++ map (fun wire => WireLine (x_start wire) (y_start wire)
                                       (x_end wire) (y_end wire)) wires).

(** [_generate_asc_content] *)
Definition _generate_asc_content
  (data_res data_vol data_vol_ac data_cap data_gnd data_ind : DataFrame)
  (wires wires_horizontal wires_vertical : list Wire) : result string :=
  asc_lines <- asc_items data_res data_vol data_vol_ac data_cap data_gnd data_ind
                         wires wires_horizontal wires_vertical ;;
  ret (String.concat EmptyString (no_duplicates (map render asc_lines))).

(** [_process_image_to_asc], from the frame [df] of the detections. *)
Definition process_frame_items (df : DataFrame) : result (list Item) :=
  let data := select df "junction" in
  let '(wires, wires_horizontal, wires_vertical) := _process_junctions data in
  asc_items (select df "resistor") (select df "voltage-dc") (select df "voltage-dc_ac")
    (select df "capacitor-unpolarized") (select df "gnd") (select df "inductor")
    wires wires_horizontal wires_vertical.

Definition _process_image_to_asc (df : DataFrame) : result string :=
  let data_ind := select df "inductor" in
  let data_gnd := select df "gnd" in
  let data_cap := select df "capacitor-unpolarized" in
  let data_vol_ac := select df "voltage-dc_ac" in
  let data_vol := select df "voltage-dc" in
  let data_res := select df "resistor" in
  let data := select df "junction" in
  let '(wires, wires_horizontal, wires_vertical) := _process_junctions data in
  _generate_asc_content data_res data_vol data_vol_ac data_cap data_gnd data_ind
    wires wires_horizontal wires_vertical.

End Wires.

End Recognizer.

(** ** Scratch files ([app/services/asc_parser.py], [process_image])

    The file system is a list of files, each a path and a content, on a
    device with [free] bytes left.  [tempfile] picks a path that is not in
    use; writing more bytes than the device has left raises [OSError]. *)

Module Scratch.
Import Py.
Local Open Scope py_scope.
Local Open Scope string_scope.
Local Open Scope list_scope.

Record World := mkWorld {
  files : list (nat * string);
  free : nat
}.

(** [os.path.exists(path)] *)
Definition exists_ (path : nat) (w : World) : bool :=
  existsb (fun f => (fst f =? path)%nat) (files w).

Definition content (path : nat) (w : World) : option string :=
  option_map snd (find (fun f => (fst f =? path)%nat) (files w)).

(** A path that names no file of [w]. *)
Definition fresh (w : World) : nat :=
  S (fold_right (fun f m => Nat.max (fst f) m) 0%nat (files w)).

(** [tempfile.NamedTemporaryFile(mode="wb", suffix=..., delete=False)]:
    a new, empty file; closing it does not delete it. *)
Definition NamedTemporaryFile (w : World) : nat * World :=
  let path := fresh w in
  (path, mkWorld ((path, EmptyString) :: files w) (free w)).

(** [temp_file.write(file_content)], flushed when the [with] block closes
    the file. *)
Definition write (path : nat) (file_content : string) (w : World)
  : result unit * World :=
  if (String.length file_content <=? free w)%nat then
    (ret tt,
     mkWorld (map (fun f => if (fst f =? path)%nat then (path, file_content) else f)
                  (files w))
             (free w - String.length file_content))
  else (raise OSError, w).

(** [os.unlink(path)] *)
Definition unlink (path : nat) (w : World) : World :=
  mkWorld (filter (fun f => negb (fst f =? path)%nat) (files w))
          (free w + match content path w with
                    | Some c => String.length c
                    | None => 0
                    end).

(** The [finally] block of the three services. *)
Definition cleanup (temp_file_path : nat) (w : World) : World :=
  if exists_ temp_file_path w then unlink temp_file_path w else w.

(** [ASCParser(path).parse()]: [open] raises when the file is missing. *)
Definition parser_parse (path : nat) (w : World) : result ASC.CircuitData :=
  match content path w with
  | Some text => ASC.parse text
  | None => raise OSError
  end.

(** [convert_asc_to_json(path)], without a [json_file_path]. *)
Definition convert_asc_to_json (path : nat) (w : World) : result ASC.CircuitData :=
  parser_parse path w.

(** [ASCParsingService.parse_asc_file] *)
Definition parse_asc_file (file_content : string) (w : World)
  : result ASC.CircuitData * World :=
  let (temp_file_path, w1) := NamedTemporaryFile w in
  match write temp_file_path file_content w1 with
  | (inl e, w2) => (raise e, w2)
  | (inr _, w2) =>
      let r := parser_parse temp_file_path w2 in
      (r, cleanup temp_file_path w2)
  end.

(** [ASCParsingService.convert_to_json] *)
Definition convert_to_json (file_content : string) (w : World)
  : result ASC.CircuitData * World :=
  let (temp_file_path, w1) := NamedTemporaryFile w in
  match write temp_file_path file_content w1 with
  | (inl e, w2) => (raise e, w2)
  | (inr _, w2) =>
      let r := convert_asc_to_json temp_file_path w2 in
      (r, cleanup temp_file_path w2)
  end.

(** The value of the key "data" in the dictionary [process_image]
    returns. *)
Inductive Output : Type :=
| Asc (asc_content : string)
| Json (json_data : ASC.CircuitData).

Section Service.

Variable atan2_degrees : Z -> Z -> Q.

(** [detector image] stands for [cv.imread] and the inference of the
    model on the bytes of the image: the frame of the detections, or an
    exception. *)
Variable detector : string -> result Recognizer.DataFrame.

(** [CircuitRecognitionService._process_image_to_asc], from the path. *)
Definition process_image_to_asc (image_path : nat) (w : World) : result string :=
  match content image_path w with
  | Some image =>
      df <- detector image ;;
      Recognizer._process_image_to_asc atan2_degrees df
  | None => raise OSError
  end.

(** [CircuitRecognitionService.process_image] *)
Definition process_image (file_content : string) (output_format : string) (w : World)
  : result Output * World :=
  let (temp_file_path, w1) := NamedTemporaryFile w in
  match write temp_file_path file_content w1 with
  | (inl e, w2) => (raise e, w2)
  | (inr _, w2) =>
      let (r, w3) :=
        match process_image_to_asc temp_file_path w2 with
        | inl e => (raise e, w2)
        | inr asc_content =>
            if output_format =? "json" then
              let (j, w') := convert_to_json asc_content w2 in
              (match j with
               | inl e => raise e
               | inr json_data => ret (Json json_data)
               end, w')
            else (ret (Asc asc_content), w2)
        end in
      (r, cleanup temp_file_path w3)
  end.

End Service.

End Scratch.

(** ** A parser object that parses twice ([save_json], [convert_asc_to_json]) *)

Module ASCObject.
Import Py ASC.
Local Open Scope py_scope.
Local Open Scope string_scope.
Local Open Scope list_scope.

(** The three lists of a parser are objects of a store, and a reference is
    the position of a list in the store: [self.components.append(c)]
    changes a list in place, [self.components = unique_components] binds
    the field to a new list and leaves the old one as it is. *)
Record Store := mkStore {
  component_lists : list (list Component);
  wire_lists : list (list Wire);
  flag_lists : list (list Flag)
}.

Definition empty_store : Store := mkStore [] [] [].

Definition get {A : Type} (lists : list (list A)) (r : nat) : list A := nth r lists [].

Fixpoint set {A : Type} (lists : list (list A)) (r : nat) (l : list A) : list (list A) :=
  match lists, r with
  | [], _ => []
  | _ :: ls, O => l :: ls
  | l0 :: ls, S r' => l0 :: set ls r' l
  end.

Definition alloc {A : Type} (lists : list (list A)) (l : list A) : list (list A) * nat :=
  (lists ++ [l], List.length lists).

(** The fields of an [ASCParser] object: the lists by reference. *)
Record Parser := mkObject {
  components_ref : nat;
  wires_ref : nat;
  flags_ref : nat;
  version_field : option string;
  sheet_field : option Sheet;
  counter_field : Z
}.

(** The dictionary of [_to_json]: it holds the lists of the parser, not
    copies of them. *)
Record Dict := mkDict {
  dict_version : option string;
  dict_sheet : option Sheet;
  dict_components : nat;
  dict_wires : nat;
  dict_flags : nat
}.

(** What the holder of a dictionary reads in it. *)
Definition read (st : Store) (d : Dict) : CircuitData :=
  mkCircuit (dict_version d) (dict_sheet d)
    (get (component_lists st) (dict_components d))
    (get (wire_lists st) (dict_wires d))
    (get (flag_lists st) (dict_flags d)).

(** [ASCParser(asc_file_path)]: three new empty lists. *)
Definition new (st : Store) : Parser * Store :=
  let (cl, c) := alloc (component_lists st) [] in
  let (wl, w) := alloc (wire_lists st) [] in
  let (fl, f) := alloc (flag_lists st) [] in
  (mkObject c w f None None 0, mkStore cl wl fl).

(** [_to_json] *)
Definition _to_json (self : Parser) : Dict :=
  mkDict (version_field self) (sheet_field self) (components_ref self) (wires_ref self)
         (flags_ref self).

(** [parse] on a parser object; [lines] is what [readlines] returns for
    the file of the parser.  The loop starts from the fields as they are
    and appends to the three lists in place; then
    [_remove_duplicate_components] and [_remove_duplicate_wires] bind two
    new lists.  The list of flags is never bound again. *)
Definition parse (self : Parser) (lines : list string) (st : Store)
  : result (Dict * Parser * Store) :=
  let before :=
    mkParser (get (component_lists st) (components_ref self))
             (get (wire_lists st) (wires_ref self))
             (get (flag_lists st) (flags_ref self))
             (version_field self) (sheet_field self) (counter_field self) in
  after <- parse_loop before lines ;;
  let st1 :=
    mkStore (set (component_lists st) (components_ref self) (components after))
            (set (wire_lists st) (wires_ref self) (wires after))
            (set (flag_lists st) (flags_ref self) (flags after)) in
  let (cl, c) := alloc (component_lists st1) (unique_components [] (components after)) in
  let (wl, w) := alloc (wire_lists st1) (unique_wires [] (wires after)) in
  let self' :=
    mkObject c w (flags_ref self) (version after) (sheet after) (component_counter after) in
  ret (_to_json self', self', mkStore cl wl (flag_lists st1)).

(** [if json_file_path:] *)
Definition given (json_file_path : option string) : bool :=
  match json_file_path with
  | Some (String _ _) => true
  | _ => false
  end.

Section Files.

(** [writable output_path]: [open(output_path, 'w')] returns a file and
    [json.dump] writes it.  Otherwise the [with] statement raises an
    [OSError]: the path is a directory, its directory does not exist, the
    file may not be written, the device is full. *)
Variable writable : string -> bool.

(** [save_json]: what [json.dump] writes is the dictionary as it reads
    when the second parse returns. *)
Definition save_json (self : Parser) (output_path : string) (lines : list string)
  (st : Store) : result (CircuitData * Dict * Parser * Store) :=
  r <- parse self lines st ;;
  let '(circuit_data, self', st') := r in
  if writable output_path then ret (read st' circuit_data, circuit_data, self', st')
  else raise OSError.

(** [convert_asc_to_json]: the dictionary that is returned, what was
    written to [json_file_path] if anything, and the store. *)
Definition convert_asc_to_json (lines : list string) (json_file_path : option string)
  : result (Dict * option CircuitData * Store) :=
  let (parser, st) := new empty_store in
  r <- parse parser lines st ;;
  let '(circuit_data, parser', st') := r in
  match json_file_path with
  | Some output_path =>
      if given json_file_path then
        s <- save_json parser' output_path lines st' ;;
        let '(written, _, _, st'') := s in
        ret (circuit_data, Some written, st'')
      else ret (circuit_data, None, st')
  | None => ret (circuit_data, None, st')
  end.

End Files.

End ASCObject.

(** ** The routes ([app/api/v1/routes/asc_parsing.py],
       [app/api/v1/routes/circuit_recognition.py])

    A route is modelled from the body of its function: the dependency
    [verify_api_key] has returned when the body runs. *)

Module Routes.
Import Py.
Local Open Scope py_scope.
Local Open Scope string_scope.
Local Open Scope list_scope.

(** [settings] ([app/core/config.py]) *)
Definition MAX_FILE_SIZE : Z := 10 * 1024 * 1024.
Definition ALLOWED_IMAGE_TYPES : list string := ["image/jpeg"; "image/png"].
Definition ALLOWED_ASC_TYPES : list string := ["text/plain"].

(** What the routes read of an [UploadFile]: [content_type] and [size],
    which may be [None], and the result of [await file.read()]. *)
Record UploadFile := mkUploadFile {
  content_type : option string;
  size : option Z;
  read : result string
}.

(** What a route answers: the value it returns, or the status code of the
    [HTTPException] it raises. *)
Inductive Response (A : Type) : Type :=
| Returns (a : A)
| HTTPException (status_code : Z).
Arguments Returns {A} a.
Arguments HTTPException {A} status_code.

(** [file.content_type not in allowed] *)
Definition not_in (t : option string) (allowed : list string) : bool :=
  match t with
  | Some s => negb (existsb (String.eqb s) allowed)
  | None => true
  end.

(** [if file.size:] holds for a size that is neither [None] nor 0. *)
Definition size_given (file : UploadFile) : bool :=
  match size file with
  | Some n => negb (n =? 0)%Z
  | None => false
  end.

(** The lines that the four routes share, from "Check file size" to
    "Check file size after reading if not already checked". *)
Definition read_checked (file : UploadFile) : Response string :=
  let file_size :=
    match size file with
    | Some n => if size_given file then n else 0
    | None => 0
    end in
  if (MAX_FILE_SIZE <? file_size)%Z then HTTPException 413
  else
    match read file with
    | inl _ => HTTPException 500
    | inr file_content =>
        if negb (size_given file)
           && (MAX_FILE_SIZE <? Z.of_nat (String.length file_content))%Z
        then HTTPException 413
        else Returns file_content
    end.

Section Service.

Variable atan2_degrees : Z -> Z -> Q.
Variable detector : string -> result Recognizer.DataFrame.

(** [validates d] tells whether pydantic builds a model of the schemas
    ([ASCParseResponse], [CircuitData]: the same fields) from the
    dictionary [d] of the parser without raising [ValidationError]. *)
Variable validates : ASC.CircuitData -> bool.

(** The last [try] statement of the two routes of [asc_parsing.py]:
    every exception of the service or of the model becomes status 500. *)
Definition answer_document (r : result ASC.CircuitData) : Response ASC.CircuitData :=
  match r with
  | inl _ => HTTPException 500
  | inr circuit_data =>
      if validates circuit_data then Returns circuit_data else HTTPException 500
  end.

(** [convert_asc_to_json], the route. *)
Definition convert_asc_to_json (file : UploadFile) (w : Scratch.World)
  : Response ASC.CircuitData * Scratch.World :=
  if not_in (content_type file) ALLOWED_ASC_TYPES then (HTTPException 400, w)
  else
    match read_checked file with
    | HTTPException c => (HTTPException c, w)
    | Returns file_content =>
        let (r, w') := Scratch.convert_to_json file_content w in
        (answer_document r, w')
    end.

(** [parse_asc_file], the route. *)
Definition parse_asc_file (file : UploadFile) (w : Scratch.World)
  : Response ASC.CircuitData * Scratch.World :=
  if not_in (content_type file) ALLOWED_ASC_TYPES then (HTTPException 400, w)
  else
    match read_checked file with
    | HTTPException c => (HTTPException c, w)
    | Returns file_content =>
        let (r, w') := Scratch.parse_asc_file file_content w in
        (answer_document r, w')
    end.

(** [recognize_circuit]: the value of "data", as it is or under the key
    "content". *)
Definition recognize_circuit (file : UploadFile) (output_format : string)
  (w : Scratch.World) : Response Scratch.Output * Scratch.World :=
  if not_in (content_type file) ALLOWED_IMAGE_TYPES then (HTTPException 400, w)
  else if negb (existsb (String.eqb output_format) ["asc"; "json"])
  then (HTTPException 400, w)
  else
    match read_checked file with
    | HTTPException c => (HTTPException c, w)
    | Returns file_content =>
        let (r, w') :=
          Scratch.process_image atan2_degrees detector file_content output_format w in
        (match r with
         | inl _ => HTTPException 500
         | inr data => Returns data
         end, w')
    end.

(** [recognize_and_parse]: the model [CircuitData] is built from the
    value of "data", which raises when the value is not a dictionary. *)
Definition recognize_and_parse (file : UploadFile) (w : Scratch.World)
  : Response ASC.CircuitData * Scratch.World :=
  if not_in (content_type file) ALLOWED_IMAGE_TYPES then (HTTPException 400, w)
  else
    match read_checked file with
    | HTTPException c => (HTTPException c, w)
    | Returns file_content =>
        let (r, w') :=
          Scratch.process_image atan2_degrees detector file_content "json" w in
        (match r with
         | inl _ => HTTPException 500
         | inr (Scratch.Json json_data) => answer_document (inr json_data)
         | inr (Scratch.Asc _) => HTTPException 500
         end, w')
    end.

End Service.

End Routes.

(** ** The serializer of the specification *)

Module Serializer.
Import Py ASC.
Local Open Scope string_scope.

(** Modelled from the spec: the repository has no function from a
    Schematic to its text (section 4.2, Schematic Text Serializer).  The
    attribute key "name" is written as "InstName". *)
Definition attr_line (kv : string * string) : string :=
  "SYMATTR " ++ (if fst kv =? "name" then "InstName" else fst kv)
  ++ (if snd kv =? EmptyString then EmptyString else " " ++ snd kv).

(** Modelled from the spec: one symbol line (type, x, y, rotation). *)
Definition symbol_line (c : Component) : string :=
  "SYMBOL " ++ type c ++ " " ++ str (x c) ++ " " ++ str (y c) ++ " " ++ rotation c.

(** Modelled from the spec: a symbol line, then one attribute line per
    attribute in stored order. *)
Definition component_lines (c : Component) : list string :=
  symbol_line c :: map attr_line (attributes c).

(** Modelled from the spec: the end nearer the origin is listed first;
    of two ends at the same distance the stored order is kept. *)
Definition normalize (w : Wire) : Wire :=
  if (x2 w ^ 2 + y2 w ^ 2 <? x1 w ^ 2 + y1 w ^ 2)%Z
  then mkWire (x2 w) (y2 w) (x1 w) (y1 w)
  else w.

(** Modelled from the spec: one wire line, after normalizing. *)
Definition wire_line (w : Wire) : string :=
  let n := normalize w in
  "WIRE " ++ str (x1 n) ++ " " ++ str (y1 n) ++ " " ++ str (x2 n) ++ " " ++ str (y2 n).

(** Modelled from the spec: one flag line. *)
Definition flag_line (f : Flag) : string :=
  "FLAG " ++ str (flag_x f) ++ " " ++ str (flag_y f) ++ " " ++ net_name f.

(** Modelled from the spec: the version line (if set), the sheet line
    (if set), the components, the wires and the flags, in stored order. *)
Definition all_lines (s : CircuitData) : list string :=
  (match cd_version s with
   | Some v => [("Version " ++ v)%string]
   | None => []
   end
   ++ match cd_sheet s with
      | Some sh => [("SHEET " ++ str (number sh) ++ " " ++ str (width sh) ++ " "
                     ++ str (height sh))%string]
      | None => []
      end
   ++ flat_map component_lines (cd_components s)
   ++ map wire_line (cd_wires s)
   ++ map flag_line (cd_flags s))%list.

(** Modelled from the spec: a line identical to a line already emitted is
    suppressed. *)
Fixpoint suppress (seen : list string) (ls : list string) : list string :=
  match ls with
  | [] => []
  | l :: ls' =>
      if existsb (String.eqb l) seen then suppress seen ls'
      else l :: suppress (l :: seen) ls'
  end.

(** Modelled from the spec: the lines that are emitted. *)
Definition emitted_lines (s : CircuitData) : list string := suppress [] (all_lines s).

(** Modelled from the spec: the text of a Schematic, one emitted line per
    line of text. *)
Definition serialize (s : CircuitData) : string :=
  String.concat EmptyString (map (fun l => l ++ nl) (emitted_lines s)).

End Serializer.

(** * Vocabulary of the properties *)

(** ** Vocabulary: Wires *)

Module WireSpec.
Import Py Recognizer.
Local Open Scope Q_scope.

(** The angles, in degrees, that the code classifies as horizontal. *)
Definition horizontal_range (a : Q) : Prop :=
  a <= 10 \/ 350 < a \/ (170 <= a /\ a < 190).

(** The angles, in degrees, that the code classifies as vertical. *)
Definition vertical_range (a : Q) : Prop :=
  (80 < a /\ a < 100) \/ (260 < a /\ a < 280).

(** The square of the distance to the origin. *)
Definition dist2 (x y : Z) : Z := x ^ 2 + y ^ 2.

End WireSpec.

(** ** Vocabulary: The symbol placer *)

Module PlacerSpec.
Import Py Recognizer.
Local Open Scope string_scope.
Local Open Scope list_scope.

(** The orientation-specific containment test of a symbol loop. *)
Definition attaches (k : Kind) (wires_horizontal wires_vertical : list Wire)
  (row : Row) (wire : Wire) : bool :=
  if is_in wire wires_vertical then near_vertical (tol_vertical k) wire row
  else if is_in wire wires_horizontal then near_horizontal (tol_horizontal k) wire row
  else false.

(** The symbol that a detection gets on a wire it attaches to. *)
Definition placed (k : Kind) (wires_vertical : list Wire) (counter : Z)
  (row : Row) (wire : Wire) : Item :=
  if is_in wire wires_vertical then
    Symbol (sym k) (x_start wire - offset k) (int_of_float (ycenter row) - shift k)
           (rot_vertical k) (prefix k) counter
  else
    Symbol (sym k) (int_of_float (xcenter row) - shift k) (y_start wire - offset k)
           (rot_horizontal k) (prefix k) counter.

(** Symbols for a list of (detection, wire) pairs, numbered from [counter]. *)
Fixpoint numbered (k : Kind) (wires_vertical : list Wire) (counter : Z)
  (l : list (Row * Wire)) : list Item :=
  match l with
  | [] => []
  | (row, wire) :: l' =>
      placed k wires_vertical counter row wire
      :: numbered k wires_vertical (counter + 1) l'
  end.

(** Every wire a detection attaches to, in discovery order. *)
Definition every_match (k : Kind) (wires_horizontal wires_vertical wires : list Wire)
  (row : Row) : list (Row * Wire) :=
  map (pair row) (filter (attaches k wires_horizontal wires_vertical row) wires).

(** The first wire a detection attaches to, if any: the policy of the
    specification. *)
Definition first_match (k : Kind) (wires_horizontal wires_vertical wires : list Wire)
  (row : Row) : list (Row * Wire) :=
  match find (attaches k wires_horizontal wires_vertical row) wires with
  | Some wire => [(row, wire)]
  | None => []
  end.

(** Scenario C, with a second vertical wire nearby. *)
Definition wire_112 : Wire := mkWire 0 112 0 112 208 v.
Definition wire_96 : Wire := mkWire 1 96 0 96 208 v.
Definition resistor_108_50 : Row := mkRow 0 108 50 40 90 (9 # 10) 5 "resistor".

(** The frame has a row with this label. *)
Definition has_label (data : DataFrame) (index : nat) : bool :=
  existsb (fun r => (label r =? index)%nat) data.

(** A ground detection attaches to a wire. *)
Definition ground_attaches (wires_horizontal : list Wire) (row : Row) (wire : Wire)
  : bool :=
  is_in wire wires_horizontal && near_horizontal 200 wire row.

(** A ground detected under a horizontal wire. *)
Definition wire_0_100 : Wire := mkWire 0 0 0 100 0 h.
Definition ground_50_10 : Row := mkRow 7 50 10 30 30 (8 # 10) 2 "gnd".

(** The first characters of every text that is returned. *)
Definition header_text : string := "Version 4SHEET 1 880 680".

End PlacerSpec.

(** ** Vocabulary: The grid *)

Module GridSpec.
Import Py Recognizer PlacerSpec.
Local Open Scope string_scope.
Local Open Scope list_scope.

(** A coordinate on the grid. *)
Definition on_grid (z : Z) : Prop := z mod 16 = 0.

(** A junction of the frame lies on the grid. *)
Definition junction_on_grid (r : Row) : Prop :=
  on_grid (int_of_float (xcenter r)) /\ on_grid (int_of_float (ycenter r))
  /\ (xcenter r == inject_Z (int_of_float (xcenter r)))%Q
  /\ (ycenter r == inject_Z (int_of_float (ycenter r)))%Q.

(** [c'] is the largest multiple of 16 that is at most [c]. *)
Definition snapped_down (c c' : Q) : Prop :=
  (exists k : Z, c' == inject_Z (16 * k))%Q /\ (c' <= c)%Q /\ (c < c' + 16)%Q.

(** The junction [r] is the junction [r0] snapped down to the grid. *)
Definition junction_snapped (r0 r : Row) : Prop :=
  snapped_down (xcenter r0) (xcenter r) /\ snapped_down (ycenter r0) (ycenter r).

(** The four coordinates of a wire are on the grid. *)
Definition wire_on_grid (w : Wire) : Prop :=
  on_grid (x_start w) /\ on_grid (y_start w) /\ on_grid (x_end w) /\ on_grid (y_end w).

(** What the code puts on the grid: the four coordinates of a wire line,
    and of a symbol the coordinate across its wire, which is [x] for a
    symbol placed with rotation R0 on a vertical wire and [y] for one
    placed with R90 or R270 on a horizontal wire. *)
Definition item_on_grid (it : Item) : Prop :=
  match it with
  | Header _ => True
  | Symbol _ x y rot _ _ => if rot =? "R0" then on_grid x else on_grid y
  | FlagLine _ y => on_grid y
  | WireLine x1 y1 x2 y2 => on_grid x1 /\ on_grid y1 /\ on_grid x2 /\ on_grid y2
  end.

(** What C5 asks for: every coordinate of every entry. *)
Definition item_all_on_grid (it : Item) : Prop :=
  match it with
  | Header _ => True
  | Symbol _ x y _ _ _ => on_grid x /\ on_grid y
  | FlagLine x y => on_grid x /\ on_grid y
  | WireLine x1 y1 x2 y2 => on_grid x1 /\ on_grid y1 /\ on_grid x2 /\ on_grid y2
  end.

(** The constants of a symbol loop keep the coordinate of the wire on the
    grid, and the rotation tells the orientation of the wire. *)
Definition kind_on_grid (k : Kind) : Prop :=
  on_grid (offset k) /\ rot_vertical k = "R0" /\ (rot_horizontal k =? "R0") = false.

(** The invariant of the loop that builds the wires. *)
Definition synth_on_grid (s : Synth) : Prop :=
  Forall wire_on_grid (wires s).

(** Three junctions at the corners of an L, and the resistor of
    Scenario C. *)
Definition junction_a : Row := mkRow 0 (1123 # 10) (32 # 10) 12 12 (9 # 10) 0 "junction".
Definition junction_b : Row := mkRow 1 110 205 12 12 (9 # 10) 0 "junction".
Definition junction_c : Row := mkRow 3 300 190 12 12 (8 # 10) 0 "junction".
Definition detections : DataFrame :=
  [junction_a; junction_b; resistor_108_50; junction_c].

End GridSpec.

(** ** Vocabulary: The parser *)

Module ParserSpec.
Import Py ASC.
Local Open Scope string_scope.
Local Open Scope list_scope.
Local Open Scope py_scope.

(** An attribute line and a symbol line, as [parse] recognizes them. *)
Definition is_symattr (raw : string) : bool := startswith (strip raw) "SYMATTR".
Definition is_symbol (raw : string) : bool := startswith (strip raw) "SYMBOL".

(** Whether the parser is inside a symbol block after reading a line:
    a SYMBOL line opens a block, a SYMATTR line continues the block it is
    in, any other line closes it. *)
Definition block_step (b : bool) (raw : string) : bool :=
  if is_symbol raw then true else if is_symattr raw then b else false.

(** Whether the line that follows [pre] is inside a symbol block. *)
Definition in_symbol_block (pre : list string) : bool := fold_left block_step pre false.

(** The call raises. *)
Definition fails {A} (r : result A) : bool :=
  match r with inl _ => true | inr _ => false end.

(** A numeric token that is not an integer. *)
Definition not_int (tok : string) : bool :=
  match int_opt tok with Some _ => false | None => true end.

(** Fewer tokens than required, or a token at a numeric position that is
    not an integer. *)
Definition bad_tokens (parts : list string) (required : nat) (numeric : list nat) : bool :=
  (List.length parts <? required)%nat
  || existsb (fun i => match nth_error parts i with
                       | Some tok => not_int tok
                       | None => false
                       end) numeric.

(** A recognized keyword line that is malformed. *)
Definition malformed (line : string) : bool :=
  let parts := split line in
  if startswith line "Version" then bad_tokens parts 2 []
  else if startswith line "SHEET" then bad_tokens parts 4 [1; 2; 3]%nat
  else if startswith line "SYMBOL" then bad_tokens parts 5 [2; 3]%nat
  else if startswith line "WIRE" then bad_tokens parts 5 [1; 2; 3; 4]%nat
  else if startswith line "FLAG" then bad_tokens parts 4 [1; 2]%nat
  else if startswith line "SYMATTR" then bad_tokens parts 2 []
  else false.

(** Some line that the parser examines is malformed; [block] tells
    whether the line follows a SYMBOL line or a SYMATTR line of its block.
    A SYMATTR line outside a block is not examined. *)
Fixpoint some_malformed (block : bool) (lines : list string) : bool :=
  match lines with
  | [] => false
  | raw :: rest =>
      let line := strip raw in
      if startswith line "SYMATTR"
      then (block && malformed line) || some_malformed block rest
      else malformed line || some_malformed (startswith line "SYMBOL") rest
  end.

(** The exceptions that indexing a list and [int()] raise. *)
Definition builtin_error (e : exn) : Prop :=
  e = IndexError \/ exists tok, e = ValueError tok.

(** A function that parses one line fails exactly on bad tokens, with a
    built-in exception. *)
Definition line_parser_ok {A} (r : result A) (parts : list string) (required : nat)
  (numeric : list nat) : Prop :=
  fails r = bad_tokens parts required numeric
  /\ forall e, r = inl e -> builtin_error e.

End ParserSpec.

(** ** Vocabulary: Scratch files *)

Module ScratchSpec.
Import Py Scratch.
Local Open Scope string_scope.
Local Open Scope list_scope.

(** A device with room for 5 bytes and no file. *)
Definition full_device : World := mkWorld [] 5.

End ScratchSpec.

(** ** Vocabulary: Strings, tokens and lines *)

Module TextSpec.
Import Py.
Local Open Scope string_scope.
Local Open Scope list_scope.

(** A string without white space. *)
Fixpoint no_space (s : string) : bool :=
  match s with
  | EmptyString => true
  | String c s' => negb (isspace c) && no_space s'
  end.

(** A token: what [split] returns. *)
Definition is_token (s : string) : bool :=
  match s with
  | EmptyString => false
  | _ => no_space s
  end.

(** The first character is not white space. *)
Definition starts_no_space (s : string) : bool :=
  match s with
  | EmptyString => false
  | String c _ => negb (isspace c)
  end.

(** A string without line break. *)
Fixpoint no_newline (s : string) : bool :=
  match s with
  | EmptyString => true
  | String c s' => negb (c =? LF)%char && negb (c =? CR)%char && no_newline s'
  end.

End TextSpec.

(** ** Vocabulary: The round trip through the serializer *)

Module RoundTripSpec.
Import Py ASC Serializer ParserSpec TextSpec.
Local Open Scope string_scope.
Local Open Scope list_scope.
Local Open Scope py_scope.

(** A line as [readlines] returns it. *)
Definition raw (l : string) : string := (l ++ nl)%string.

(** No string occurs twice. *)
Fixpoint distinct (l : list string) : bool :=
  match l with
  | [] => true
  | a :: l' => negb (existsb (String.eqb a) l') && distinct l'
  end.

(** An attribute as the parser stores it: the key is a token other than
    InstName, the value is a sequence of tokens separated by single
    spaces. *)
Definition wf_attr (kv : string * string) : bool :=
  is_token (fst kv) && negb (fst kv =? "InstName")
  && (join " " (split (snd kv)) =? snd kv).

(** A component as the parser stores it. *)
Definition wf_component (c : Component) : bool :=
  is_token (type c) && is_token (rotation c)
  && forallb wf_attr (attributes c) && distinct (map fst (attributes c)).

(** The next line, if any, is not an attribute line. *)
Definition no_attr_head (rest : list string) : bool :=
  match rest with
  | [] => true
  | r :: _ => negb (startswith (strip r) "SYMATTR")
  end.

(** The key that the serializer writes. *)
Definition written_key (k : string) : string := if k =? "name" then "InstName" else k.

(** [c] with other attributes. *)
Definition with_attributes (c : Component) (a : list (string * string)) : Component :=
  mkComponent (id c) (type c) (x c) (y c) (rotation c) a.

(** The parser with its counter incremented. *)
Definition bump (st : ASCParser) : ASCParser :=
  mkParser (components st) (wires st) (flags st) (version st) (sheet st)
           (component_counter st + 1).

(** The ids are comp_n, comp_(n+1), ... in order. *)
Fixpoint ids_from (n : Z) (cs : list Component) : bool :=
  match cs with
  | [] => true
  | c :: cs' => (id c =? "comp_" ++ str n)%string && ids_from (n + 1) cs'
  end.

(** The lines of the symbol blocks, as [readlines] returns them. *)
Definition block_lines (cs : list Component) : list string :=
  flat_map (fun c => map raw (component_lines c)) cs.

(** The wire is stored with the end nearer the origin first, as the
    serializer writes it. *)
Definition normalized (w : Wire) : bool :=
  negb (x2 w ^ 2 + y2 w ^ 2 <? x1 w ^ 2 + y1 w ^ 2)%Z.

(** A flag as the parser stores it. *)
Definition wf_flag (f : Flag) : bool := is_token (net_name f).

(** No two elements are equal for [eqb]. *)
Fixpoint pairwise_distinct {A : Type} (eqb : A -> A -> bool) (l : list A) : bool :=
  match l with
  | [] => true
  | a :: l' => negb (existsb (eqb a) l') && pairwise_distinct eqb l'
  end.

(** A version as the parser stores it. *)
Definition wf_version (v : option string) : bool :=
  match v with
  | Some v => is_token v
  | None => true
  end.

(** The tokens of a document are tokens. *)
Definition wf_tokens (s : CircuitData) : bool :=
  wf_version (cd_version s) && forallb wf_component (cd_components s)
  && forallb wf_flag (cd_flags s).

(** No two components and no two wires have the same de-duplication key. *)
Definition keys_distinct (s : CircuitData) : bool :=
  pairwise_distinct component_key_eqb (map component_key (cd_components s))
  && pairwise_distinct wire_key_eqb (map wire_key (cd_wires s)).

(** The loop shared by the two functions that remove duplicates and by
    the line suppression of the serializer: an element is kept when its key
    is not among the keys seen so far. *)
Fixpoint unique {A K : Type} (key : A -> K) (eqb : K -> K -> bool)
  (seen : list K) (l : list A) : list A :=
  match l with
  | [] => []
  | a :: l' =>
      if existsb (eqb (key a)) seen then unique key eqb seen l'
      else a :: unique key eqb (key a :: seen) l'
  end.

(** No element of [l] has a key in [seen]. *)
Definition unseen {A K : Type} (key : A -> K) (eqb : K -> K -> bool)
  (seen : list K) (l : list A) : bool :=
  forallb (fun a => negb (existsb (eqb (key a)) seen)) l.

(** A document that its text determines: well-formed tokens, ids in
    sequence from comp_1, wires normalized, no line written twice, no key
    occurring twice. *)
Definition wf_document (s : CircuitData) : bool :=
  wf_tokens s && ids_from 1 (cd_components s) && forallb normalized (cd_wires s)
  && distinct (all_lines s) && keys_distinct s.

(** The invariant of the parsing loop. *)
Definition wf_state (st : ASCParser) : Prop :=
  forallb wf_component (components st) = true
  /\ forallb wf_flag (flags st) = true
  /\ wf_version (version st) = true.

(** Scenario A of the specification, with a second attribute and a
    flag, and the document it parses to. *)
Definition scenario_A : string :=
  ("Version 4" ++ nl ++ "SHEET 1 880 680" ++ nl ++ "SYMBOL res 100 100 R0" ++ nl
   ++ "SYMATTR InstName R1" ++ nl ++ "SYMATTR Value 1k 5%" ++ nl
   ++ "WIRE 0 0 100 0" ++ nl ++ "FLAG 0 16 0" ++ nl)%string.

Definition document_A : CircuitData :=
  mkCircuit (Some "4") (Some (mkSheet 1 880 680))
    [mkComponent "comp_1" "res" 100 100 "R0" [("name", "R1"); ("Value", "1k 5%")]]
    [mkWire 0 0 100 0] [mkFlag 0 16 "0"].

(** Modelled from the spec: two components are structurally identical
    when they agree on type, position, rotation and attributes; the
    generated id is not compared (section 3). *)
Definition same_component (c1 c2 : Component) : Prop :=
  type c1 = type c2 /\ x c1 = x c2 /\ y c1 = y c2 /\ rotation c1 = rotation c2
  /\ attributes c1 = attributes c2.

(** Modelled from the spec: two wires are the same undirected segment
    when they have the same two ends, in either order (section 3). *)
Definition same_segment (w1 w2 : Wire) : Prop :=
  w1 = w2 \/ w1 = mkWire (x2 w2) (y2 w2) (x1 w2) (y1 w2).

(** Modelled from the spec: structural equality of two Schematics: the
    same version, sheet and flags, components that are structurally
    identical in order, and wires that are the same segments in order. *)
Definition structurally_equal (s1 s2 : CircuitData) : Prop :=
  cd_version s1 = cd_version s2 /\ cd_sheet s1 = cd_sheet s2
  /\ Forall2 same_component (cd_components s1) (cd_components s2)
  /\ Forall2 same_segment (cd_wires s1) (cd_wires s2)
  /\ cd_flags s1 = cd_flags s2.

(** The de-duplicated form of a document: what [_remove_duplicate_components]
    and [_remove_duplicate_wires] leave of its components and wires. *)
Definition deduplicated (s : CircuitData) : CircuitData :=
  mkCircuit (cd_version s) (cd_sheet s) (unique_components [] (cd_components s))
            (unique_wires [] (cd_wires s)) (cd_flags s).

(** The serializer suppresses no line of [s]: no line of its text is
    repeated. *)
Definition suppresses_nothing (s : CircuitData) : Prop :=
  emitted_lines s = all_lines s.

(** The serializer suppresses the lines of the duplicates of [s] and no
    other: what it emits are the lines of the de-duplicated form. *)
Definition suppresses_duplicates (s : CircuitData) : Prop :=
  emitted_lines s = all_lines (deduplicated s).

(** The components with the ids comp_n, comp_(n+1), ... in order. *)
Fixpoint numbered (n : Z) (cs : list Component) : list Component :=
  match cs with
  | [] => []
  | c :: cs' =>
      mkComponent ("comp_" ++ str n) (type c) (x c) (y c) (rotation c) (attributes c)
      :: numbered (n + 1) cs'
  end.

(** The document that the text of [s] determines: the ids in sequence
    from comp_1, every wire with the end nearer the origin first. *)
Definition canonical (s : CircuitData) : CircuitData :=
  mkCircuit (cd_version s) (cd_sheet s) (numbered 1 (cd_components s))
            (map normalize (cd_wires s)) (cd_flags s).

(** A text with a component twice and a wire drawn from its far end, and
    the document it parses to. *)
Definition scenario_twice : string :=
  ("SYMBOL res 0 0 R0" ++ nl ++ "SYMATTR InstName R1" ++ nl
   ++ "SYMBOL res 0 0 R0" ++ nl ++ "SYMATTR InstName R1" ++ nl
   ++ "SYMBOL cap 16 0 R0" ++ nl ++ "SYMATTR Value 1u" ++ nl
   ++ "WIRE 100 0 0 0" ++ nl)%string.

Definition document_twice : CircuitData :=
  mkCircuit None None
    [mkComponent "comp_1" "res" 0 0 "R0" [("name", "R1")];
     mkComponent "comp_3" "cap" 16 0 "R0" [("Value", "1u")]]
    [mkWire 100 0 0 0] [].

(** A document built directly: its two wires are one segment, drawn from
    either of two ends that are equally far from the origin. *)
Definition document_built : CircuitData :=
  mkCircuit (Some "4") None [mkComponent "R" "res" 0 0 "R0" []]
    [mkWire 3 4 4 3; mkWire 4 3 3 4] [].

(** A document built directly with a component and a wire twice. *)
Definition document_copies : CircuitData :=
  mkCircuit (Some "4") (Some (mkSheet 1 880 680))
    [mkComponent "a" "res" 0 0 "R0" [("name", "R1"); ("Value", "1k")];
     mkComponent "b" "cap" 16 0 "R0" [("name", "C1")];
     mkComponent "c" "res" 0 0 "R0" [("name", "R1"); ("Value", "1k")]]
    [mkWire 100 0 0 0; mkWire 0 0 100 0; mkWire 100 0 0 0] [mkFlag 0 16 "0"].

(** A text with the same flag line twice, and the document it parses to. *)
Definition scenario_flags : string := ("FLAG 0 0 0" ++ nl ++ "FLAG 0 0 0" ++ nl)%string.

Definition document_flags : CircuitData :=
  mkCircuit None None [] [] [mkFlag 0 0 "0"; mkFlag 0 0 "0"].

(** Two resistors of the same value, and the document of that text. *)
Definition scenario_values : string :=
  ("SYMBOL res 0 0 R0" ++ nl ++ "SYMATTR InstName R1" ++ nl ++ "SYMATTR Value 1k" ++ nl
   ++ "SYMBOL res 96 0 R0" ++ nl ++ "SYMATTR InstName R2" ++ nl ++ "SYMATTR Value 1k" ++ nl)%string.

Definition document_values : CircuitData :=
  mkCircuit None None
    [mkComponent "comp_1" "res" 0 0 "R0" [("name", "R1"); ("Value", "1k")];
     mkComponent "comp_2" "res" 96 0 "R0" [("name", "R2"); ("Value", "1k")]]
    [] [].

End RoundTripSpec.

(** ** Vocabulary: Duplicates, ids and lines of the parser *)

Module DocumentSpec.
Import Py ASC ParserSpec.
Local Open Scope string_scope.
Local Open Scope list_scope.

(** [l1] is [l2] with some elements left out. *)
Inductive subsequence {A : Type} : list A -> list A -> Prop :=
| sub_nil : subsequence [] []
| sub_drop a l1 l2 : subsequence l1 l2 -> subsequence l1 (a :: l2)
| sub_keep a l1 l2 : subsequence l1 l2 -> subsequence (a :: l1) (a :: l2).

(** The wire drawn from its other end. *)
Definition reversed (w : Wire) : Wire := mkWire (x2 w) (y2 w) (x1 w) (y1 w).

(** The first component, and the first wire, that has the key [k]. *)
Definition first_component (k : string * Z * Z * string * string) (cs : list Component)
  : option Component :=
  find (fun c => component_key_eqb k (component_key c)) cs.
Definition first_wire (k : Z * Z * Z * Z) (ws : list Wire) : option Wire :=
  find (fun w => wire_key_eqb k (wire_key w)) ws.

(** The id that [_parse_symbol_line] gives to the [k]-th SYMBOL line. *)
Definition comp_id (k : Z) : string := "comp_" ++ str k.

(** The ids are comp_k for increasing numbers k between 1 and [n]. *)
Definition numbered_up_to (n : Z) (cs : list Component) : Prop :=
  0 <= n
  /\ exists ks, map id cs = map comp_id ks /\ StronglySorted Z.lt ks
                /\ Forall (fun k => 0 < k <= n) ks.

(** The text of a list of lines, each followed by [ending]. *)
Definition text_of (ending : string) (ls : list string) : string :=
  String.concat EmptyString (map (fun l => l ++ ending)%string ls).

(** The line ending of Windows. *)
Definition CRLF : string := String CR nl.

(** A line that starts with one of the six keywords of [parse], once
    stripped. *)
Definition recognized (raw : string) : bool :=
  let line := strip raw in
  startswith line "Version" || startswith line "SHEET" || startswith line "SYMBOL"
  || startswith line "SYMATTR" || startswith line "WIRE" || startswith line "FLAG".

(** The next line, if any, is not an attribute line. *)
Definition next_is_no_attribute (rest : list string) : bool :=
  match rest with
  | [] => true
  | r :: _ => negb (is_symattr r)
  end.

End DocumentSpec.

(** ** Vocabulary: A parser object that parses twice *)

Module ASCObjectSpec.
Import Py ASC DocumentSpec.
Local Open Scope string_scope.
Local Open Scope list_scope.

(** [c] with another id. *)
Definition with_id (c : Component) (i : string) : Component :=
  mkComponent i (type c) (x c) (y c) (rotation c) (attributes c).

(** The components with the ids comp_(n+1), comp_(n+2), ... in order. *)
Fixpoint renumber (n : Z) (cs : list Component) : list Component :=
  match cs with
  | [] => []
  | c :: cs' => with_id c (comp_id (n + 1)) :: renumber (n + 1) cs'
  end.

(** What a run of the parsing loop adds to a parser: components, wires and
    flags, and the last version and the last sheet if any. *)
Record Delta := mkDelta {
  new_components : list Component;
  new_wires : list Wire;
  new_flags : list Flag;
  new_version : option string;
  new_sheet : option Sheet
}.

Definition override {A : Type} (old new : option A) : option A :=
  match new with
  | Some _ => new
  | None => old
  end.

Definition add (b : ASCParser) (d : Delta) : ASCParser :=
  mkParser (components b ++ renumber (component_counter b) (new_components d))
           (wires b ++ new_wires d) (flags b ++ new_flags d)
           (override (version b) (new_version d)) (override (sheet b) (new_sheet d))
           (component_counter b + Z.of_nat (List.length (new_components d))).

(** The path that [convert_asc_to_json] saves to, if any: a path that is
    [None] or empty is not saved to. *)
Definition saving (json_file_path : option string) : option string :=
  if ASCObject.given json_file_path then json_file_path else None.

(** Every path can be written; no path can. *)
Definition every_path (output_path : string) : bool := true.
Definition no_path (output_path : string) : bool := false.

(** Two lines, a symbol and a flag, read twice. *)
Definition flagged_symbol : list string := ["SYMBOL res 100 100 R0"; "FLAG 0 16 0"].

End ASCObjectSpec.

(** ** Vocabulary: The reconstruction *)

Module ReconstructionSpec.
Import Py Recognizer PlacerSpec.
Local Open Scope string_scope.
Local Open Scope list_scope.

(** The line of a wire. *)
Definition wire_line (wire : Wire) : Item :=
  WireLine (x_start wire) (y_start wire) (x_end wire) (y_end wire).

(** Some ground detection attaches to some wire. *)
Definition some_ground_attaches (data_gnd : DataFrame) (wires wires_horizontal : list Wire)
  : bool :=
  existsb (fun row => existsb (ground_attaches wires_horizontal row) wires) data_gnd.

(** The symbols of a loop: every detection on every wire it attaches to,
    numbered from 1. *)
Definition symbols (k : Kind) (data : DataFrame)
  (wires wires_horizontal wires_vertical : list Wire) : list Item :=
  numbered k wires_vertical 1
    (flat_map (every_match k wires_horizontal wires_vertical wires) data).

(** The two constants, the symbols of the five loops in the order of the
    loops, and the wires. *)
Definition entries (data_res data_vol data_vol_ac data_cap data_ind : DataFrame)
  (wires wires_horizontal wires_vertical : list Wire) : list Item :=
  [Header "Version 4"; Header "SHEET 1 880 680"]
  ++ symbols resistor data_res wires wires_horizontal wires_vertical
  ++ symbols voltage_dc data_vol wires wires_horizontal wires_vertical
  ++ symbols voltage_dc_ac data_vol_ac wires wires_horizontal wires_vertical
  ++ symbols capacitor data_cap wires wires_horizontal wires_vertical
  ++ symbols inductor data_ind wires wires_horizontal wires_vertical
  ++ map wire_line wires.

(** The orientation of a wire, as a test. *)
Definition is_horizontal (w : Wire) : bool :=
  match orientation w with h => true | _ => false end.
Definition is_vertical (w : Wire) : bool :=
  match orientation w with v => true | _ => false end.

(** The invariant of the loop that builds the wires: the two lists by
    orientation are the wires of that orientation, in order; no wire is
    oblique; the wires are distinct objects. *)
Definition synth_sorted (s : Synth) : Prop :=
  wires_horizontal s = filter is_horizontal (wires s)
  /\ wires_vertical s = filter is_vertical (wires s)
  /\ Forall (fun w => orientation w <> o /\ (oid w < created s)%nat) (wires s)
  /\ NoDup (map oid (wires s)).

(** The pixel that the loop reads for a junction. *)
Definition position (r : Row) : Z * Z :=
  (int_of_float (xcenter r), int_of_float (ycenter r)).

(** The wire goes from the junction [r1] to the junction [r2], two
    junctions of [data] with different labels, and [r1] is not farther
    from the origin than [r2]. *)
Definition joins (data : DataFrame) (w : Wire) (r1 r2 : Row) : Prop :=
  In r1 data /\ In r2 data /\ label r1 <> label r2
  /\ (x_start w, y_start w) = position r1 /\ (x_end w, y_end w) = position r2
  /\ WireSpec.dist2 (x_start w) (y_start w) <= WireSpec.dist2 (x_end w) (y_end w).

(** The same detection but for its centre. *)
Definition same_detection (r r' : Row) : Prop :=
  label r' = label r /\ width r' = width r /\ height r' = height r
  /\ confidence r' = confidence r /\ class r' = class r /\ name r' = name r.

(** The two coordinates of the centre are coordinates of [data]. *)
Definition centre_from (data : DataFrame) (r' : Row) : Prop :=
  (exists r1, In r1 data /\ xcenter r' = xcenter r1)
  /\ (exists r2, In r2 data /\ ycenter r' = ycenter r2).

(** The invariant of the alignment loop. *)
Definition aligned (data d : DataFrame) : Prop :=
  Forall2 same_detection data d /\ Forall (centre_from data) d.

(** The classes that [_process_image_to_asc] selects. *)
Definition selected_class (n : string) : bool :=
  existsb (String.eqb n)
    ["inductor"; "gnd"; "capacitor-unpolarized"; "voltage-dc_ac"; "voltage-dc"; "resistor";
     "junction"].

(** A dc source and an ac source near the vertical wire of Scenario C. *)
Definition dc_110_50 : Row := mkRow 1 110 50 40 40 (9 # 10) 7 "voltage-dc".
Definition ac_115_120 : Row := mkRow 2 115 120 40 40 (9 # 10) 8 "voltage-dc_ac".

(** A detection of a class that is not selected. *)
Definition diode_10_10 : Row := mkRow 9 10 10 20 20 (7 # 10) 3 "diode".

End ReconstructionSpec.

(** ** Vocabulary: The services *)

Module ServiceSpec.
Import Py Recognizer Scratch PlacerSpec TextSpec.
Local Open Scope string_scope.
Local Open Scope list_scope.

(** The world after a write that failed: the scratch file is left, empty. *)
Definition with_scratch_file (w : World) : World :=
  mkWorld ((fresh w, EmptyString) :: files w) (free w).

(** A line of an entry of the text: no line break in it, SY or WI as its
    first two characters, and the tokens that the parser asks of the
    line. *)
Definition entry_line (l : string) : bool :=
  no_newline l && (String.prefix "SY" l || String.prefix "WI" l)
  && negb (ParserSpec.malformed (strip (l ++ nl))).

(** The text of a list of lines, each ended by a line break. *)
Definition lines_text (ls : list string) : string :=
  String.concat EmptyString (map (fun l => l ++ nl)%string ls).

(** An entry of the text: one or more entry lines. *)
Definition block (s : string) : Prop :=
  exists ls, s = lines_text ls /\ forallb entry_line ls = true.

(** The line is neither a Version line nor a SHEET line for [parse]. *)
Definition no_header_line (raw : string) : Prop :=
  startswith (strip raw) "Version" = false /\ startswith (strip raw) "SHEET" = false.

(** The document with another version. *)
Definition with_version (d : ASC.CircuitData) (v : string) : ASC.CircuitData :=
  ASC.mkCircuit (Some v) (ASC.cd_sheet d) (ASC.cd_components d) (ASC.cd_wires d)
                (ASC.cd_flags d).

(** The constant strings of a symbol loop are tokens. *)
Definition kind_plain (k : Kind) : bool :=
  is_token (sym k) && is_token (prefix k) && is_token (rot_vertical k)
  && is_token (rot_horizontal k).

(** A detector that finds the three junctions and the resistor of the
    frame [detections] in every image. *)
Definition detector_of_detections (image : string) : result DataFrame :=
  inr GridSpec.detections.

End ServiceSpec.

(** ** Vocabulary: The routes *)

Module RoutesSpec.
Import Py Routes.
Local Open Scope string_scope.
Local Open Scope list_scope.

(** The fields [version] and [sheet] of the schemas are required:
    pydantic does not build the model from a dictionary in which one of
    them is [None]. *)
Definition requires_version_and_sheet (validates : ASC.CircuitData -> bool) : Prop :=
  forall d, validates d = true -> ASC.cd_version d <> None /\ ASC.cd_sheet d <> None.

(** A validation that asks for nothing more. *)
Definition has_version_and_sheet (d : ASC.CircuitData) : bool :=
  match ASC.cd_version d, ASC.cd_sheet d with
  | Some _, Some _ => true
  | _, _ => false
  end.

(** The status is one that the routes raise. *)
Definition is_error {A : Type} (r : Response A) : Prop :=
  r = HTTPException 400 \/ r = HTTPException 413 \/ r = HTTPException 500.

(** An upload of a text of two wire lines, and of an image. *)
Definition two_wires : UploadFile :=
  mkUploadFile (Some "text/plain") (Some 34)
    (inr ("WIRE 0 0 100 0" ++ nl ++ "WIRE 100 0 100 64" ++ nl)%string).
Definition an_image : UploadFile := mkUploadFile (Some "image/png") None (inr "image").

End RoutesSpec.

(** * Properties *)

(** ** Python primitives on examples *)

Example str_examples :
  Py.str 0 = "0"%string /\ Py.str 96 = "96"%string /\ Py.str (-16) = "-16"%string.
Proof. repeat split; reflexivity. Qed.

Example int_examples :
  Py.int_opt "100" = Some 100 /\ Py.int_opt "-16" = Some (-16) /\
  Py.int_opt "+1_000" = Some 1000 /\ Py.int_opt "1__0" = None /\
  Py.int_opt EmptyString = None /\ Py.int_opt "R0" = None /\ Py.int_opt "007" = Some 7.
Proof. repeat split; reflexivity. Qed.

Example split_examples :
  Py.split "  SYMBOL res  100 100 R0 " = ["SYMBOL"; "res"; "100"; "100"; "R0"]%string /\
  Py.strip "  WIRE 0 0 100 0  " = "WIRE 0 0 100 0"%string /\
  Py.join " " ["a"; "b"; "c"]%string = "a b c"%string.
Proof. repeat split; reflexivity. Qed.

(** Scenario A of the specification. *)
Example parse_scenario_A :
  ASC.parse ("Version 4" ++ Py.nl ++ "SHEET 1 880 680" ++ Py.nl ++
             "SYMBOL res 100 100 R0" ++ Py.nl ++ "SYMATTR InstName R1" ++ Py.nl ++
             "WIRE 0 0 100 0" ++ Py.nl)
  = inr (ASC.mkCircuit (Some "4") (Some (ASC.mkSheet 1 880 680))
           [ASC.mkComponent "comp_1" "res" 100 100 "R0" [("name", "R1")]]
           [ASC.mkWire 0 0 100 0] [])%string.
Proof. reflexivity. Qed.



(** ** Wires *)

Module WireProps.
Import Py Recognizer WireSpec.
Local Open Scope Q_scope.

Lemma Qltb_lt (x y : Q) : Qltb x y = true <-> x < y.
Proof.
  unfold Qltb. rewrite negb_true_iff, <- not_true_iff_false, Qle_bool_iff.
  split; [apply Qnot_le_lt | apply Qlt_not_le].
Qed.

Lemma Qleb_le (x y : Q) : Qleb x y = true <-> x <= y.
Proof. apply Qle_bool_iff. Qed.

Lemma Qltb_ge (x y : Q) : Qltb x y = false <-> y <= x.
Proof.
  rewrite <- not_true_iff_false, Qltb_lt.
  split; [apply Qnot_lt_le | apply Qle_not_lt].
Qed.

Lemma Qleb_gt (x y : Q) : Qleb x y = false <-> y < x.
Proof.
  rewrite <- not_true_iff_false, Qleb_le.
  split; [apply Qnot_le_lt | apply Qlt_not_le].
Qed.

(** Case analysis on every comparison of [orientation_of_angle]. *)
Ltac compare_all :=
  repeat match goal with
         | |- context [Qltb ?x ?y] =>
             let E := fresh "E" in
             destruct (Qltb x y) eqn:E;
             [apply Qltb_lt in E | apply Qltb_ge in E]
         | |- context [Qleb ?x ?y] =>
             let E := fresh "E" in
             destruct (Qleb x y) eqn:E;
             [apply Qleb_le in E | apply Qleb_gt in E]
         end.

Lemma orientation_of_angle_spec (a : Q) :
  (orientation_of_angle a = h <-> horizontal_range a)
  /\ (orientation_of_angle a = v <-> vertical_range a)
  /\ (orientation_of_angle a = o <-> ~ horizontal_range a /\ ~ vertical_range a).
Proof.
  unfold orientation_of_angle, horizontal_range, vertical_range, limit.
  compare_all; simpl; repeat split; intros; try discriminate; try reflexivity;
    try lra;
    repeat match goal with
           | H : _ /\ _ |- _ => destruct H
           | H : _ \/ _ |- _ => destruct H
           end; try lra.
Qed.

(** The comparisons of [test_if_wire_is_valid]: with [a] the angle of the
    start seen from the end, in degrees, the wire is horizontal iff
    [a <= 10], [350 < a] or [170 <= a < 190], vertical iff [a] is
    strictly within 10 degrees of 90 or 270, and rejected otherwise. *)
Lemma orientation_classification :
  forall (atan2_degrees : Z -> Z -> Q) (x_start y_start x_end y_end : Z),
    let a := fmod (atan2_degrees (y_start - y_end)%Z (x_start - x_end)%Z) 360 in
    let r := test_if_wire_is_valid atan2_degrees x_start y_start x_end y_end in
    (r = h <-> horizontal_range a)
    /\ (r = v <-> vertical_range a)
    /\ (r = o <-> ~ horizontal_range a /\ ~ vertical_range a).
Proof.
  intros atan2_degrees xs ys xe ye a r.
  apply orientation_of_angle_spec.
Qed.

Example angle_10_is_horizontal : orientation_of_angle 10 = h.
Proof. reflexivity. Qed.

Example angle_9_9_is_horizontal : orientation_of_angle (99 # 10) = h.
Proof. reflexivity. Qed.

Example angle_350_is_other : orientation_of_angle 350 = o.
Proof. reflexivity. Qed.

Example angle_170_is_horizontal : orientation_of_angle 170 = h.
Proof. reflexivity. Qed.

Example angle_190_is_other : orientation_of_angle 190 = o.
Proof. reflexivity. Qed.


Local Open Scope Z_scope.

(** C4, as the code has it: the start point of a wire is an end whose
    distance to the origin is at most that of the other end; it is the
    first end given when that end is strictly nearer, and the second end
    given otherwise, so also when the two distances are equal. *)
Theorem start_point_is_nearer :
  forall (atan2_degrees : Z -> Z -> Q) (oid : nat) (x1 y1 x2 y2 : Z),
    let w := Wire__init__ atan2_degrees oid x1 y1 x2 y2 in
    dist2 (x_start w) (y_start w) <= dist2 (x_end w) (y_end w)
    /\ (dist2 x1 y1 < dist2 x2 y2 ->
        (x_start w, y_start w, x_end w, y_end w) = (x1, y1, x2, y2))
    /\ (dist2 x2 y2 <= dist2 x1 y1 ->
        (x_start w, y_start w, x_end w, y_end w) = (x2, y2, x1, y1)).
Proof.
  intros atan2_degrees oid x1 y1 x2 y2 w. subst w.
  unfold Wire__init__, select_starting_point, dist2.
  destruct (x1 ^ 2 + y1 ^ 2 <? x2 ^ 2 + y2 ^ 2) eqn:E; simpl.
  - apply Z.ltb_lt in E. split; [lia | split].
    + reflexivity.
    + intro H. lia.
  - apply Z.ltb_ge in E. split; [lia | split].
    + intro H. lia.
    + reflexivity.
Qed.

(** C4 as stated fails: the ends (3, 4) and (4, 3) are at the same
    distance from the origin and the wire starts at the second one. *)
Lemma tie_keeps_input_order_fails :
  ~ (forall (atan2_degrees : Z -> Z -> Q) (oid : nat) (x1 y1 x2 y2 : Z),
        dist2 x1 y1 = dist2 x2 y2 ->
        let w := Wire__init__ atan2_degrees oid x1 y1 x2 y2 in
        (x_start w, y_start w) = (x1, y1)).
Proof.
  intro H.
  specialize (H (fun _ _ => 0%Q) 0%nat 3 4 4 3 eq_refl).
  discriminate H.
Qed.

(** The start of a wire with non-negative coordinates is never to the
    right of its end without being below it: such a wire is not seen at an
    angle between 0 and 90 degrees, and a pair that makes 10 degrees with
    the horizontal is seen at 170, 190 or 350 degrees. *)
Lemma start_is_not_beyond_end :
  forall (atan2_degrees : Z -> Z -> Q) (oid : nat) (x1 y1 x2 y2 : Z),
    0 <= x1 -> 0 <= y1 -> 0 <= x2 -> 0 <= y2 ->
    let w := Wire__init__ atan2_degrees oid x1 y1 x2 y2 in
    ~ (0 < x_start w - x_end w /\ 0 <= y_start w - y_end w).
Proof.
  intros atan2_degrees oid x1 y1 x2 y2 H1 H2 H3 H4 w. subst w.
  unfold Wire__init__, select_starting_point.
  destruct (x1 ^ 2 + y1 ^ 2 <? x2 ^ 2 + y2 ^ 2) eqn:E; simpl.
  - apply Z.ltb_lt in E. intros [A B]. nia.
  - apply Z.ltb_ge in E. intros [A B]. nia.
Qed.

End WireProps.

(** ** The symbol placer *)

Module PlacerProps.
Import Py Recognizer PlacerSpec.
Local Open Scope string_scope.
Local Open Scope list_scope.

Lemma numbered_app k wv c l1 l2 :
  numbered k wv c (l1 ++ l2)
  = numbered k wv c l1 ++ numbered k wv (c + Z.of_nat (List.length l1)) l2.
Proof.
  revert c. induction l1 as [|[row wire] l1 IH]; intro c; simpl.
  - now rewrite Z.add_0_r.
  - rewrite IH. do 3 f_equal. lia.
Qed.

Lemma place_on_wire_step k wh wv row asc_lines counter wire :
  place_on_wire k wh wv row (asc_lines, counter) wire
  = if attaches k wh wv row wire
    then (asc_lines ++ [placed k wv counter row wire], counter + 1)
    else (asc_lines, counter).
Proof.
  unfold place_on_wire, attaches, placed; simpl.
  destruct (is_in wire wv); [reflexivity|].
  destruct (is_in wire wh); reflexivity.
Qed.

Lemma place_on_wire_fold k wh wv row wires :
  forall asc_lines counter,
    fold_left (place_on_wire k wh wv row) wires (asc_lines, counter)
    = (asc_lines ++ numbered k wv counter (every_match k wh wv wires row),
       counter + Z.of_nat (List.length (every_match k wh wv wires row))).
Proof.
  unfold every_match.
  induction wires as [|wire wires IH]; intros asc_lines counter.
  - simpl. now rewrite app_nil_r, Z.add_0_r.
  - cbn [fold_left filter]. rewrite place_on_wire_step.
    destruct (attaches k wh wv row wire); rewrite IH.
    + cbn [map numbered List.length]. rewrite <- app_assoc. cbn [app].
      f_equal. lia.
    + reflexivity.
Qed.

Lemma place_rows_fold k wh wv wires data :
  forall asc_lines counter,
    fold_left
      (fun st row => fold_left (place_on_wire k wh wv row) wires st)
      data (asc_lines, counter)
    = (asc_lines ++ numbered k wv counter (flat_map (every_match k wh wv wires) data),
       counter + Z.of_nat (List.length (flat_map (every_match k wh wv wires) data))).
Proof.
  induction data as [|row data IH]; intros asc_lines counter; simpl.
  - now rewrite app_nil_r, Z.add_0_r.
  - rewrite place_on_wire_fold, IH, numbered_app, length_app, <- app_assoc.
    f_equal. lia.
Qed.

Lemma place_symbols_numbered k data ws wh wv asc_lines :
  place_symbols k data ws wh wv asc_lines
  = asc_lines ++ numbered k wv 1 (flat_map (every_match k wh wv ws) data).
Proof. unfold place_symbols. now rewrite place_rows_fold. Qed.

(** C2, as the code has it: a detection of a placeable type is attached
    to every wire, in discovery order, whose orientation-specific
    containment test passes; each such wire yields one placed symbol, and
    the symbols of a type are numbered from 1 in the order in which they
    are placed. *)
Theorem every_matching_wire_places_a_symbol :
  forall (k : Kind) (data : DataFrame)
         (wires wires_horizontal wires_vertical : list Wire) (asc_lines : list Item),
    place_symbols k data wires wires_horizontal wires_vertical asc_lines
    = asc_lines
      ++ numbered k wires_vertical 1
           (flat_map (every_match k wires_horizontal wires_vertical wires) data).
Proof.
  intros k data ws wh wv asc_lines. apply place_symbols_numbered.
Qed.

(** C2 as stated fails: the resistor detected at (108, 50) passes the
    test of two vertical wires and is placed twice, the second time on
    the later wire. *)
Lemma first_wire_policy_fails :
  ~ (forall (k : Kind) (data : DataFrame)
            (wires wires_horizontal wires_vertical : list Wire),
        place_symbols k data wires wires_horizontal wires_vertical []
        = numbered k wires_vertical 1
            (flat_map (first_match k wires_horizontal wires_vertical wires) data)).
Proof.
  intro H.
  specialize (H resistor [resistor_108_50] [wire_112; wire_96] [] [wire_112; wire_96]).
  vm_compute in H. discriminate H.
Qed.

Example scenario_C_twice :
  place_symbols resistor [resistor_108_50] [wire_112; wire_96] [] [wire_112; wire_96] []
  = [Symbol "res" 96 50 "R0" "R" 1; Symbol "res" 80 50 "R0" "R" 2].
Proof. reflexivity. Qed.

(** *** The ground loop *)

Lemma find_loc_set_y data index index' q :
  find (fun r => (label r =? index)%nat) (loc_set_y data index' q)
  = option_map (fun r => if (label r =? index')%nat then set_ycenter r q else r)
      (find (fun r => (label r =? index)%nat) data).
Proof.
  unfold loc_set_y. induction data as [|r data IH]; simpl; [reflexivity|].
  destruct (label r =? index')%nat eqn:E1; unfold set_ycenter; simpl;
    destruct (label r =? index)%nat eqn:E2; simpl; rewrite ?E1; auto.
Qed.

Lemma has_label_find data index :
  has_label data index = true ->
  exists r, find (fun r => (label r =? index)%nat) data = Some r.
Proof.
  unfold has_label. induction data as [|r data IH]; simpl; [discriminate|].
  destruct (label r =? index)%nat; simpl; eauto.
Qed.

Lemma loc_y_center data index :
  has_label data index = true ->
  loc data index "y_center" = raise (KeyError "y_center").
Proof.
  intro H. destruct (has_label_find _ _ H) as [r E].
  unfold loc. now rewrite E.
Qed.

Lemma loc_ycenter data index :
  has_label data index = true ->
  exists q, loc data index "ycenter" = ret (Float q).
Proof.
  intro H. destruct (has_label_find _ _ H) as [r E].
  unfold loc. rewrite E. now exists (ycenter r).
Qed.

Lemma has_label_loc_set_y data index index' q :
  has_label (loc_set_y data index' q) index = has_label data index.
Proof.
  unfold has_label, loc_set_y. induction data as [|r data IH]; simpl; [reflexivity|].
  rewrite IH. now destruct (label r =? index')%nat; unfold set_ycenter.
Qed.

Lemma ground_on_wire_result wh row data asc_lines wire :
  has_label data (label row) = true ->
  ground_on_wire wh row (data, asc_lines) wire
  = if ground_attaches wh row wire then raise (KeyError "y_center")
    else ret (data, asc_lines).
Proof.
  intro H. unfold ground_on_wire, ground_attaches. simpl fst; simpl snd.
  destruct (is_in wire wh); [|reflexivity].
  destruct (near_horizontal 200 wire row); [|reflexivity].
  simpl andb. cbv iota.
  set (data' := loc_set_y data (label row) _).
  assert (H' : has_label data' (label row) = true)
    by (unfold data'; now rewrite has_label_loc_set_y).
  destruct (loc_ycenter _ _ H') as [q Eq]. rewrite Eq.
  cbn [bind ret to_float]. now rewrite (loc_y_center _ _ H').
Qed.

Lemma ground_wires_result wh row wires data asc_lines :
  has_label data (label row) = true ->
  ground_wires wh row wires (data, asc_lines)
  = if existsb (ground_attaches wh row) wires then raise (KeyError "y_center")
    else ret (data, asc_lines).
Proof.
  intro H. induction wires as [|wire wires IH]; [reflexivity|].
  cbn [ground_wires existsb]. rewrite ground_on_wire_result by assumption.
  destruct (ground_attaches wh row wire); [reflexivity|].
  cbn [bind ret orb]. exact IH.
Qed.

Lemma place_grounds_result rows wires wh data asc_lines :
  (forall row, In row rows -> has_label data (label row) = true) ->
  place_grounds rows wires wh (data, asc_lines)
  = if existsb (fun row => existsb (ground_attaches wh row) wires) rows
    then raise (KeyError "y_center")
    else ret (data, asc_lines).
Proof.
  induction rows as [|row rows IH]; intro H; [reflexivity|].
  cbn [place_grounds existsb].
  rewrite ground_wires_result by (apply H; now left).
  destruct (existsb (ground_attaches wh row) wires); [reflexivity|].
  cbn [bind ret orb]. apply IH. intros r Hr. apply H. now right.
Qed.

Lemma In_has_label data row : In row data -> has_label data (label row) = true.
Proof.
  intro H. unfold has_label. apply existsb_exists.
  exists row. split; [assumption | apply Nat.eqb_refl].
Qed.

(** Whatever the other detections are, a ground detection that attaches
    to a wire makes [_generate_asc_content] raise [KeyError]: no flag and
    no connector wire is returned. *)
Lemma attached_ground_raises :
  forall (data_res data_vol data_vol_ac data_cap data_gnd data_ind : DataFrame)
         (wires wires_horizontal wires_vertical : list Wire) (row : Row) (wire : Wire),
    In row data_gnd -> In wire wires ->
    ground_attaches wires_horizontal row wire = true ->
    _generate_asc_content data_res data_vol data_vol_ac data_cap data_gnd data_ind
      wires wires_horizontal wires_vertical
    = raise (KeyError "y_center").
Proof.
  intros d1 d2 d3 d4 data_gnd d6 ws wh wv row wire Hrow Hwire Hatt.
  unfold _generate_asc_content, asc_items.
  rewrite place_grounds_result by (intros; now apply In_has_label).
  assert (E : existsb (fun row => existsb (ground_attaches wh row) ws) data_gnd = true).
  { apply existsb_exists. exists row. split; [assumption|].
    apply existsb_exists. now exists wire. }
  now rewrite E.
Qed.

(** C7 on an input: a ground detected at (50, 10), under the horizontal
    wire from (0, 0) to (100, 0), attaches to it; the connector line reads
    the column "y_center", which the frame does not have, and the call
    raises [KeyError] instead of returning a flag and a wire. *)
Theorem ground_connector_raises :
  ground_attaches [wire_0_100] ground_50_10 wire_0_100 = true
  /\ _generate_asc_content [] [] [] [] [ground_50_10] [] [wire_0_100] [wire_0_100] []
     = raise (KeyError "y_center").
Proof. split; reflexivity. Qed.

(** *** The header *)

Lemma no_duplicates_fold l :
  forall acc,
    exists tl,
      fold_left
        (fun acc object =>
           if existsb (String.eqb object) acc then acc else acc ++ [object]) l acc
      = acc ++ tl.
Proof.
  induction l as [|a l IH]; intro acc; simpl.
  - exists []. now rewrite app_nil_r.
  - destruct (existsb (String.eqb a) acc).
    + apply IH.
    + destruct (IH (acc ++ [a])) as [tl E]. exists (a :: tl).
      now rewrite E, <- app_assoc.
Qed.

Lemma place_grounds_keeps_lines rows wires wh :
  forall st st',
    place_grounds rows wires wh st = inr st' -> exists tl, snd st' = snd st ++ tl.
Proof.
  assert (W : forall row wire st st',
             ground_on_wire wh row st wire = inr st' -> exists tl, snd st' = snd st ++ tl).
  { intros row wire st st'. unfold ground_on_wire.
    destruct (is_in wire wh).
    2:{ intro E. injection E as <-. exists []. now rewrite app_nil_r. }
    destruct (near_horizontal 200 wire row).
    2:{ intro E. injection E as <-. exists []. now rewrite app_nil_r. }
    repeat match goal with
           | |- bind ?m _ = _ -> _ => destruct m; cbn [bind]; [discriminate|]
           end.
    intro E. injection E as <-. cbn [snd]. rewrite <- app_assoc. eauto. }
  assert (G : forall row ws st st',
             ground_wires wh row ws st = inr st' -> exists tl, snd st' = snd st ++ tl).
  { intros row ws. induction ws as [|wire ws IH]; intros st st'; cbn [ground_wires].
    - intro E. injection E as <-. exists []. now rewrite app_nil_r.
    - destruct (ground_on_wire wh row st wire) as [e|st1] eqn:E1; cbn [bind];
        [discriminate|].
      intro E. destruct (W _ _ _ _ E1) as [t1 H1]. destruct (IH _ _ E) as [t2 H2].
      exists (t1 ++ t2). now rewrite H2, H1, app_assoc. }
  induction rows as [|row rows IH]; intros st st'; cbn [place_grounds].
  - intro E. injection E as <-. exists []. now rewrite app_nil_r.
  - destruct (ground_wires wh row wires st) as [e|st1] eqn:E1; cbn [bind];
      [discriminate|].
    intro E. destruct (G _ _ _ _ E1) as [t1 H1]. destruct (IH _ _ E) as [t2 H2].
    exists (t1 ++ t2). now rewrite H2, H1, app_assoc.
Qed.

(** Whenever [_generate_asc_content] returns, its text starts with the
    two constants, with no line break between or after them. *)
Lemma output_starts_with_header_text :
  forall (data_res data_vol data_vol_ac data_cap data_gnd data_ind : DataFrame)
         (wires wires_horizontal wires_vertical : list Wire) (text : string),
    _generate_asc_content data_res data_vol data_vol_ac data_cap data_gnd data_ind
      wires wires_horizontal wires_vertical = inr text ->
    exists rest, text = (header_text ++ rest)%string.
Proof.
  intros until text. unfold _generate_asc_content, asc_items.
  rewrite !place_symbols_numbered.
  destruct (place_grounds _ _ _ _) as [e|st5] eqn:E5; cbn [bind]; [discriminate|].
  destruct (place_grounds_keeps_lines _ _ _ _ _ E5) as [t5 H5]. cbn [snd] in H5.
  rewrite H5, place_symbols_numbered.
  cbn [ret]. intro E. injection E as <-.
  rewrite <- !app_assoc. cbn [app map render].
  unfold no_duplicates. cbn [fold_left existsb app]. cbn [String.eqb Ascii.eqb Bool.eqb].
  cbv iota. cbn [app].
  match goal with
  | |- context [fold_left ?g ?l ?acc] => destruct (no_duplicates_fold l acc) as [tl E]
  end.
  rewrite E. cbn [app String.concat].
  destruct tl as [|t tl].
  - now exists EmptyString.
  - exists (String.concat EmptyString (t :: tl)). reflexivity.
Qed.

(** C9 on an input: with no detection at all the text is the two
    constants run together, without a line break; read back by the parser
    of the repository, as the JSON output of [process_image] does, it is
    one line that gives the version "4SHEET" and no sheet. *)
Theorem header_is_one_line :
  _generate_asc_content [] [] [] [] [] [] [] [] [] = inr "Version 4SHEET 1 880 680"
  /\ ASC.readlines "Version 4SHEET 1 880 680" = ["Version 4SHEET 1 880 680"]
  /\ ASC.parse "Version 4SHEET 1 880 680"
     = inr (ASC.mkCircuit (Some "4SHEET") None [] [] []).
Proof. repeat split; reflexivity. Qed.

End PlacerProps.

(** ** The grid *)

Module GridProps.
Import Py Recognizer PlacerSpec PlacerProps GridSpec.
Local Open Scope string_scope.
Local Open Scope list_scope.

Lemma fold_left_invariant {A B : Type} (P : A -> Prop) (f : A -> B -> A) (l : list B) :
  forall a, P a -> (forall a b, P a -> In b l -> P (f a b)) -> P (fold_left f l a).
Proof.
  induction l as [|b l IH]; intros a Ha Hf; simpl; [assumption|].
  apply IH.
  - apply Hf; [assumption | now left].
  - intros a' b' Ha' Hb'. apply Hf; [assumption | now right].
Qed.

(** [snap c] is the largest multiple of 16 that is at most [c]. *)
Lemma snap_floor (c : Q) :
  (snap c == inject_Z (16 * Qfloor (c / 16)))%Q
  /\ (snap c <= c)%Q /\ (c < snap c + 16)%Q.
Proof.
  assert (E : (snap c == inject_Z (16 * Qfloor (c / 16)))%Q).
  { unfold snap, fmod. rewrite inject_Z_mult. change (inject_Z 16) with 16%Q.
    set (F := inject_Z (Qfloor (c / 16))).
    destruct (Qeq_bool (c - 16 * F) 0) eqn:E0.
    - apply Qeq_bool_iff in E0. lra.
    - lra. }
  split; [exact E|].
  rewrite E, inject_Z_mult.
  pose proof (Qfloor_le (c / 16)) as Hl.
  pose proof (Qlt_floor (c / 16)) as Hu.
  rewrite inject_Z_plus in Hu.
  assert (Ec : (c == 16 * (c / 16))%Q) by (field).
  change (inject_Z 16) with 16%Q. change (inject_Z 1) with 1%Q in Hu.
  split; lra.
Qed.

Lemma int_of_float_inject (q : Q) (z : Z) :
  (q == inject_Z z)%Q -> int_of_float q = z.
Proof.
  unfold Qeq, int_of_float. simpl. rewrite Z.mul_1_r. intros ->.
  apply Z.quot_mul. discriminate.
Qed.

Lemma on_grid_mul (k : Z) : on_grid (16 * k).
Proof. unfold on_grid. now rewrite Z.mul_comm, Z.mod_mul. Qed.

Lemma on_grid_sub (a b : Z) : on_grid a -> on_grid b -> on_grid (a - b).
Proof.
  unfold on_grid. intros Ha Hb.
  rewrite Zminus_mod, Ha, Hb. reflexivity.
Qed.

Lemma snap_on_grid (c : Q) :
  on_grid (int_of_float (snap c))
  /\ (snap c == inject_Z (int_of_float (snap c)))%Q.
Proof.
  destruct (snap_floor c) as [E _].
  rewrite (int_of_float_inject _ _ E). split; [apply on_grid_mul | exact E].
Qed.

(** After the two snapping loops every junction is on the grid, whatever
    the alignment did. *)
Lemma grid_junctions_on_grid (data : DataFrame) :
  Forall junction_on_grid (grid_junctions data).
Proof.
  unfold grid_junctions, snap_ycenter, snap_xcenter.
  rewrite map_map. apply Forall_forall. intros r Hr.
  apply in_map_iff in Hr. destruct Hr as [r0 [<- _]].
  unfold junction_on_grid, set_ycenter, set_xcenter; simpl.
  destruct (snap_on_grid (xcenter r0)) as [? ?].
  destruct (snap_on_grid (ycenter r0)) as [? ?].
  auto.
Qed.

(** The two snapping loops move every aligned junction down to the
    grid. *)
Lemma grid_junctions_snapped (data : DataFrame) :
  Forall2 junction_snapped (align_junctions data) (grid_junctions data).
Proof.
  unfold grid_junctions, snap_ycenter, snap_xcenter. rewrite map_map.
  induction (align_junctions data) as [|r l IH]; constructor; [|exact IH].
  unfold junction_snapped, snapped_down, set_ycenter, set_xcenter; simpl.
  destruct (snap_floor (xcenter r)) as (? & ? & ?).
  destruct (snap_floor (ycenter r)) as (? & ? & ?).
  repeat split; eauto.
Qed.

Section Pipeline.

Variable atan2_degrees : Z -> Z -> Q.

Lemma Wire__init___on_grid oid x1 y1 x2 y2 :
  on_grid x1 -> on_grid y1 -> on_grid x2 -> on_grid y2 ->
  wire_on_grid (Wire__init__ atan2_degrees oid x1 y1 x2 y2).
Proof.
  intros. unfold Wire__init__, wire_on_grid.
  destruct (select_starting_point x1 y1 x2 y2 =? 1)%Z; simpl; auto.
Qed.

Lemma synth_pair_on_grid row row2 s :
  junction_on_grid row -> junction_on_grid row2 ->
  synth_on_grid s -> synth_on_grid (synth_pair atan2_degrees row row2 s).
Proof.
  intros (Hx & Hy & _) (Hx2 & Hy2 & _) Hs. unfold synth_pair.
  destruct (_ || _); [assumption|].
  destruct (label row =? label row2)%nat; [exact Hs|].
  pose proof (Wire__init___on_grid (created s) _ _ _ _ Hx Hy Hx2 Hy2) as Hw.
  destruct (orientation _); unfold synth_on_grid; simpl;
    try (apply Forall_app; split; [exact Hs | now constructor]).
  exact Hs.
Qed.

Lemma synth_wires_on_grid data :
  Forall junction_on_grid data -> synth_on_grid (synth_wires atan2_degrees data).
Proof.
  intro H. rewrite Forall_forall in H. unfold synth_wires.
  apply fold_left_invariant; [constructor|].
  intros s row Hs Hrow.
  apply fold_left_invariant; [assumption|].
  intros s' row2 Hs' Hrow2. apply synth_pair_on_grid; auto.
Qed.

Lemma _process_junctions_on_grid data :
  Forall wire_on_grid (fst (fst (_process_junctions atan2_degrees data))).
Proof.
  unfold _process_junctions; simpl.
  apply synth_wires_on_grid, grid_junctions_on_grid.
Qed.

End Pipeline.

Lemma every_match_wires k wh wv ws data :
  Forall (fun p : Row * Wire => In (snd p) ws) (flat_map (every_match k wh wv ws) data).
Proof.
  apply Forall_forall. intros [row wire] H.
  apply in_flat_map in H. destruct H as [row' [_ H]].
  unfold every_match in H. apply in_map_iff in H. destruct H as [w [E H]].
  injection E as _ <-. apply filter_In in H. exact (proj1 H).
Qed.

Lemma numbered_on_grid k wv ws l :
  kind_on_grid k -> Forall wire_on_grid ws ->
  Forall (fun p : Row * Wire => In (snd p) ws) l ->
  forall c, Forall item_on_grid (numbered k wv c l).
Proof.
  intros (Hoff & Hv & Hh) Hws Hl. rewrite Forall_forall in Hws.
  induction Hl as [|[row wire] l Hin Hl IH]; intro c; simpl; constructor; auto.
  destruct (Hws _ Hin) as (Hx & Hy & _).
  unfold placed. destruct (is_in wire wv); simpl.
  - rewrite Hv. simpl. now apply on_grid_sub.
  - rewrite Hh. now apply on_grid_sub.
Qed.

Lemma kinds_on_grid :
  kind_on_grid resistor /\ kind_on_grid voltage_dc /\ kind_on_grid voltage_dc_ac
  /\ kind_on_grid capacitor /\ kind_on_grid inductor.
Proof. repeat split. Qed.

Lemma asc_items_on_grid d1 d2 d3 d4 d5 d6 ws wh wv items :
  Forall wire_on_grid ws ->
  asc_items d1 d2 d3 d4 d5 d6 ws wh wv = inr items ->
  Forall item_on_grid items.
Proof.
  intros Hws. unfold asc_items.
  rewrite !place_symbols_numbered.
  rewrite place_grounds_result by (intros; now apply In_has_label).
  destruct (existsb _ d5); cbn [bind raise ret]; [discriminate|].
  cbn [snd]. rewrite place_symbols_numbered.
  intro E. injection E as <-.
  destruct kinds_on_grid as (K1 & K2 & K3 & K4 & K5).
  cbn [app]. do 2 (constructor; [exact I|]).
  repeat (apply Forall_app; split);
    try (eapply numbered_on_grid; eauto using every_match_wires).
  apply Forall_forall. intros it Hit. apply in_map_iff in Hit.
  destruct Hit as [w [<- Hw]]. rewrite Forall_forall in Hws.
  exact (Hws _ Hw).
Qed.

(** The text that [_process_image_to_asc] returns is made of the entries
    of [process_frame_items], formatted, less the repeated ones. *)
Lemma process_image_to_asc_items (atan2_degrees : Z -> Z -> Q) (df : DataFrame) :
  _process_image_to_asc atan2_degrees df
  = bind (process_frame_items atan2_degrees df)
      (fun items => ret (String.concat EmptyString (no_duplicates (map render items)))).
Proof.
  unfold _process_image_to_asc, process_frame_items, _generate_asc_content.
  now destruct (_process_junctions atan2_degrees (select df "junction")) as [[ws wh] wv].
Qed.

(** C5, as the code has it: after alignment every junction coordinate is
    snapped down to a multiple of 16, so every coordinate of a wire in the
    output is a multiple of 16; of a placed component, the coordinate
    across the wire it attaches to is a multiple of 16 (the coordinate
    of that wire, less 16 or 0). *)
Theorem grid_snapping :
  forall (atan2_degrees : Z -> Z -> Q) (df : DataFrame) (items : list Item),
    process_frame_items atan2_degrees df = inr items ->
    Forall2 junction_snapped (align_junctions (select df "junction"))
                             (grid_junctions (select df "junction"))
    /\ Forall item_on_grid items.
Proof.
  intros atan2_degrees df items H. split; [apply grid_junctions_snapped|].
  unfold process_frame_items in H.
  pose proof (_process_junctions_on_grid atan2_degrees (select df "junction")) as Hw.
  destruct (_process_junctions atan2_degrees (select df "junction")) as [[ws wh] wv].
  eapply asc_items_on_grid; eauto.
Qed.

Lemma grid_snapping_witness :
  process_frame_items atan2_degrees_on_axes detections
  = inr [Header "Version 4"; Header "SHEET 1 880 680"; Symbol "res" 96 50 "R0" "R" 1;
         WireLine 112 0 112 192; WireLine 112 192 288 192]
  /\ Forall2 junction_snapped (align_junctions (select detections "junction"))
                              (grid_junctions (select detections "junction"))
  /\ Forall item_on_grid
       [Header "Version 4"; Header "SHEET 1 880 680"; Symbol "res" 96 50 "R0" "R" 1;
        WireLine 112 0 112 192; WireLine 112 192 288 192].
Proof.
  split; [vm_compute; reflexivity|].
  apply (grid_snapping atan2_degrees_on_axes detections). vm_compute; reflexivity.
Defined.

(** C5 as stated fails: the resistor detected at (108, 50) is placed at
    (96, 50), and 50 is not a multiple of 16. *)
Lemma every_coordinate_on_grid_fails :
  ~ (forall (atan2_degrees : Z -> Z -> Q) (df : DataFrame) (items : list Item),
        process_frame_items atan2_degrees df = inr items ->
        Forall item_all_on_grid items).
Proof.
  intro H.
  assert (E : process_frame_items atan2_degrees_on_axes detections
              = inr [Header "Version 4"; Header "SHEET 1 880 680";
                     Symbol "res" 96 50 "R0" "R" 1;
                     WireLine 112 0 112 192; WireLine 112 192 288 192])
    by (vm_compute; reflexivity).
  specialize (H _ _ _ E).
  inversion H as [|? ? _ H1]; subst. inversion H1 as [|? ? _ H2]; subst.
  inversion H2 as [|? ? H3 _]; subst. destruct H3 as [_ H3]. discriminate H3.
Qed.

End GridProps.

(** ** The parser *)

Module ParserProps.
Import Py ASC ParserSpec.
Local Open Scope string_scope.
Local Open Scope list_scope.
Local Open Scope py_scope.

Lemma parse_loop_cons self raw rest :
  parse_loop self (raw :: rest)
  = let line := strip raw in
    if startswith line "Version" then
      v <- index (split line) 1 ;; parse_loop (set_version self v) rest
    else if startswith line "SHEET" then
      s <- parse_sheet_line line ;; parse_loop (set_sheet self s) rest
    else if startswith line "SYMBOL" then
      cs <- _parse_symbol_line self line ;; attrs_loop (snd cs) (fst cs) rest
    else if startswith line "WIRE" then
      w <- _parse_wire_line line ;; parse_loop (append_wire self w) rest
    else if startswith line "FLAG" then
      f <- _parse_flag_line line ;; parse_loop (append_flag self f) rest
    else parse_loop self rest.
Proof. reflexivity. Qed.

Lemma attrs_loop_cons self1 component raw l :
  attrs_loop self1 component (raw :: l)
  = if startswith (strip raw) "SYMATTR" then
      component' <- _add_symattr_to_component component (strip raw) ;;
      attrs_loop self1 component' l
    else parse_loop (append_component self1 component) (raw :: l).
Proof. reflexivity. Qed.

Lemma prefix_decompose p : forall s, String.prefix p s = true -> exists t, s = (p ++ t)%string.
Proof.
  induction p as [|a p IH]; intros s H.
  - now exists s.
  - destruct s as [|b s]; simpl in H; [discriminate|].
    destruct (ascii_dec a b) as [<-|]; [|discriminate].
    destruct (IH _ H) as [t ->]. now exists t.
Qed.

Lemma symattr_exclusive line :
  startswith line "SYMATTR" = true ->
  startswith line "Version" = false /\ startswith line "SHEET" = false
  /\ startswith line "SYMBOL" = false /\ startswith line "WIRE" = false
  /\ startswith line "FLAG" = false.
Proof.
  intro H. destruct (prefix_decompose _ _ H) as [t ->]. repeat split.
Qed.

(** *** Attribute lines outside a symbol block *)

Lemma block_step_other b raw : is_symattr raw = false -> block_step b raw = block_step false raw.
Proof. unfold block_step. intros ->. destruct (is_symbol raw); reflexivity. Qed.

Lemma block_step_symattr b raw : is_symattr raw = true -> block_step b raw = b.
Proof.
  unfold block_step, is_symbol, is_symattr. intro H.
  destruct (symattr_exclusive _ H) as (_ & _ & -> & _). now rewrite H.
Qed.

Lemma block_step_symbol b raw : is_symbol raw = true -> block_step b raw = true.
Proof. unfold block_step. now intros ->. Qed.

Lemma block_step_plain b raw :
  is_symbol raw = false -> is_symattr raw = false -> block_step b raw = false.
Proof. unfold block_step. now intros -> ->. Qed.

Lemma symbol_exclusive line :
  startswith line "SYMBOL" = true ->
  startswith line "Version" = false /\ startswith line "SHEET" = false.
Proof.
  intro H. destruct (prefix_decompose _ _ H) as [t ->]. split; reflexivity.
Qed.

Lemma orphan_skipped l post :
  is_symattr l = true ->
  forall pre,
    (forall self, fold_left block_step pre false = false ->
                  parse_loop self (pre ++ l :: post) = parse_loop self (pre ++ post))
    /\ (forall self1 component, fold_left block_step pre true = false ->
          attrs_loop self1 component (pre ++ l :: post)
          = attrs_loop self1 component (pre ++ post)).
Proof.
  intro Hl. induction pre as [|raw pre [IHo IHi]].
  - split; [|discriminate]. intros self _. cbn [app]. rewrite parse_loop_cons. cbv zeta.
    unfold is_symattr in Hl. destruct (symattr_exclusive _ Hl) as (-> & -> & -> & -> & ->).
    reflexivity.
  - assert (Ho : forall self, fold_left block_step (raw :: pre) false = false ->
               parse_loop self ((raw :: pre) ++ l :: post)
               = parse_loop self ((raw :: pre) ++ post)).
    { intros self Hb. cbn [app fold_left] in *. rewrite !parse_loop_cons. cbv zeta.
      destruct (startswith (strip raw) "SYMATTR") eqn:Ea.
      { rewrite block_step_symattr in Hb by exact Ea.
        destruct (symattr_exclusive _ Ea) as (-> & -> & -> & -> & ->). now apply IHo. }
      destruct (startswith (strip raw) "SYMBOL") eqn:E3.
      { rewrite block_step_symbol in Hb by exact E3.
        destruct (symbol_exclusive _ E3) as (-> & ->).
        destruct (_parse_symbol_line self _); cbn [bind]; [reflexivity | now apply IHi]. }
      rewrite block_step_plain in Hb by assumption.
      destruct (startswith (strip raw) "Version").
      { destruct (index _ 1); cbn [bind]; [reflexivity | now apply IHo]. }
      destruct (startswith (strip raw) "SHEET").
      { destruct (parse_sheet_line _); cbn [bind]; [reflexivity | now apply IHo]. }
      destruct (startswith (strip raw) "WIRE").
      { destruct (_parse_wire_line _); cbn [bind]; [reflexivity | now apply IHo]. }
      destruct (startswith (strip raw) "FLAG").
      { destruct (_parse_flag_line _); cbn [bind]; [reflexivity | now apply IHo]. }
      now apply IHo. }
    split; [exact Ho|].
    intros self1 component Hb. cbn [app fold_left] in *. rewrite !attrs_loop_cons.
    destruct (startswith (strip raw) "SYMATTR") eqn:Ea.
    + destruct (_add_symattr_to_component _ _); cbn [bind]; [reflexivity|].
      apply IHi. now rewrite block_step_symattr in Hb by exact Ea.
    + apply (Ho (append_component self1 component)). cbn [fold_left].
      rewrite block_step_other in Hb by exact Ea. exact Hb.
Qed.

(** C10: a SYMATTR line that follows neither a SYMBOL line nor a SYMATTR
    line of a symbol block is skipped: the parse of the text with the line
    equals the parse of the text without it, be it a document or a
    failure caused by another line. *)
Theorem orphan_symattr_is_skipped :
  forall (pre : list string) (l : string) (post : list string),
    is_symattr l = true ->
    in_symbol_block pre = false ->
    parse_lines (pre ++ l :: post) = parse_lines (pre ++ post).
Proof.
  intros pre l post Hl Hpre. unfold parse_lines.
  destruct (orphan_skipped l post Hl pre) as [H _].
  now rewrite (H init Hpre).
Qed.

Lemma orphan_symattr_is_skipped_witness :
  parse_lines (["Version 4"; "WIRE 0 0 100 0"; EmptyString] ++ "  SYMATTR" :: ["SYMBOL res 100 100 R0"])
  = parse_lines (["Version 4"; "WIRE 0 0 100 0"; EmptyString] ++ ["SYMBOL res 100 100 R0"])
  /\ parse_lines (["Version 4"; "WIRE 0 0 100 0"; EmptyString] ++ ["SYMBOL res 100 100 R0"])
     = inr (mkCircuit (Some "4") None [mkComponent "comp_1" "res" 100 100 "R0" []]
                      [mkWire 0 0 100 0] []).
Proof.
  split.
  - apply (orphan_symattr_is_skipped ["Version 4"; "WIRE 0 0 100 0"; EmptyString] "  SYMATTR"
             ["SYMBOL res 100 100 R0"]); reflexivity.
  - reflexivity.
Defined.

(** *** Malformed lines *)

Ltac line_cases parts :=
  unfold line_parser_ok, bad_tokens, builtin_error;
  destruct parts as [|p0 [|p1 [|p2 [|p3 [|p4 rest]]]]];
  cbn [index nth_error bind ret raise fails List.length Nat.ltb Nat.leb existsb orb];
  unfold int, not_int;
  repeat match goal with
         | |- context [int_opt ?p] => destruct (int_opt p)
         end;
  cbn [index nth_error bind ret raise fails List.length Nat.ltb Nat.leb existsb orb];
  (split; [reflexivity | intros e E; try discriminate E; injection E as <-; eauto]).

Lemma version_line_ok line :
  line_parser_ok (index (split line) 1) (split line) 2 [].
Proof. line_cases (split line). Qed.

Lemma sheet_line_ok line :
  line_parser_ok (parse_sheet_line line) (split line) 4 [1; 2; 3]%nat.
Proof. unfold parse_sheet_line. line_cases (split line). Qed.

Lemma symbol_line_ok self line :
  line_parser_ok (_parse_symbol_line self line) (split line) 5 [2; 3]%nat.
Proof. unfold _parse_symbol_line. line_cases (split line). Qed.

Lemma wire_line_ok line :
  line_parser_ok (_parse_wire_line line) (split line) 5 [1; 2; 3; 4]%nat.
Proof. unfold _parse_wire_line. line_cases (split line). Qed.

Lemma flag_line_ok line :
  line_parser_ok (_parse_flag_line line) (split line) 4 [1; 2]%nat.
Proof. unfold _parse_flag_line. line_cases (split line). Qed.

Lemma symattr_line_ok component line :
  line_parser_ok (_add_symattr_to_component component line) (split line) 2 [].
Proof. unfold _add_symattr_to_component. line_cases (split line). Qed.

Lemma fails_bind {A B} (m : result A) (k : A -> result B) (x : bool) :
  (forall a, fails (k a) = x) -> fails (bind m k) = fails m || x.
Proof. intro H. destruct m; cbn [bind fails orb]; auto. Qed.

Lemma bind_error {A B} (m : result A) (k : A -> result B) (e : exn) :
  bind m k = inl e -> m = inl e \/ exists a, k a = inl e.
Proof. destruct m as [e'|a]; cbn [bind]; intro H; [injection H as ->; now left | right; now exists a]. Qed.

Lemma some_malformed_other b raw rest :
  startswith (strip raw) "SYMATTR" = false ->
  some_malformed b (raw :: rest) = some_malformed false (raw :: rest).
Proof. cbn [some_malformed]. cbv zeta. now intros ->. Qed.

Lemma loops_fail_iff_malformed lines :
  (forall self,
      fails (parse_loop self lines) = some_malformed false lines
      /\ forall e, parse_loop self lines = inl e -> builtin_error e)
  /\ (forall self1 component,
        fails (attrs_loop self1 component lines) = some_malformed true lines
        /\ forall e, attrs_loop self1 component lines = inl e -> builtin_error e).
Proof.
  induction lines as [|raw rest [IHo IHi]].
  - split; intros; (split; [reflexivity | discriminate]).
  - assert (Ho : forall self,
               fails (parse_loop self (raw :: rest)) = some_malformed false (raw :: rest)
               /\ forall e, parse_loop self (raw :: rest) = inl e -> builtin_error e).
    { intro self. rewrite parse_loop_cons. cbn [some_malformed]. cbv zeta.
      unfold malformed.
      destruct (startswith (strip raw) "SYMATTR") eqn:Ea.
      { destruct (symattr_exclusive _ Ea) as (-> & -> & -> & -> & ->).
        cbn [andb orb]. apply IHo. }
      destruct (startswith (strip raw) "Version") eqn:E1.
      { destruct (version_line_ok (strip raw)) as [F S].
        split.
        - rewrite (fails_bind _ _ (some_malformed false rest)), F by (intro; apply IHo).
          f_equal. destruct (startswith (strip raw) "SYMBOL") eqn:E3; [|reflexivity].
          destruct (symbol_exclusive _ E3) as (E & _). congruence.
        - intros e E. apply bind_error in E. destruct E as [E|[a E]]; [now apply S|].
          now apply (IHo _) in E. }
      destruct (startswith (strip raw) "SHEET") eqn:E2.
      { destruct (sheet_line_ok (strip raw)) as [F S].
        split.
        - rewrite (fails_bind _ _ (some_malformed false rest)), F by (intro; apply IHo).
          f_equal. destruct (startswith (strip raw) "SYMBOL") eqn:E3; [|reflexivity].
          destruct (symbol_exclusive _ E3) as (_ & E). congruence.
        - intros e E. apply bind_error in E. destruct E as [E|[a E]]; [now apply S|].
          now apply (IHo _) in E. }
      destruct (startswith (strip raw) "SYMBOL") eqn:E3.
      { destruct (symbol_line_ok self (strip raw)) as [F S].
        split.
        - now rewrite (fails_bind _ _ (some_malformed true rest)), F by (intro; apply IHi).
        - intros e E. apply bind_error in E. destruct E as [E|[a E]]; [now apply S|].
          now apply (IHi _ _) in E. }
      destruct (startswith (strip raw) "WIRE") eqn:E4.
      { destruct (wire_line_ok (strip raw)) as [F S].
        split.
        - now rewrite (fails_bind _ _ (some_malformed false rest)), F by (intro; apply IHo).
        - intros e E. apply bind_error in E. destruct E as [E|[a E]]; [now apply S|].
          now apply (IHo _) in E. }
      destruct (startswith (strip raw) "FLAG") eqn:E5.
      { destruct (flag_line_ok (strip raw)) as [F S].
        split.
        - now rewrite (fails_bind _ _ (some_malformed false rest)), F by (intro; apply IHo).
        - intros e E. apply bind_error in E. destruct E as [E|[a E]]; [now apply S|].
          now apply (IHo _) in E. }
      cbn [orb]. apply IHo. }
    split; [exact Ho|].
    intros self1 component. rewrite attrs_loop_cons.
    destruct (startswith (strip raw) "SYMATTR") eqn:Ea.
    + cbn [some_malformed]. cbv zeta. rewrite Ea. unfold malformed.
      destruct (symattr_exclusive _ Ea) as (-> & -> & -> & -> & ->). rewrite Ea.
      destruct (symattr_line_ok component (strip raw)) as [F S].
      split.
      * now rewrite (fails_bind _ _ (some_malformed true rest)), F by (intro; apply IHi).
      * intros e E. apply bind_error in E. destruct E as [E|[a E]]; [now apply S|].
        now apply (IHi _ _) in E.
    + rewrite some_malformed_other by exact Ea. apply Ho.
Qed.

(** C6, as the code has it: the parse fails exactly when a line that the
    parser examines is malformed, that is, when a line that starts with
    Version, SHEET, SYMBOL, WIRE or FLAG, or a SYMATTR line inside a symbol
    block, has fewer tokens than required or a numeric token that is not
    an integer.  The failure is a built-in [IndexError] or [ValueError],
    the latter carrying the token only; the parse returns no document. *)
Theorem parse_fails_iff_malformed :
  forall lines : list string,
    (fails (parse_lines lines) = true <-> some_malformed false lines = true)
    /\ (forall e, parse_lines lines = inl e -> builtin_error e).
Proof.
  intro lines. destruct (loops_fail_iff_malformed lines) as [H _].
  destruct (H init) as [F S]. unfold parse_lines.
  destruct (parse_loop init lines) as [e|self] eqn:E; cbn [bind fails ret] in *.
  - rewrite <- F. split; [tauto|]. intros e' E'. injection E' as <-. now apply S.
  - rewrite <- F. split; [tauto | discriminate].
Qed.

(** C6 as stated fails: no reading of the failure gives the number and
    the content of the offending line, since two texts whose malformed
    lines differ fail with the same exception. *)
Lemma failure_does_not_identify_line :
  ~ (exists locate : exn -> nat * string,
        forall lines e, parse_lines lines = inl e ->
                        nth_error lines (fst (locate e)) = Some (snd (locate e))).
Proof.
  intros [locate H].
  pose proof (H ["WIRE 1 2 3"] IndexError eq_refl) as H1.
  pose proof (H ["FLAG 1"] IndexError eq_refl) as H2.
  destruct (locate IndexError) as [n raw]; cbn [fst snd] in *.
  destruct n as [|n]; cbn [nth_error] in *.
  - congruence.
  - destruct n; discriminate.
Qed.

End ParserProps.

(** ** Scratch files *)

Module ScratchProps.
Import Py Scratch ScratchSpec.
Local Open Scope string_scope.
Local Open Scope list_scope.

Lemma exists_unlink path w : exists_ path (unlink path w) = false.
Proof.
  unfold exists_, unlink; simpl.
  induction (files w) as [|f l IH]; simpl; [reflexivity|].
  destruct (fst f =? path)%nat eqn:E; simpl; [exact IH|].
  now rewrite E.
Qed.

(** The [finally] block leaves no file at the path. *)
Lemma cleanup_removes path w : exists_ path (cleanup path w) = false.
Proof.
  unfold cleanup. destruct (exists_ path w) eqn:E; [apply exists_unlink | exact E].
Qed.

Lemma write_ok path file_content w :
  (String.length file_content <= free w)%nat ->
  exists w', write path file_content w = (inr tt, w').
Proof.
  intro H. unfold write. apply Nat.leb_le in H. rewrite H. eauto.
Qed.

(** Once the bytes are written, the scratch file of [parse_asc_file] is
    gone when the call ends, whether the parser returns or raises. *)
Lemma parse_asc_file_cleans_up file_content w :
  (String.length file_content <= free w)%nat ->
  exists_ (fresh w) (snd (parse_asc_file file_content w)) = false.
Proof.
  intro H. unfold parse_asc_file, NamedTemporaryFile.
  destruct (write_ok (fresh w) file_content
              (mkWorld ((fresh w, EmptyString) :: files w) (free w)) H) as [w' ->].
  apply cleanup_removes.
Qed.

Lemma convert_to_json_cleans_up file_content w :
  (String.length file_content <= free w)%nat ->
  exists_ (fresh w) (snd (convert_to_json file_content w)) = false.
Proof.
  intro H. unfold convert_to_json, NamedTemporaryFile.
  destruct (write_ok (fresh w) file_content
              (mkWorld ((fresh w, EmptyString) :: files w) (free w)) H) as [w' ->].
  apply cleanup_removes.
Qed.

Lemma process_image_cleans_up atan2_degrees detector file_content output_format w :
  (String.length file_content <= free w)%nat ->
  exists_ (fresh w)
    (snd (process_image atan2_degrees detector file_content output_format w)) = false.
Proof.
  intro H. unfold process_image, NamedTemporaryFile.
  destruct (write_ok (fresh w) file_content
              (mkWorld ((fresh w, EmptyString) :: files w) (free w)) H) as [w' ->].
  destruct (process_image_to_asc _ _ _ _) as [e|asc_content].
  - apply cleanup_removes.
  - destruct (output_format =? "json").
    + destruct (convert_to_json asc_content w'). apply cleanup_removes.
    + apply cleanup_removes.
Qed.

(** C8 on an input: the 14 bytes of a wire line do not fit on the device.
    The scratch file is created, the write raises [OSError] before the
    [try] statement is entered, and the file is still there when each of
    the three calls ends. *)
Theorem scratch_file_survives_failed_write :
  forall (atan2_degrees : Z -> Z -> Q) (detector : string -> result Recognizer.DataFrame),
    let scratch := fresh full_device in
    let r1 := parse_asc_file "WIRE 0 0 100 0" full_device in
    let r2 := convert_to_json "WIRE 0 0 100 0" full_device in
    let r3 := process_image atan2_degrees detector "WIRE 0 0 100 0" "asc" full_device in
    exists_ scratch full_device = false
    /\ (fst r1 = raise OSError /\ exists_ scratch (snd r1) = true)
    /\ (fst r2 = raise OSError /\ exists_ scratch (snd r2) = true)
    /\ (fst r3 = raise OSError /\ exists_ scratch (snd r3) = true).
Proof. intros. repeat split. Qed.

(** With room on the device the same call leaves no file behind, although
    the parser raises on the malformed line. *)
Example parse_asc_file_failure_cleans_up :
  parse_asc_file "WIRE 0 0 100" (mkWorld [] 100) = (raise IndexError, mkWorld [] 100).
Proof. reflexivity. Qed.

End ScratchProps.

(** ** Strings, tokens and lines *)

Module TextProps.
Import Py TextSpec.
Local Open Scope string_scope.
Local Open Scope list_scope.

Lemma append_nil_r (s : string) : (s ++ EmptyString)%string = s.
Proof. induction s; simpl; congruence. Qed.

Lemma append_assoc (a b c : string) : ((a ++ b) ++ c = a ++ (b ++ c))%string.
Proof. induction a; simpl; congruence. Qed.

Lemma rev_string_twice (t a b : string) :
  rev_string a (rev_string b t) = rev_string (t ++ a) b.
Proof.
  revert a b. induction t as [|c t IH]; intros a b; simpl; [reflexivity|].
  now rewrite IH.
Qed.

Lemma split_aux_token (t : string) :
  no_space t = true ->
  forall cur s, split_aux cur (t ++ s) = split_aux (rev_string cur t) s.
Proof.
  induction t as [|c t IH]; intros H cur s; simpl in *; [reflexivity|].
  apply andb_true_iff in H. destruct H as [Hc Ht].
  apply negb_true_iff in Hc. rewrite Hc. now apply IH.
Qed.

Lemma rev_string_empty (t acc : string) :
  rev_string acc t = EmptyString -> acc = EmptyString /\ t = EmptyString.
Proof.
  revert acc. induction t as [|c t IH]; intros acc H; simpl in H; [auto|].
  destruct (IH _ H) as [E _]. discriminate E.
Qed.

Lemma flush_token (t : string) :
  is_token t = true -> flush (rev_string EmptyString t) = [t].
Proof.
  intro H. unfold flush.
  destruct (rev_string EmptyString t) as [|c r] eqn:E.
  - apply rev_string_empty in E. destruct E as [_ ->]. discriminate H.
  - rewrite <- E, rev_string_twice. simpl. now rewrite append_nil_r.
Qed.

Lemma is_token_no_space t : is_token t = true -> no_space t = true.
Proof. destruct t; [discriminate | auto]. Qed.

(** [split] gives back the tokens that [join] put together. *)
Lemma split_join (toks : list string) :
  forallb is_token toks = true -> split (join " " toks) = toks.
Proof.
  unfold split. induction toks as [|t toks IH]; intro H; [reflexivity|].
  cbn [forallb] in H. apply andb_true_iff in H. destruct H as [Ht Hs].
  destruct toks as [|t' toks].
  - cbn [join]. rewrite <- (append_nil_r t) at 1.
    rewrite split_aux_token by now apply is_token_no_space.
    cbn [split_aux]. now apply flush_token.
  - change (join " " (t :: t' :: toks)) with (t ++ " " ++ join " " (t' :: toks))%string.
    rewrite split_aux_token by now apply is_token_no_space.
    change (" " ++ join " " (t' :: toks))%string
      with (String " " (join " " (t' :: toks))).
    cbn [split_aux]. change (isspace " ") with true. cbv iota.
    rewrite flush_token by assumption. rewrite (IH Hs). reflexivity.
Qed.

Lemma lstrip_id s : starts_no_space s = true -> lstrip s = s.
Proof.
  destruct s as [|c s]; [discriminate|]. simpl. intro H.
  apply negb_true_iff in H. now rewrite H.
Qed.

Lemma all_space_app a b : all_space (a ++ b) = all_space a && all_space b.
Proof. induction a as [|c a IH]; simpl; [reflexivity|]. now rewrite IH, andb_assoc. Qed.

Lemma token_not_all_space t : is_token t = true -> all_space t = false.
Proof.
  destruct t as [|c t]; [discriminate|]. simpl. intro H.
  apply andb_true_iff in H. destruct H as [H _]. apply negb_true_iff in H. now rewrite H.
Qed.

Lemma rstrip_token t : no_space t = true -> rstrip t = t.
Proof.
  induction t as [|c t IH]; [reflexivity|]. intro H. cbn [no_space] in H.
  apply andb_true_iff in H. destruct H as [Hc Ht].
  cbn [rstrip all_space]. apply negb_true_iff in Hc. rewrite Hc. cbn [andb].
  now rewrite IH.
Qed.

Lemma rstrip_app_token a t :
  is_token t = true -> rstrip (a ++ t) = (a ++ t)%string.
Proof.
  intro H. induction a as [|c a IH].
  - apply rstrip_token. now apply is_token_no_space.
  - cbn [append rstrip all_space]. rewrite all_space_app, (token_not_all_space _ H).
    rewrite andb_false_r, andb_false_r. f_equal. exact IH.
Qed.

Lemma rstrip_app_space a sp : all_space sp = true -> rstrip (a ++ sp) = rstrip a.
Proof.
  intro H. induction a as [|c a IH].
  - simpl. destruct sp as [|c sp]; [reflexivity|]. cbn [rstrip]. now rewrite H.
  - cbn [append rstrip all_space]. rewrite all_space_app, H, andb_true_r. now rewrite IH.
Qed.

Lemma join_cons (t : string) (toks : list string) :
  toks <> [] -> join " " (t :: toks) = (t ++ " " ++ join " " toks)%string.
Proof. destruct toks; [congruence | reflexivity]. Qed.

Lemma join_ends_token (toks : list string) (t : string) :
  exists a, join " " (toks ++ [t]) = (a ++ t)%string.
Proof.
  induction toks as [|t0 toks [a IH]].
  - now exists EmptyString.
  - exists (t0 ++ " " ++ a)%string. cbn [app].
    rewrite join_cons by (now destruct toks).
    rewrite IH. now rewrite !append_assoc.
Qed.

Lemma join_starts (t : string) (toks : list string) :
  is_token t = true -> starts_no_space (join " " (t :: toks)) = true.
Proof.
  intro H. destruct t as [|c t]; [discriminate|].
  cbn [is_token no_space] in H. apply andb_true_iff in H.
  destruct toks; cbn [join append starts_no_space]; tauto.
Qed.

(** A line of tokens, read back with its line break and stripped. *)
Lemma strip_line (toks : list string) :
  toks <> [] -> forallb is_token toks = true ->
  strip (join " " toks ++ nl) = join " " toks.
Proof.
  intros Hne H. unfold strip.
  assert (Es : starts_no_space (join " " toks ++ nl) = true).
  { destruct toks as [|t toks]; [congruence|].
    cbn [forallb] in H. apply andb_true_iff in H.
    pose proof (join_starts t toks (proj1 H)) as J.
    destruct (join " " (t :: toks)); [discriminate | exact J]. }
  rewrite (lstrip_id _ Es), rstrip_app_space by reflexivity.
  destruct (exists_last Hne) as [toks' [t ->]].
  destruct (join_ends_token toks' t) as [a ->].
  apply rstrip_app_token.
  rewrite forallb_app in H. apply andb_true_iff in H. cbn [forallb] in H.
  destruct H as [_ H]. now rewrite andb_true_r in H.
Qed.

(** *** Integers *)

Lemma groups_digits (d : Decimal.uint) :
  forall prev, (prev = true \/ d <> Decimal.Nil) ->
  groups prev (NilEmpty.string_of_uint d) = Some (NilEmpty.string_of_uint d).
Proof.
  induction d; intros prev H; cbn [NilEmpty.string_of_uint groups];
    try (change (is_digit _) with true; cbv iota; rewrite IHd by (now left); reflexivity).
  destruct H as [-> | H]; [reflexivity | congruence].
Qed.

Lemma digits_value_uint (d : Decimal.uint) :
  d <> Decimal.Nil -> digits_value (NilEmpty.string_of_uint d) = Some (Z.of_uint d).
Proof.
  intro H. unfold digits_value. rewrite groups_digits by (now right).
  now rewrite NilEmpty.usu.
Qed.

Lemma to_uint_not_nil (p : positive) : Pos.to_uint p <> Decimal.Nil.
Proof.
  intro E. pose proof (DecimalPos.Unsigned.of_to p) as H. rewrite E in H. discriminate H.
Qed.

Lemma int_opt_unsigned (d : Decimal.uint) :
  d <> Decimal.Nil ->
  int_opt (NilEmpty.string_of_uint d) = Some (Z.of_uint d).
Proof.
  intro H. rewrite <- (digits_value_uint d H).
  destruct d; try congruence; reflexivity.
Qed.

(** [int(str(n)) == n] *)
Lemma int_str (z : Z) : int_opt (str z) = Some z.
Proof.
  unfold str. rewrite <- (DecimalZ.of_to z) at 2.
  destruct z as [|p|p]; cbn [Z.to_int NilEmpty.string_of_int Z.of_int].
  - reflexivity.
  - apply int_opt_unsigned, to_uint_not_nil.
  - cbn [int_opt]. rewrite digits_value_uint by apply to_uint_not_nil. reflexivity.
Qed.

Lemma uint_no_space (d : Decimal.uint) : no_space (NilEmpty.string_of_uint d) = true.
Proof. induction d; cbn [NilEmpty.string_of_uint no_space]; auto. Qed.

Lemma str_token (z : Z) : is_token (str z) = true.
Proof.
  unfold str.
  destruct z as [|p|p]; cbn [Z.to_int NilEmpty.string_of_int].
  - reflexivity.
  - pose proof (to_uint_not_nil p) as H. pose proof (uint_no_space (Pos.to_uint p)) as N.
    destruct (Pos.to_uint p); [congruence | exact N ..].
  - cbn [is_token no_space]. apply uint_no_space.
Qed.

(** *** Lines *)

Lemma concat_cons (x : string) (xs : list string) :
  String.concat EmptyString (x :: xs) = (x ++ String.concat EmptyString xs)%string.
Proof. destruct xs; cbn [String.concat]; [now rewrite append_nil_r | reflexivity]. Qed.

Lemma readlines_line (l rest : string) :
  no_newline l = true ->
  ASC.readlines ((l ++ nl) ++ rest) = (l ++ nl)%string :: ASC.readlines rest.
Proof.
  induction l as [|c l IH]; intro H.
  - reflexivity.
  - cbn [no_newline] in H. apply andb_true_iff in H. destruct H as [H Hl].
    apply andb_true_iff in H. destruct H as [H1 H2].
    apply negb_true_iff in H1, H2.
    cbn [append ASC.readlines]. rewrite H1, H2.
    rewrite (IH Hl). reflexivity.
Qed.

Lemma readlines_unlines (ls : list string) :
  forallb no_newline ls = true ->
  ASC.readlines (String.concat EmptyString (map (fun l => l ++ nl)%string ls))
  = map (fun l => l ++ nl)%string ls.
Proof.
  induction ls as [|l ls IH]; intro H; [reflexivity|].
  cbn [forallb] in H. apply andb_true_iff in H. destruct H as [Hl Hs].
  cbn [map]. rewrite concat_cons, readlines_line by assumption.
  now rewrite IH.
Qed.

Lemma no_space_no_newline s : no_space s = true -> no_newline s = true.
Proof.
  induction s as [|c s IH]; [reflexivity|]. cbn [no_space no_newline]. intro H.
  apply andb_true_iff in H. destruct H as [Hc Hs]. rewrite (IH Hs), andb_true_r.
  apply negb_true_iff in Hc.
  destruct (c =? LF)%char eqn:E1; [apply Ascii.eqb_eq in E1; subst; discriminate|].
  destruct (c =? CR)%char eqn:E2; [apply Ascii.eqb_eq in E2; subst; discriminate|].
  reflexivity.
Qed.

Lemma no_newline_app a b : no_newline (a ++ b) = no_newline a && no_newline b.
Proof.
  induction a as [|c a IH]; [reflexivity|]. cbn [append no_newline].
  now rewrite IH, andb_assoc.
Qed.

Lemma join_no_newline (toks : list string) :
  forallb is_token toks = true -> no_newline (join " " toks) = true.
Proof.
  induction toks as [|t toks IH]; intro H; [reflexivity|].
  cbn [forallb] in H. apply andb_true_iff in H. destruct H as [Ht Hs].
  apply is_token_no_space, no_space_no_newline in Ht.
  destruct toks as [|t' toks]; [exact Ht|].
  rewrite join_cons by discriminate.
  rewrite !no_newline_app, Ht, (IH Hs). reflexivity.
Qed.

End TextProps.

(** ** The round trip through the serializer *)

Module RoundTripProps.
Import Py ASC Serializer ParserSpec ParserProps TextSpec TextProps RoundTripSpec.
Local Open Scope string_scope.
Local Open Scope list_scope.
Local Open Scope py_scope.

Lemma split_aux_tokens s :
  forall cur, no_space cur = true -> forallb is_token (split_aux cur s) = true.
Proof.
  assert (R : forall t acc, no_space (rev_string acc t) = no_space acc && no_space t).
  { induction t as [|c t IH]; intro acc; cbn [rev_string no_space].
    - now rewrite andb_true_r.
    - rewrite IH. cbn [no_space]. destruct (isspace c), (no_space acc), (no_space t); reflexivity. }
  assert (F : forall cur, no_space cur = true -> forallb is_token (flush cur) = true).
  { intros cur H. unfold flush. destruct cur as [|c cur]; [reflexivity|].
    cbn [forallb]. rewrite andb_true_r.
    destruct (rev_string EmptyString (String c cur)) as [|c' r] eqn:E.
    - apply rev_string_empty in E. destruct E as [_ E]. discriminate E.
    - unfold is_token. rewrite <- E, R. exact H. }
  induction s as [|c s IH]; intros cur H; cbn [split_aux].
  - now apply F.
  - destruct (isspace c) eqn:E.
    + rewrite forallb_app, (F _ H). now apply IH.
    + apply IH. cbn [no_space]. now rewrite E, H.
Qed.

Lemma split_tokens s : forallb is_token (split s) = true.
Proof. now apply split_aux_tokens. Qed.

Lemma strip_raw (toks : list string) :
  toks <> [] -> forallb is_token toks = true ->
  strip (raw (join " " toks)) = join " " toks.
Proof. apply strip_line. Qed.

Ltac token_line toks :=
  let E := fresh "E" in
  let Hs := fresh "Hs" in
  assert (E : forallb is_token toks = true)
    by (cbn [forallb]; rewrite ?str_token, ?andb_true_r; repeat (apply andb_true_iff; split); auto using str_token);
  assert (Hs : strip (raw (join " " toks)) = join " " toks)
    by (apply strip_line; [discriminate | exact E]).

Lemma parse_version_line st v rest :
  is_token v = true ->
  parse_loop st (raw ("Version " ++ v) :: rest) = parse_loop (set_version st v) rest.
Proof.
  intro H. rewrite parse_loop_cons. cbv zeta.
  token_line ["Version"; v].
  change ("Version " ++ v)%string with (join " " ["Version"; v]).
  rewrite Hs, split_join by exact E. reflexivity.
Qed.

Lemma index_int_str (parts : list string) (i : nat) (z : Z) :
  nth_error parts i = Some (str z) ->
  bind (index parts i) (fun s => int s) = ret z.
Proof.
  intro H. unfold index. rewrite H. cbn [bind ret]. unfold int. now rewrite int_str.
Qed.

Lemma parse_sheet_text sh :
  parse_sheet_line (join " " ["SHEET"; str (number sh); str (width sh); str (height sh)])
  = ret sh.
Proof.
  unfold parse_sheet_line.
  rewrite split_join
    by (cbn [forallb]; rewrite !str_token; reflexivity).
  cbn [index nth_error bind ret]. unfold int. rewrite !int_str. cbn [bind ret].
  now destruct sh.
Qed.

Lemma parse_sheet_line_ok st sh rest :
  parse_loop st
    (raw ("SHEET " ++ str (number sh) ++ " " ++ str (width sh) ++ " " ++ str (height sh))
     :: rest)
  = parse_loop (set_sheet st sh) rest.
Proof.
  rewrite parse_loop_cons. cbv zeta.
  token_line ["SHEET"; str (number sh); str (width sh); str (height sh)].
  change ("SHEET " ++ str (number sh) ++ " " ++ str (width sh) ++ " " ++ str (height sh))%string
    with (join " " ["SHEET"; str (number sh); str (width sh); str (height sh)]).
  rewrite Hs. change (startswith _ "Version") with false.
  change (startswith _ "SHEET") with true. cbv iota.
  now rewrite parse_sheet_text.
Qed.

Lemma parse_wire_line_ok st w rest :
  normalize w = w ->
  parse_loop st (raw (wire_line w) :: rest) = parse_loop (append_wire st w) rest.
Proof.
  intro N. rewrite parse_loop_cons. cbv zeta. unfold wire_line. rewrite N.
  token_line ["WIRE"; str (x1 w); str (y1 w); str (x2 w); str (y2 w)].
  change ("WIRE " ++ str (x1 w) ++ " " ++ str (y1 w) ++ " " ++ str (x2 w) ++ " " ++ str (y2 w))%string
    with (join " " ["WIRE"; str (x1 w); str (y1 w); str (x2 w); str (y2 w)]).
  rewrite Hs. change (startswith _ "Version") with false.
  change (startswith _ "SHEET") with false. change (startswith _ "SYMBOL") with false.
  change (startswith _ "WIRE") with true. cbv iota.
  unfold _parse_wire_line. rewrite split_join by exact E.
  cbn [index nth_error bind ret]. unfold int. rewrite !int_str. cbn [bind ret].
  now destruct w.
Qed.

Lemma parse_flag_line_ok st f rest :
  is_token (net_name f) = true ->
  parse_loop st (raw (flag_line f) :: rest) = parse_loop (append_flag st f) rest.
Proof.
  intro N. rewrite parse_loop_cons. cbv zeta. unfold flag_line.
  token_line ["FLAG"; str (flag_x f); str (flag_y f); net_name f].
  change ("FLAG " ++ str (flag_x f) ++ " " ++ str (flag_y f) ++ " " ++ net_name f)%string
    with (join " " ["FLAG"; str (flag_x f); str (flag_y f); net_name f]).
  rewrite Hs. change (startswith _ "Version") with false.
  change (startswith _ "SHEET") with false. change (startswith _ "SYMBOL") with false.
  change (startswith _ "WIRE") with false. change (startswith _ "FLAG") with true.
  cbv iota.
  unfold _parse_flag_line. rewrite split_join by exact E.
  cbn [index nth_error bind ret]. unfold int. rewrite !int_str. cbn [bind ret].
  now destruct f.
Qed.

Lemma attr_line_tokens kv :
  wf_attr kv = true ->
  attr_line kv = join " " ("SYMATTR" :: written_key (fst kv) :: split (snd kv))
  /\ forallb is_token ("SYMATTR" :: written_key (fst kv) :: split (snd kv)) = true.
Proof.
  unfold wf_attr. intro H. apply andb_true_iff in H. destruct H as [H Hv].
  apply andb_true_iff in H. destruct H as [Hk _]. apply String.eqb_eq in Hv.
  split.
  - unfold attr_line. fold (written_key (fst kv)).
    destruct (split (snd kv)) as [|t ts] eqn:Es.
    + cbn [join] in Hv. rewrite <- Hv. cbn [String.eqb join].
      now rewrite append_nil_r.
    + destruct (snd kv =? EmptyString) eqn:E0.
      * apply String.eqb_eq in E0. rewrite E0 in Es. discriminate Es.
      * rewrite <- Hv at 1.
        rewrite (join_cons "SYMATTR") by discriminate.
        rewrite (join_cons (written_key (fst kv))) by discriminate. reflexivity.
  - cbn [forallb]. rewrite split_tokens, andb_true_r. unfold written_key.
    destruct (fst kv =? "name"); [reflexivity | exact Hk].
Qed.

Lemma add_symattr_line c kv :
  wf_attr kv = true ->
  _add_symattr_to_component c (attr_line kv)
  = ret (with_attributes c (dict_set (attributes c) (fst kv) (snd kv))).
Proof.
  intro H. destruct (attr_line_tokens kv H) as [-> T].
  unfold _add_symattr_to_component. rewrite split_join by exact T.
  cbn [index nth_error bind ret slice_from skipn List.length].
  unfold wf_attr in H. apply andb_true_iff in H. destruct H as [H Hv].
  apply andb_true_iff in H. destruct H as [_ Hn]. apply String.eqb_eq in Hv.
  apply negb_true_iff in Hn.
  assert (Ev : (if (2 <? S (S (List.length (split (snd kv)))))%nat
                then join " " (split (snd kv)) else EmptyString) = snd kv).
  { destruct (split (snd kv)) as [|t ts]; [exact Hv|]. cbn [List.length].
    exact Hv. }
  rewrite Ev.
  assert (Ek : (if written_key (fst kv) =? "InstName" then "name" else written_key (fst kv))
               = fst kv).
  { unfold written_key. destruct (fst kv =? "name") eqn:E.
    - apply String.eqb_eq in E. now rewrite E.
    - now rewrite Hn. }
  rewrite Ek. reflexivity.
Qed.

Lemma dict_set_new d k v :
  existsb (String.eqb k) (map fst d) = false -> dict_set d k v = d ++ [(k, v)].
Proof.
  induction d as [|[k' v'] d IH]; cbn [map fst existsb dict_set app]; intro H;
    [reflexivity|].
  apply orb_false_iff in H. destruct H as [H1 H2].
  rewrite String.eqb_sym in H1. rewrite H1. now rewrite IH.
Qed.

Lemma distinct_app_last l k :
  distinct (l ++ [k]) = true -> existsb (String.eqb k) l = false.
Proof.
  induction l as [|a l IH]; [reflexivity|]. cbn [app distinct existsb]. intro H.
  apply andb_true_iff in H. destruct H as [H1 H2].
  apply negb_true_iff in H1. rewrite existsb_app in H1.
  apply orb_false_iff in H1. destruct H1 as [_ H1]. cbn [existsb] in H1.
  rewrite orb_false_r in H1. rewrite String.eqb_sym, H1. cbn [orb]. now apply IH.
Qed.

Lemma distinct_app_l l1 l2 : distinct (l1 ++ l2) = true -> distinct l1 = true.
Proof.
  induction l1 as [|a l IH]; [reflexivity|]. cbn [app distinct]. intro H.
  apply andb_true_iff in H. destruct H as [H1 H2].
  rewrite (IH H2), andb_true_r. apply negb_true_iff in H1. apply negb_true_iff.
  rewrite existsb_app in H1. now apply orb_false_iff in H1.
Qed.

Lemma strip_attr_line kv :
  wf_attr kv = true ->
  strip (raw (attr_line kv)) = attr_line kv
  /\ startswith (attr_line kv) "SYMATTR" = true.
Proof.
  intro H. destruct (attr_line_tokens kv H) as [-> T]. split.
  - apply strip_line; [discriminate | exact T].
  - rewrite join_cons by discriminate. reflexivity.
Qed.

Lemma attrs_loop_lines self1 c rest :
  no_attr_head rest = true ->
  forall todo done,
    forallb wf_attr todo = true ->
    distinct (map fst (done ++ todo)) = true ->
    attrs_loop self1 (with_attributes c done) (map raw (map attr_line todo) ++ rest)
    = parse_loop (append_component self1 (with_attributes c (done ++ todo))) rest.
Proof.
  intro Hr. induction todo as [|kv todo IH]; intros done Hw Hd.
  - cbn [map app]. rewrite app_nil_r.
    destruct rest as [|r rest]; [reflexivity|].
    rewrite attrs_loop_cons. cbn [no_attr_head] in Hr.
    apply negb_true_iff in Hr. now rewrite Hr.
  - cbn [forallb] in Hw. apply andb_true_iff in Hw. destruct Hw as [Hkv Hw].
    cbn [map app]. rewrite attrs_loop_cons.
    destruct (strip_attr_line kv Hkv) as [-> ->].
    rewrite add_symattr_line by exact Hkv. cbn [bind ret].
    assert (Hd' : distinct (map fst ((done ++ [kv]) ++ todo)) = true)
      by (now rewrite <- app_assoc).
    assert (En : existsb (String.eqb (fst kv)) (map fst done) = false).
    { apply distinct_app_last. pose proof Hd' as D. rewrite map_app in D.
      apply distinct_app_l in D. rewrite map_app in D. exact D. }
    change (attributes (with_attributes c done)) with done.
    rewrite (dict_set_new _ _ _ En).
    destruct kv as [k v]. cbn [fst snd].
    change (with_attributes (with_attributes c done) (done ++ [(k, v)]))
      with (with_attributes c (done ++ [(k, v)])).
    rewrite (IH (done ++ [(k, v)]) Hw Hd'). now rewrite <- app_assoc.
Qed.

Lemma wf_component_parts c :
  wf_component c = true ->
  is_token (type c) = true /\ is_token (rotation c) = true
  /\ forallb wf_attr (attributes c) = true
  /\ distinct (map fst (attributes c)) = true.
Proof.
  unfold wf_component. intro H.
  apply andb_true_iff in H. destruct H as [H H4].
  apply andb_true_iff in H. destruct H as [H H3].
  apply andb_true_iff in H. destruct H as [H1 H2]. auto.
Qed.

Lemma symbol_line_tokens c :
  wf_component c = true ->
  symbol_line c = join " " ["SYMBOL"; type c; str (x c); str (y c); rotation c]
  /\ forallb is_token ["SYMBOL"; type c; str (x c); str (y c); rotation c] = true.
Proof.
  intro H. destruct (wf_component_parts c H) as (H1 & H2 & _).
  split; [reflexivity|]. cbn [forallb]. rewrite !str_token, H1, H2. reflexivity.
Qed.

Lemma parse_component_block st c rest :
  wf_component c = true ->
  no_attr_head rest = true ->
  id c = ("comp_" ++ str (component_counter st + 1))%string ->
  parse_loop st (map raw (component_lines c) ++ rest)
  = parse_loop (append_component (bump st) c) rest.
Proof.
  intros Hc Hr Hid. unfold component_lines. cbn [map app].
  rewrite parse_loop_cons. cbv zeta.
  destruct (symbol_line_tokens c Hc) as [-> T].
  rewrite strip_raw by (discriminate || exact T).
  change (startswith _ "Version") with false.
  change (startswith _ "SHEET") with false. change (startswith _ "SYMBOL") with true.
  cbv iota. unfold _parse_symbol_line. rewrite split_join by exact T.
  cbn [index nth_error bind ret]. unfold int. rewrite !int_str. cbn [bind ret fst snd].
  rewrite <- Hid.
  change (mkComponent (id c) (type c) (x c) (y c) (rotation c) [])
    with (with_attributes c []).
  destruct (wf_component_parts c Hc) as (_ & _ & H3 & H4).
  rewrite (attrs_loop_lines _ c rest Hr (attributes c) []) by assumption.
  cbn [app]. unfold bump. now destruct c.
Qed.

Lemma no_attr_head_blocks cs rest :
  forallb wf_component cs = true ->
  no_attr_head rest = true -> no_attr_head (block_lines cs ++ rest) = true.
Proof.
  destruct cs as [|c cs]; [auto|]. intros H _. cbn [forallb] in H.
  apply andb_true_iff in H. destruct H as [Hc _].
  cbn [block_lines flat_map component_lines map app no_attr_head].
  destruct (symbol_line_tokens c Hc) as [-> T].
  rewrite strip_raw by (discriminate || exact T). reflexivity.
Qed.

Lemma parse_components cs :
  forall st rest,
    forallb wf_component cs = true ->
    ids_from (component_counter st + 1) cs = true ->
    no_attr_head rest = true ->
    parse_loop st (block_lines cs ++ rest)
    = parse_loop (mkParser (components st ++ cs) (wires st) (flags st) (version st)
                           (sheet st) (component_counter st + Z.of_nat (List.length cs)))
                 rest.
Proof.
  induction cs as [|c cs IH]; intros st rest Hw Hi Hr.
  - cbn [block_lines flat_map app List.length Z.of_nat]. rewrite app_nil_r, Z.add_0_r.
    now destruct st.
  - cbn [forallb] in Hw. apply andb_true_iff in Hw. destruct Hw as [Hc Hw].
    cbn [ids_from] in Hi. apply andb_true_iff in Hi. destruct Hi as [Hid Hi].
    apply String.eqb_eq in Hid.
    cbn [block_lines flat_map]. fold (block_lines cs). rewrite <- app_assoc.
    rewrite parse_component_block; try assumption.
    2:{ now apply no_attr_head_blocks. }
    rewrite IH; try assumption.
    unfold append_component, bump. cbn [components wires flags version sheet component_counter].
    rewrite <- app_assoc. cbn [app List.length]. do 2 f_equal. lia.
Qed.

Lemma normalized_normalize w : normalized w = true -> normalize w = w.
Proof. unfold normalized, normalize. intro H. apply negb_true_iff in H. now rewrite H. Qed.

Lemma parse_wires ws :
  forall st rest,
    forallb normalized ws = true ->
    parse_loop st (map raw (map wire_line ws) ++ rest)
    = parse_loop (mkParser (components st) (wires st ++ ws) (flags st) (version st)
                           (sheet st) (component_counter st)) rest.
Proof.
  induction ws as [|w ws IH]; intros st rest H.
  - cbn [map app]. rewrite app_nil_r. now destruct st.
  - cbn [forallb] in H. apply andb_true_iff in H. destruct H as [Hw H].
    cbn [map app]. rewrite parse_wire_line_ok by now apply normalized_normalize.
    rewrite IH by assumption. unfold append_wire.
    cbn [components wires flags version sheet component_counter].
    now rewrite <- app_assoc.
Qed.

Lemma parse_flags fs :
  forall st,
    forallb wf_flag fs = true ->
    parse_loop st (map raw (map flag_line fs))
    = ret (mkParser (components st) (wires st) (flags st ++ fs) (version st)
                    (sheet st) (component_counter st)).
Proof.
  induction fs as [|f fs IH]; intros st H.
  - cbn [map parse_loop]. rewrite app_nil_r. now destruct st.
  - cbn [forallb] in H. apply andb_true_iff in H. destruct H as [Hf H].
    cbn [map]. rewrite parse_flag_line_ok by exact Hf.
    rewrite IH by assumption. unfold append_flag.
    cbn [components wires flags version sheet component_counter].
    now rewrite <- app_assoc.
Qed.

Lemma component_key_eqb_sym a b : component_key_eqb a b = component_key_eqb b a.
Proof.
  destruct a as [[[[t x] y] r] n], b as [[[[t' x'] y'] r'] n']. unfold component_key_eqb.
  now rewrite (String.eqb_sym t), (Z.eqb_sym x), (Z.eqb_sym y), (String.eqb_sym r),
    (String.eqb_sym n).
Qed.

Lemma wire_key_eqb_sym a b : wire_key_eqb a b = wire_key_eqb b a.
Proof.
  destruct a as [[[a1 a2] a3] a4], b as [[[b1 b2] b3] b4]. unfold wire_key_eqb.
  now rewrite (Z.eqb_sym a1), (Z.eqb_sym a2), (Z.eqb_sym a3), (Z.eqb_sym a4).
Qed.

Section Unique.

Context {A K : Type} (key : A -> K) (eqb : K -> K -> bool).
Hypothesis eqb_sym : forall a b, eqb a b = eqb b a.

Lemma unique_id l :
  forall seen,
    unseen key eqb seen l = true ->
    pairwise_distinct eqb (map key l) = true ->
    unique key eqb seen l = l.
Proof.
  induction l as [|a l IH]; intros seen Hs Hd; [reflexivity|].
  cbn [unseen forallb] in Hs. apply andb_true_iff in Hs. destruct Hs as [Ha Hs].
  cbn [map pairwise_distinct] in Hd. apply andb_true_iff in Hd. destruct Hd as [Hn Hd].
  cbn [unique]. apply negb_true_iff in Ha. rewrite Ha. f_equal.
  apply IH; [|exact Hd].
  unfold unseen. apply forallb_forall. intros b Hb. cbn [existsb].
  unfold unseen in Hs. rewrite forallb_forall in Hs. specialize (Hs b Hb).
  apply negb_true_iff in Hs. rewrite Hs, orb_false_r. apply negb_true_iff.
  apply negb_true_iff in Hn. rewrite eqb_sym.
  destruct (eqb (key a) (key b)) eqn:E; [|reflexivity].
  rewrite <- Hn. symmetry. apply existsb_exists. exists (key b).
  split; [now apply in_map | exact E].
Qed.

Lemma unique_distinct l :
  forall seen,
    unseen key eqb seen (unique key eqb seen l) = true
    /\ pairwise_distinct eqb (map key (unique key eqb seen l)) = true.
Proof.
  induction l as [|a l IH]; intro seen; [split; reflexivity|].
  cbn [unique]. destruct (existsb (eqb (key a)) seen) eqn:E; [apply IH|].
  destruct (IH (key a :: seen)) as [Hs Hd]. split.
  - cbn [unseen forallb]. rewrite E. cbn [negb andb].
    unfold unseen in *. apply forallb_forall. intros b Hb.
    rewrite forallb_forall in Hs. specialize (Hs b Hb). cbn [existsb] in Hs.
    apply negb_true_iff in Hs. apply orb_false_iff in Hs. apply negb_true_iff. tauto.
  - cbn [map pairwise_distinct]. rewrite Hd, andb_true_r. apply negb_true_iff.
    destruct (existsb (eqb (key a)) (map key (unique key eqb (key a :: seen) l))) eqn:X;
      [|reflexivity].
    apply existsb_exists in X. destruct X as [k [Hk Ek]].
    apply in_map_iff in Hk. destruct Hk as [b [<- Hb]].
    unfold unseen in Hs. rewrite forallb_forall in Hs. specialize (Hs b Hb).
    cbn [existsb] in Hs. apply negb_true_iff in Hs. apply orb_false_iff in Hs.
    rewrite eqb_sym in Ek. destruct Hs as [Hs _]. congruence.
Qed.

Lemma unique_incl l : forall seen a, In a (unique key eqb seen l) -> In a l.
Proof.
  induction l as [|b l IH]; intros seen a H; [exact H|]. cbn [unique] in H.
  destruct (existsb (eqb (key b)) seen).
  - right. eapply IH; eauto.
  - destruct H as [->|H]; [now left | right; eapply IH; eauto].
Qed.

End Unique.

Lemma unique_components_unique seen cs :
  unique_components seen cs = unique component_key component_key_eqb seen cs.
Proof.
  revert seen. induction cs as [|c cs IH]; intro seen; [reflexivity|].
  cbn [unique_components unique]. now rewrite !IH.
Qed.

Lemma unique_wires_unique seen ws :
  unique_wires seen ws = unique wire_key wire_key_eqb seen ws.
Proof.
  revert seen. induction ws as [|w ws IH]; intro seen; [reflexivity|].
  cbn [unique_wires unique]. now rewrite !IH.
Qed.

Lemma suppress_distinct ls :
  forall seen,
    forallb (fun l => negb (existsb (String.eqb l) seen)) ls = true ->
    distinct ls = true ->
    suppress seen ls = ls.
Proof.
  intros seen H D.
  assert (E : forall s l, suppress s l = unique (fun x : string => x) String.eqb s l).
  { intros s l. revert s. induction l as [|a l IH]; intro s; [reflexivity|].
    cbn [suppress unique]. now rewrite !IH. }
  rewrite E. apply unique_id.
  - apply String.eqb_sym.
  - exact H.
  - rewrite map_id. clear -D. induction ls as [|a l IH]; [reflexivity|].
    cbn [distinct pairwise_distinct] in *. apply andb_true_iff in D. destruct D as [D1 D2].
    now rewrite D1, IH.
Qed.

Lemma wire_line_tokens w :
  wire_line w
  = join " " ["WIRE"; str (x1 (normalize w)); str (y1 (normalize w));
              str (x2 (normalize w)); str (y2 (normalize w))]
  /\ forallb is_token ["WIRE"; str (x1 (normalize w)); str (y1 (normalize w));
                       str (x2 (normalize w)); str (y2 (normalize w))] = true.
Proof. split; [reflexivity|]. cbn [forallb]. now rewrite !str_token. Qed.

Lemma flag_line_tokens f :
  wf_flag f = true ->
  flag_line f = join " " ["FLAG"; str (flag_x f); str (flag_y f); net_name f]
  /\ forallb is_token ["FLAG"; str (flag_x f); str (flag_y f); net_name f] = true.
Proof.
  unfold wf_flag. intro H. split; [reflexivity|]. cbn [forallb].
  now rewrite !str_token, H.
Qed.

Lemma forallb_flat_map {A B} (p : B -> bool) (g : A -> list B) (l : list A) :
  forallb (fun a => forallb p (g a)) l = true -> forallb p (flat_map g l) = true.
Proof.
  induction l as [|a l IH]; [reflexivity|]. cbn [forallb flat_map]. intro H.
  apply andb_true_iff in H. destruct H as [H1 H2]. now rewrite forallb_app, H1, IH.
Qed.

Lemma component_lines_no_newline c :
  wf_component c = true -> forallb no_newline (component_lines c) = true.
Proof.
  intro H. unfold component_lines. cbn [forallb].
  destruct (symbol_line_tokens c H) as [-> T]. rewrite (join_no_newline _ T).
  destruct (wf_component_parts c H) as (_ & _ & H3 & _).
  apply forallb_forall. intros l Hl. apply in_map_iff in Hl. destruct Hl as [kv [<- Hkv]].
  rewrite forallb_forall in H3. destruct (attr_line_tokens kv (H3 _ Hkv)) as [-> T'].
  now apply join_no_newline.
Qed.

Lemma all_lines_no_newline s :
  wf_tokens s = true -> forallb no_newline (all_lines s) = true.
Proof.
  unfold wf_tokens. intro H.
  apply andb_true_iff in H. destruct H as [H Hf].
  apply andb_true_iff in H. destruct H as [Hv Hc].
  unfold all_lines. rewrite !forallb_app. repeat (apply andb_true_iff; split).
  - destruct (cd_version s) as [v|]; [|reflexivity]. cbn [forallb wf_version] in *.
    rewrite andb_true_r.
    apply (join_no_newline ["Version"; v]). cbn [forallb]. now rewrite Hv.
  - destruct (cd_sheet s) as [sh|]; [|reflexivity]. cbn [forallb]. rewrite andb_true_r.
    apply (join_no_newline ["SHEET"; str (number sh); str (width sh); str (height sh)]).
    cbn [forallb]. now rewrite !str_token.
  - apply forallb_flat_map. apply forallb_forall. intros c Hin.
    rewrite forallb_forall in Hc. now apply component_lines_no_newline, Hc.
  - apply forallb_forall. intros l Hl. apply in_map_iff in Hl. destruct Hl as [w [<- _]].
    destruct (wire_line_tokens w) as [-> T]. now apply join_no_newline.
  - apply forallb_forall. intros l Hl. apply in_map_iff in Hl. destruct Hl as [f [<- Hin]].
    rewrite forallb_forall in Hf. destruct (flag_line_tokens f (Hf _ Hin)) as [-> T].
    now apply join_no_newline.
Qed.

Lemma map_flat_map {A B C} (f : B -> C) (g : A -> list B) (l : list A) :
  map f (flat_map g l) = flat_map (fun a => map f (g a)) l.
Proof.
  induction l as [|a l IH]; [reflexivity|]. cbn [flat_map]. now rewrite map_app, IH.
Qed.

Lemma no_attr_head_tail ws fs :
  forallb wf_flag fs = true ->
  no_attr_head (map raw (map wire_line ws) ++ map raw (map flag_line fs)) = true.
Proof.
  intro H. destruct ws as [|w ws].
  - destruct fs as [|f fs]; [reflexivity|]. cbn [map app no_attr_head].
    cbn [forallb] in H. apply andb_true_iff in H. destruct H as [Hf _].
    destruct (flag_line_tokens f Hf) as [-> T].
    rewrite strip_raw by (discriminate || exact T). reflexivity.
  - cbn [map app no_attr_head]. destruct (wire_line_tokens w) as [-> T].
    rewrite strip_raw by (discriminate || exact T). reflexivity.
Qed.

Lemma parse_loop_all_lines (s : CircuitData) :
  wf_tokens s = true ->
  ids_from 1 (cd_components s) = true ->
  forallb normalized (cd_wires s) = true ->
  parse_loop init (map raw (all_lines s))
  = ret (mkParser (cd_components s) (cd_wires s) (cd_flags s) (cd_version s)
                  (cd_sheet s) (Z.of_nat (List.length (cd_components s)))).
Proof.
  intros Ht Hi Hn. unfold wf_tokens in Ht.
  apply andb_true_iff in Ht. destruct Ht as [Ht Hf].
  apply andb_true_iff in Ht. destruct Ht as [Hv Hc].
  unfold all_lines. rewrite !map_app, map_flat_map.
  change (fun l : string => (l ++ nl)%string) with raw.
  fold (block_lines (cd_components s)).
  set (tail := block_lines (cd_components s) ++ _).
  assert (T : forall st,
             component_counter st = 0 -> components st = [] -> wires st = [] ->
             flags st = [] ->
             parse_loop st tail
             = ret (mkParser (cd_components s) (cd_wires s) (cd_flags s) (version st)
                             (sheet st) (Z.of_nat (List.length (cd_components s))))).
  { intros st E0 E1 E2 E3. unfold tail.
    rewrite parse_components; try assumption.
    2:{ now rewrite E0. }
    2:{ now apply no_attr_head_tail. }
    rewrite parse_wires by assumption. rewrite parse_flags by assumption.
    cbn [components wires flags version sheet component_counter].
    now rewrite E0, E1, E2, E3. }
  destruct (cd_version s) as [v|], (cd_sheet s) as [sh|]; cbn [map app];
    rewrite ?parse_version_line by exact Hv; rewrite ?parse_sheet_line_ok;
    now rewrite T.
Qed.

(** Reading back the text of a document whose ids are in sequence and
    whose wires are normalized gives its de-duplicated form. *)
Lemma parse_serialize_deduplicated (s : CircuitData) :
  wf_tokens s = true ->
  ids_from 1 (cd_components s) = true ->
  forallb normalized (cd_wires s) = true ->
  distinct (all_lines s) = true ->
  parse (serialize s) = inr (deduplicated s).
Proof.
  intros Ht Hi Hn Hd. unfold parse, serialize, emitted_lines.
  rewrite suppress_distinct by (assumption || now apply forallb_forall).
  fold raw. rewrite readlines_unlines by now apply all_lines_no_newline.
  unfold parse_lines. rewrite parse_loop_all_lines by assumption.
  reflexivity.
Qed.

(** Reading back the text of a well-formed document gives the document. *)
Lemma parse_serialize (s : CircuitData) :
  wf_document s = true -> parse (serialize s) = inr s.
Proof.
  unfold wf_document. intro H.
  apply andb_true_iff in H. destruct H as [H Hk].
  apply andb_true_iff in H. destruct H as [H Hd].
  apply andb_true_iff in H. destruct H as [H Hn].
  apply andb_true_iff in H. destruct H as [Ht Hi].
  rewrite parse_serialize_deduplicated by assumption.
  unfold keys_distinct in Hk. apply andb_true_iff in Hk. destruct Hk as [Hkc Hkw].
  unfold deduplicated. rewrite unique_components_unique, unique_wires_unique.
  rewrite !unique_id; try assumption; try reflexivity;
    try apply component_key_eqb_sym; try apply wire_key_eqb_sym;
    try (now apply forallb_forall).
  now destruct s.
Qed.

(** *** What the parser returns is well formed *)

Lemma index_token parts i t :
  forallb is_token parts = true -> index parts i = inr t -> is_token t = true.
Proof.
  intros H E. unfold index in E. destruct (nth_error parts i) as [a|] eqn:N; [|discriminate].
  injection E as <-. rewrite forallb_forall in H. eapply H, nth_error_In; eauto.
Qed.

Ltac bind_inv H :=
  match type of H with
  | bind ?m _ = inr _ =>
      let E := fresh "E" in
      destruct m eqn:E; cbn [bind] in H; [discriminate H|]
  end.

Lemma symbol_line_wf st line c st1 :
  _parse_symbol_line st line = inr (c, st1) ->
  wf_state st -> wf_component c = true /\ wf_state st1.
Proof.
  unfold _parse_symbol_line. intros H W.
  pose proof (split_tokens line) as T.
  repeat bind_inv H. injection H as <- <-.
  split; [|exact W].
  unfold wf_component. cbn [type rotation attributes forallb map distinct].
  rewrite (index_token _ _ _ T E), (index_token _ _ _ T E4). reflexivity.
Qed.

Lemma map_fst_dict_set d k v :
  map fst (dict_set d k v)
  = if existsb (String.eqb k) (map fst d) then map fst d else map fst d ++ [k].
Proof.
  induction d as [|[k' v'] d IH]; [reflexivity|]. cbn [dict_set map fst existsb].
  rewrite (String.eqb_sym k k'). destruct (k' =? k)%string eqn:E; [reflexivity|].
  cbn [map fst orb]. rewrite IH. now destruct (existsb _ _).
Qed.

Lemma distinct_snoc l k :
  distinct l = true -> existsb (String.eqb k) l = false -> distinct (l ++ [k]) = true.
Proof.
  induction l as [|a l IH]; [reflexivity|]. cbn [distinct existsb app]. intros H N.
  apply andb_true_iff in H. destruct H as [H1 H2].
  apply orb_false_iff in N. destruct N as [N1 N2].
  rewrite (IH H2 N2), andb_true_r. apply negb_true_iff. rewrite existsb_app.
  apply negb_true_iff in H1. rewrite H1. cbn [existsb orb].
  now rewrite String.eqb_sym, N1.
Qed.

Lemma dict_set_wf d k v :
  forallb wf_attr d = true -> wf_attr (k, v) = true ->
  forallb wf_attr (dict_set d k v) = true.
Proof.
  intros H Hkv. induction d as [|[k' v'] d IH]; cbn [dict_set forallb].
  - now rewrite Hkv.
  - cbn [forallb] in H. apply andb_true_iff in H. destruct H as [H1 H2].
    destruct (k' =? k)%string eqn:E.
    + apply String.eqb_eq in E. subst k'. cbn [forallb]. now rewrite Hkv, H2.
    + cbn [forallb]. now rewrite H1, IH.
Qed.

Lemma value_wf toks :
  forallb is_token toks = true ->
  (join " " (split (join " " toks)) =? join " " toks)%string = true.
Proof. intro H. rewrite split_join by exact H. apply String.eqb_refl. Qed.

Lemma forallb_skipn {A} (p : A -> bool) n l :
  forallb p l = true -> forallb p (skipn n l) = true.
Proof.
  revert l. induction n as [|n IH]; intros l H; [exact H|].
  destruct l as [|a l]; [reflexivity|]. cbn [skipn]. cbn [forallb] in H.
  apply andb_true_iff in H. now apply IH.
Qed.

Lemma symattr_line_wf c line c' :
  _add_symattr_to_component c line = inr c' ->
  wf_component c = true -> wf_component c' = true.
Proof.
  unfold _add_symattr_to_component. intros H W.
  pose proof (split_tokens line) as T.
  bind_inv H. injection H as <-.
  destruct (wf_component_parts c W) as (H1 & H2 & H3 & H4).
  unfold wf_component. cbn [type rotation attributes]. rewrite H1, H2. cbn [andb].
  pose proof (index_token _ _ _ T E) as Hs.
  set (key := if (s =? "InstName")%string then "name"%string else s).
  match goal with |- context [dict_set _ _ ?v] => set (value := v) end.
  assert (Hkv : wf_attr (key, value) = true).
  { unfold wf_attr. cbn [fst snd]. repeat (apply andb_true_iff; split).
    - unfold key. destruct (s =? "InstName")%string; [reflexivity | exact Hs].
    - unfold key. destruct (s =? "InstName")%string eqn:X; [reflexivity|].
      now rewrite X.
    - unfold value. destruct (2 <? List.length (split line))%nat; [|reflexivity].
      apply (value_wf (skipn 2 (split line))). now apply forallb_skipn. }
  rewrite (dict_set_wf _ _ _ H3 Hkv). cbn [andb].
  rewrite map_fst_dict_set. destruct (existsb _ _) eqn:X; [exact H4|].
  now apply distinct_snoc.
Qed.

Lemma flag_line_wf line f :
  _parse_flag_line line = inr f -> wf_flag f = true.
Proof.
  unfold _parse_flag_line. intro H. pose proof (split_tokens line) as T.
  repeat bind_inv H. injection H as <-. exact (index_token _ _ _ T E3).
Qed.

Lemma forallb_snoc {A} (p : A -> bool) l a :
  forallb p l = true -> p a = true -> forallb p (l ++ [a]) = true.
Proof. intros H Ha. rewrite forallb_app, H. cbn [forallb]. now rewrite Ha. Qed.

Lemma loops_wf lines :
  (forall st st', wf_state st -> parse_loop st lines = inr st' -> wf_state st')
  /\ (forall self1 c st',
        wf_state self1 -> wf_component c = true ->
        attrs_loop self1 c lines = inr st' -> wf_state st').
Proof.
  induction lines as [|r rest [IHo IHi]].
  - split.
    + intros st st' W E. injection E as <-. exact W.
    + intros self1 c st' (W1 & W2 & W3) Wc E. injection E as <-.
      repeat split; try assumption. cbn [append_component components].
      now apply forallb_snoc.
  - assert (Ho : forall st st',
               wf_state st -> parse_loop st (r :: rest) = inr st' -> wf_state st').
    { intros st st' W E. rewrite parse_loop_cons in E. cbv zeta in E.
      destruct (startswith (strip r) "Version").
      { bind_inv E. apply (IHo _ _ ) in E; [exact E|].
        destruct W as (W1 & W2 & W3). repeat split; try assumption.
        cbn [set_version version wf_version].
        exact (index_token _ _ _ (split_tokens _) E0). }
      destruct (startswith (strip r) "SHEET").
      { bind_inv E. apply (IHo _ _) in E; [exact E|]. exact W. }
      destruct (startswith (strip r) "SYMBOL").
      { bind_inv E. destruct p as [c st1]. cbn [fst snd] in E.
        destruct (symbol_line_wf _ _ _ _ E0 W) as [Wc W1].
        exact (IHi _ _ _ W1 Wc E). }
      destruct (startswith (strip r) "WIRE").
      { bind_inv E. apply (IHo _ _) in E; [exact E|]. exact W. }
      destruct (startswith (strip r) "FLAG").
      { bind_inv E. apply (IHo _ _) in E; [exact E|].
        destruct W as (W1 & W2 & W3). repeat split; try assumption.
        cbn [append_flag flags]. apply forallb_snoc; [exact W2|].
        exact (flag_line_wf _ _ E0). }
      exact (IHo _ _ W E). }
    split; [exact Ho|].
    intros self1 c st' W Wc E. rewrite attrs_loop_cons in E.
    destruct (startswith (strip r) "SYMATTR").
    + bind_inv E. exact (IHi _ _ _ W (symattr_line_wf _ _ _ E0 Wc) E).
    + apply (Ho _ _) in E; [exact E|].
      destruct W as (W1 & W2 & W3). repeat split; try assumption.
      cbn [append_component components]. now apply forallb_snoc.
Qed.

Lemma parse_lines_wf lines s :
  parse_lines lines = inr s -> wf_tokens s = true /\ keys_distinct s = true.
Proof.
  unfold parse_lines. intro H. bind_inv H. injection H as <-.
  destruct (loops_wf lines) as [W _].
  destruct (W init a (conj eq_refl (conj eq_refl eq_refl)) E) as (W1 & W2 & W3).
  unfold wf_tokens, keys_distinct, _to_json, _remove_duplicate_wires,
    _remove_duplicate_components.
  cbn [cd_version cd_components cd_flags cd_wires components wires flags version sheet].
  rewrite unique_components_unique, unique_wires_unique. split.
  - rewrite W3, W2. cbn [andb]. rewrite andb_true_r.
    apply forallb_forall. intros c Hc. apply unique_incl in Hc.
    rewrite forallb_forall in W1. now apply W1.
  - apply andb_true_iff. split.
    + apply unique_distinct, component_key_eqb_sym.
    + apply unique_distinct, wire_key_eqb_sym.
Qed.

(** *** The round trip up to structural equality *)

Lemma ids_from_numbered cs : forall n, ids_from n (numbered n cs) = true.
Proof.
  induction cs as [|c cs IH]; intro n; [reflexivity|].
  cbn [numbered ids_from id]. now rewrite String.eqb_refl, IH.
Qed.

Lemma numbered_same cs : forall n, Forall2 same_component (numbered n cs) cs.
Proof.
  induction cs as [|c cs IH]; intro n; constructor; [|apply IH].
  repeat split.
Qed.

Lemma block_lines_numbered cs :
  forall n, flat_map component_lines (numbered n cs) = flat_map component_lines cs.
Proof.
  induction cs as [|c cs IH]; intro n; [reflexivity|].
  cbn [numbered flat_map]. now rewrite IH.
Qed.

Lemma wf_component_numbered cs :
  forall n, forallb wf_component (numbered n cs) = forallb wf_component cs.
Proof.
  induction cs as [|c cs IH]; intro n; [reflexivity|].
  cbn [numbered forallb]. now rewrite IH.
Qed.

Lemma normalize_normalized w : normalized (normalize w) = true.
Proof.
  unfold normalized, normalize.
  destruct (x2 w ^ 2 + y2 w ^ 2 <? x1 w ^ 2 + y1 w ^ 2)%Z eqn:E; cbn [x1 y1 x2 y2].
  - apply negb_true_iff. apply Z.ltb_lt in E. apply Z.ltb_ge. lia.
  - now rewrite E.
Qed.

Lemma normalize_same w : same_segment (normalize w) w.
Proof.
  unfold same_segment, normalize.
  destruct (x2 w ^ 2 + y2 w ^ 2 <? x1 w ^ 2 + y1 w ^ 2)%Z; [now right | now left].
Qed.

Lemma wire_line_normalize w : wire_line (normalize w) = wire_line w.
Proof.
  unfold wire_line. now rewrite (normalized_normalize _ (normalize_normalized w)).
Qed.

Lemma all_lines_canonical s : all_lines (canonical s) = all_lines s.
Proof.
  unfold all_lines, canonical. cbn [cd_version cd_sheet cd_components cd_wires cd_flags].
  rewrite block_lines_numbered, map_map.
  now rewrite (map_ext _ _ wire_line_normalize).
Qed.

Lemma wf_tokens_canonical s : wf_tokens (canonical s) = wf_tokens s.
Proof.
  unfold wf_tokens, canonical. cbn [cd_version cd_components cd_flags].
  now rewrite wf_component_numbered.
Qed.

Lemma same_component_key c1 c2 :
  same_component c1 c2 -> component_key c1 = component_key c2.
Proof.
  intros (E1 & E2 & E3 & E4 & E5). unfold component_key. now rewrite E1, E2, E3, E4, E5.
Qed.

Lemma same_segment_key w1 w2 : same_segment w1 w2 -> wire_key w1 = wire_key w2.
Proof.
  intros [->| ->]; [reflexivity|].
  destruct w2 as [a b c d]. unfold wire_key, pair_min, pair_max, pair_ltb.
  cbn [x1 y1 x2 y2 fst snd].
  destruct (Z.ltb_spec a c), (Z.ltb_spec c a), (Z.eqb_spec a c), (Z.eqb_spec c a),
    (Z.ltb_spec b d), (Z.ltb_spec d b);
    cbn [orb andb fst snd]; try lia; try reflexivity; f_equal; f_equal; f_equal; lia.
Qed.

(** The loop that removes duplicates keeps the same positions of two
    lists whose elements have the same keys. *)
Lemma unique_Forall2 {A K : Type} (key : A -> K) (eqb : K -> K -> bool)
  (R : A -> A -> Prop) :
  (forall a b, R a b -> key a = key b) ->
  forall l1 l2, Forall2 R l1 l2 ->
    forall seen, Forall2 R (unique key eqb seen l1) (unique key eqb seen l2).
Proof.
  intros HR l1 l2 H. induction H as [|a b l1 l2 Hab H IH]; intro seen; [constructor|].
  cbn [unique]. rewrite (HR a b Hab).
  destruct (existsb (eqb (key b)) seen); [apply IH|].
  constructor; [exact Hab | apply IH].
Qed.

Lemma canonical_deduplicated s :
  structurally_equal (deduplicated (canonical s)) (deduplicated s).
Proof.
  unfold structurally_equal, deduplicated, canonical.
  cbn [cd_version cd_sheet cd_components cd_wires cd_flags].
  rewrite !unique_components_unique, !unique_wires_unique.
  repeat split.
  - apply (unique_Forall2 _ _ _ same_component_key), numbered_same.
  - apply (unique_Forall2 _ _ _ same_segment_key).
    induction (cd_wires s) as [|w ws IH]; constructor; [apply normalize_same | exact IH].
Qed.

Lemma deduplicated_parsed lines s : parse_lines lines = inr s -> deduplicated s = s.
Proof.
  intro H. destruct (parse_lines_wf _ _ H) as [_ Hk].
  unfold keys_distinct in Hk. apply andb_true_iff in Hk. destruct Hk as [Hc Hw].
  unfold deduplicated. rewrite unique_components_unique, unique_wires_unique.
  rewrite !unique_id; try assumption; try reflexivity;
    try apply component_key_eqb_sym; try apply wire_key_eqb_sym;
    try (now apply forallb_forall).
  now destruct s.
Qed.

Lemma round_trip_of_document (s : CircuitData) :
  wf_tokens s = true -> distinct (all_lines s) = true ->
  parse (serialize s) = inr (deduplicated (canonical s)).
Proof.
  intros Ht Hd.
  assert (E : serialize s = serialize (canonical s)).
  { unfold serialize, emitted_lines. now rewrite all_lines_canonical. }
  rewrite E. apply parse_serialize_deduplicated.
  - now rewrite wf_tokens_canonical.
  - apply ids_from_numbered.
  - unfold canonical. cbn [cd_wires]. apply forallb_forall. intros w Hw.
    apply in_map_iff in Hw. destruct Hw as [w0 [<- _]]. apply normalize_normalized.
  - now rewrite all_lines_canonical.
Qed.

Lemma distinct_pairwise l : distinct l = pairwise_distinct String.eqb l.
Proof.
  induction l as [|a l IH]; [reflexivity|].
  cbn [distinct pairwise_distinct]. now rewrite IH.
Qed.

(** What the serializer emits has no line twice. *)
Lemma emitted_lines_distinct s : distinct (emitted_lines s) = true.
Proof.
  unfold emitted_lines.
  assert (E : forall seen l, suppress seen l = unique (fun x : string => x) String.eqb seen l).
  { intros seen l. revert seen. induction l as [|a l IH]; intro seen; [reflexivity|].
    cbn [suppress unique]. now rewrite !IH. }
  rewrite E, distinct_pairwise.
  destruct (unique_distinct (fun x : string => x) String.eqb String.eqb_sym (all_lines s) [])
    as [_ D].
  now rewrite map_id in D.
Qed.

Lemma suppresses_nothing_distinct s : suppresses_nothing s -> distinct (all_lines s) = true.
Proof. unfold suppresses_nothing. intros <-. apply emitted_lines_distinct. Qed.

Lemma wf_tokens_deduplicated s : wf_tokens s = true -> wf_tokens (deduplicated s) = true.
Proof.
  unfold wf_tokens, deduplicated. cbn [cd_version cd_components cd_flags]. intro H.
  apply andb_true_iff in H. destruct H as [H Hf].
  apply andb_true_iff in H. destruct H as [Hv Hc].
  rewrite Hv, Hf, andb_true_r. cbn [andb].
  apply forallb_forall. intros c Hi. rewrite unique_components_unique in Hi.
  apply unique_incl in Hi. rewrite forallb_forall in Hc. now apply Hc.
Qed.

Lemma deduplicated_twice s : deduplicated (deduplicated s) = deduplicated s.
Proof.
  unfold deduplicated. cbn [cd_version cd_sheet cd_components cd_wires cd_flags].
  rewrite !unique_components_unique, !unique_wires_unique.
  destruct (unique_distinct component_key component_key_eqb component_key_eqb_sym
              (cd_components s) []) as [Sc Dc].
  destruct (unique_distinct wire_key wire_key_eqb wire_key_eqb_sym (cd_wires s) [])
    as [Sw Dw].
  rewrite (unique_id component_key component_key_eqb component_key_eqb_sym _ [] Sc Dc).
  now rewrite (unique_id wire_key wire_key_eqb wire_key_eqb_sym _ [] Sw Dw).
Qed.

(** When the serializer suppresses the duplicates and no other line, the
    text is the text of the de-duplicated form. *)
Lemma serialize_deduplicated s :
  suppresses_duplicates s ->
  serialize s = serialize (deduplicated s)
  /\ distinct (all_lines (deduplicated s)) = true.
Proof.
  unfold suppresses_duplicates. intro H.
  assert (D : distinct (all_lines (deduplicated s)) = true).
  { rewrite <- H. apply emitted_lines_distinct. }
  split; [|exact D]. unfold serialize. rewrite H. unfold emitted_lines.
  rewrite suppress_distinct by (exact D || now apply forallb_forall). reflexivity.
Qed.

(** C1, for the serializer of the specification.  Structural equality
    leaves the generated ids out and takes a wire as an undirected
    segment.  Reading back the text of a parsed document gives a document
    structurally equal to it, provided the serializer suppresses no line
    of it, that is no line of its text is repeated.  Reading back the text
    of a document built directly, with well-formed tokens, gives a
    document structurally equal to its de-duplicated form, provided the
    serializer suppresses no line, or the lines of the duplicates and no
    other. *)
Theorem round_trip :
  (forall (text : string) (s : CircuitData),
      parse text = inr s ->
      suppresses_nothing s ->
      exists s', parse (serialize s) = inr s' /\ structurally_equal s' s)
  /\ (forall S : CircuitData,
         wf_tokens S = true ->
         suppresses_nothing S \/ suppresses_duplicates S ->
         exists s', parse (serialize S) = inr s'
                    /\ structurally_equal s' (deduplicated S)).
Proof.
  assert (B : forall S : CircuitData,
             wf_tokens S = true -> distinct (all_lines S) = true ->
             exists s', parse (serialize S) = inr s'
                        /\ structurally_equal s' (deduplicated S)).
  { intros S Ht Hd. exists (deduplicated (canonical S)).
    split; [now apply round_trip_of_document | apply canonical_deduplicated]. }
  split.
  - intros text s H Hs. destruct (parse_lines_wf _ _ H) as [Ht _].
    destruct (B s Ht (suppresses_nothing_distinct s Hs)) as (s' & E & Q).
    exists s'. split; [exact E|].
    now rewrite (deduplicated_parsed _ _ H) in Q.
  - intros S Ht [Hs|Hs].
    + now apply B, suppresses_nothing_distinct.
    + destruct (serialize_deduplicated S Hs) as [E D].
      destruct (B (deduplicated S) (wf_tokens_deduplicated S Ht) D) as (s' & E' & Q).
      exists s'. rewrite E. split; [exact E'|].
      now rewrite deduplicated_twice in Q.
Qed.

Lemma round_trip_witness :
  (parse scenario_twice = inr document_twice
   /\ exists s', parse (serialize document_twice) = inr s'
                 /\ structurally_equal s' document_twice)
  /\ (exists s', parse (serialize document_built) = inr s'
                 /\ structurally_equal s' (deduplicated document_built))
  /\ exists s', parse (serialize document_copies) = inr s'
                /\ structurally_equal s' (deduplicated document_copies).
Proof.
  split; [split; [vm_compute; reflexivity|]|split].
  - apply (proj1 round_trip scenario_twice document_twice); vm_compute; reflexivity.
  - apply (proj2 round_trip document_built); [|left]; vm_compute; reflexivity.
  - apply (proj2 round_trip document_copies); [|right]; vm_compute; reflexivity.
Defined.

(** C1 as stated fails, however structural equality compares components
    and wires: of two identical flag lines the serializer writes one, and
    the second parse has one flag where the first has two. *)
Lemma round_trip_fails :
  ~ (forall (text : string) (s : CircuitData),
        parse text = inr s ->
        exists s', parse (serialize s) = inr s' /\ structurally_equal s' s).
Proof.
  intro H.
  destruct (H scenario_flags document_flags eq_refl) as (s' & E & Q).
  vm_compute in E. injection E as <-.
  destruct Q as (_ & _ & _ & _ & F). discriminate F.
Qed.

(** The same on two resistors of the same value: the second attribute
    line is not written and the second resistor loses its value. *)
Example round_trip_fails_on_values :
  parse scenario_values = inr document_values
  /\ parse (serialize document_values)
     = inr (mkCircuit None None
              [mkComponent "comp_1" "res" 0 0 "R0" [("name", "R1"); ("Value", "1k")];
               mkComponent "comp_2" "res" 96 0 "R0" [("name", "R2")]]
              [] []).
Proof. split; vm_compute; reflexivity. Qed.

(** The equality of the round trip is structural only: the ids are
    numbered again and a wire is written from its nearer end. *)
Example round_trip_changes_ids_and_ends :
  parse (serialize document_twice)
  = inr (mkCircuit None None
           [mkComponent "comp_1" "res" 0 0 "R0" [("name", "R1")];
            mkComponent "comp_2" "cap" 16 0 "R0" [("Value", "1u")]]
           [mkWire 0 0 100 0] []).
Proof. vm_compute. reflexivity. Qed.

End RoundTripProps.

(** ** Duplicates, ids and lines of the parser *)

Module DocumentProps.
Import Py ASC ParserSpec TextSpec RoundTripSpec DocumentSpec.
Import ParserProps TextProps RoundTripProps.
Local Open Scope string_scope.
Local Open Scope list_scope.
Local Open Scope py_scope.

Lemma component_key_eqb_eq a b : component_key_eqb a b = true <-> a = b.
Proof.
  destruct a as [[[[t x] y] r] n], b as [[[[t' x'] y'] r'] n']. unfold component_key_eqb.
  rewrite !andb_true_iff, !String.eqb_eq, !Z.eqb_eq. split.
  - intros [[[[-> ->] ->] ->] ->]. reflexivity.
  - intro H. injection H as -> -> -> -> ->. auto.
Qed.

Lemma wire_key_eqb_eq a b : wire_key_eqb a b = true <-> a = b.
Proof.
  destruct a as [[[a1 a2] a3] a4], b as [[[b1 b2] b3] b4]. unfold wire_key_eqb.
  rewrite !andb_true_iff, !Z.eqb_eq. split.
  - intros [[[-> ->] ->] ->]. reflexivity.
  - intro H. injection H as -> -> -> ->. auto.
Qed.

Section First.

Context {A K : Type} (key : A -> K) (eqb : K -> K -> bool).
Hypothesis eqb_eq : forall a b, eqb a b = true <-> a = b.

Lemma eqb_eq_sym a b : eqb a b = eqb b a.
Proof.
  destruct (eqb a b) eqn:E1, (eqb b a) eqn:E2; try reflexivity.
  - apply eqb_eq in E1. symmetry in E1. apply eqb_eq in E1. congruence.
  - apply eqb_eq in E2. symmetry in E2. apply eqb_eq in E2. congruence.
Qed.

Lemma unique_subsequence l : forall seen, subsequence (unique key eqb seen l) l.
Proof.
  induction l as [|a l IH]; intro seen; cbn [unique]; [constructor|].
  destruct (existsb (eqb (key a)) seen); constructor; apply IH.
Qed.

Lemma existsb_key k k' seen : eqb k k' = true -> existsb (eqb k) seen = existsb (eqb k') seen.
Proof. intro E. apply eqb_eq in E. now subst k'. Qed.

Lemma unique_find l k :
  forall seen,
    existsb (eqb k) seen = false ->
    find (fun a => eqb k (key a)) (unique key eqb seen l) = find (fun a => eqb k (key a)) l.
Proof.
  induction l as [|a l IH]; intros seen Hs; [reflexivity|]. cbn [unique find].
  destruct (eqb k (key a)) eqn:E.
  - rewrite <- (existsb_key _ _ seen E), Hs. cbn [find]. now rewrite E.
  - destruct (existsb (eqb (key a)) seen).
    + now apply IH.
    + cbn [find]. rewrite E. apply IH. cbn [existsb]. now rewrite E, Hs.
Qed.

Lemma unique_seen l :
  forall seen,
    (forall b, In b l -> existsb (eqb (key b)) seen = true) ->
    unique key eqb seen l = [].
Proof.
  induction l as [|a l IH]; intros seen H; [reflexivity|]. cbn [unique].
  rewrite (H a) by now left. apply IH. intros b Hb. apply H. now right.
Qed.

Lemma unique_app_duplicates l' l :
  forall seen,
    (forall b, In b l' ->
               existsb (eqb (key b)) seen = true \/ exists a, In a l /\ key b = key a) ->
    unique key eqb seen (l ++ l') = unique key eqb seen l.
Proof.
  induction l as [|a l IH]; intros seen H.
  - cbn [app unique]. apply unique_seen. intros b Hb.
    destruct (H b Hb) as [E|[a [[] _]]]. exact E.
  - cbn [app unique]. destruct (existsb (eqb (key a)) seen) eqn:E.
    + apply IH. intros b Hb. destruct (H b Hb) as [E'|[a' [[<-|Ha'] Ek]]].
      * now left.
      * left. now rewrite Ek.
      * right. now exists a'.
    + f_equal. apply IH. intros b Hb. destruct (H b Hb) as [E'|[a' [[<-|Ha'] Ek]]].
      * left. cbn [existsb]. now rewrite E', orb_true_r.
      * left. cbn [existsb]. rewrite Ek.
        assert (R : eqb (key a) (key a) = true) by now apply eqb_eq.
        now rewrite R.
      * right. now exists a'.
Qed.

Lemma unique_represents l a :
  forall seen,
    In a l ->
    existsb (eqb (key a)) seen = true
    \/ exists a', In a' (unique key eqb seen l) /\ key a = key a'.
Proof.
  induction l as [|b l IH]; intros seen Ha; [destruct Ha|]. cbn [unique].
  destruct Ha as [->|Ha].
  - destruct (existsb (eqb (key a)) seen) eqn:E; [now left|].
    right. exists a. split; [now left | reflexivity].
  - destruct (existsb (eqb (key b)) seen) eqn:E.
    + now apply IH.
    + destruct (IH (key b :: seen) Ha) as [E'|[a' [Ha' Ek]]].
      * cbn [existsb] in E'. apply orb_true_iff in E'. destruct E' as [E'|E'].
        -- right. exists b. split; [now left | now apply eqb_eq].
        -- now left.
      * right. exists a'. split; [now right | exact Ek].
Qed.

End First.

(** *** Removing duplicates *)

(** Removing the duplicates a second time changes nothing. *)
Theorem remove_duplicates_idempotent (self : ASCParser) :
  _remove_duplicate_components (_remove_duplicate_components self)
  = _remove_duplicate_components self
  /\ _remove_duplicate_wires (_remove_duplicate_wires self) = _remove_duplicate_wires self.
Proof.
  unfold _remove_duplicate_components, _remove_duplicate_wires.
  cbn [components wires flags version sheet component_counter]. split; f_equal.
  - rewrite !unique_components_unique.
    destruct (unique_distinct component_key component_key_eqb component_key_eqb_sym
                (components self) []) as [_ D].
    apply unique_id; [apply component_key_eqb_sym | | exact D].
    apply forallb_forall. reflexivity.
  - rewrite !unique_wires_unique.
    destruct (unique_distinct wire_key wire_key_eqb wire_key_eqb_sym (wires self) [])
      as [_ D].
    apply unique_id; [apply wire_key_eqb_sym | | exact D].
    apply forallb_forall. reflexivity.
Qed.

(** What is kept of the components and of the wires is a subsequence of
    what was read, in which no key occurs twice and in which every key has
    the element that came first with it. *)
Theorem first_occurrences_are_kept (self : ASCParser) :
  let cs := components (_remove_duplicate_components self) in
  let ws := wires (_remove_duplicate_wires self) in
  (subsequence cs (components self)
   /\ pairwise_distinct component_key_eqb (map component_key cs) = true
   /\ forall k, first_component k cs = first_component k (components self))
  /\ (subsequence ws (wires self)
      /\ pairwise_distinct wire_key_eqb (map wire_key ws) = true
      /\ forall k, first_wire k ws = first_wire k (wires self)).
Proof.
  cbv zeta. unfold _remove_duplicate_components, _remove_duplicate_wires.
  cbn [components wires]. rewrite unique_components_unique, unique_wires_unique.
  split; (split; [apply unique_subsequence | split]).
  - apply unique_distinct, component_key_eqb_sym.
  - intro k. apply (unique_find component_key component_key_eqb component_key_eqb_eq).
    reflexivity.
  - apply unique_distinct, wire_key_eqb_sym.
  - intro k. apply (unique_find wire_key wire_key_eqb wire_key_eqb_eq). reflexivity.
Qed.

Lemma wire_key_reversed w : wire_key (reversed w) = wire_key w.
Proof.
  destruct w as [a b c d]. unfold wire_key, reversed, pair_min, pair_max, pair_ltb.
  cbn [x1 y1 x2 y2 fst snd].
  destruct (Z.ltb_spec a c), (Z.ltb_spec c a), (Z.eqb_spec a c), (Z.eqb_spec c a),
    (Z.ltb_spec b d), (Z.ltb_spec d b);
    cbn [orb andb fst snd]; try lia; try reflexivity; f_equal; f_equal; f_equal; lia.
Qed.

(** A wire that was read is a duplicate when it comes again, drawn from
    either end: appended to the wires, it is removed with the duplicates. *)
Theorem reversed_wire_is_duplicate (self : ASCParser) (w : Wire) :
  In w (wires self) ->
  wires (_remove_duplicate_wires (append_wire self (reversed w)))
  = wires (_remove_duplicate_wires self)
  /\ wires (_remove_duplicate_wires (append_wire self w))
     = wires (_remove_duplicate_wires self).
Proof.
  intro H. unfold _remove_duplicate_wires, append_wire. cbn [wires].
  rewrite !unique_wires_unique.
  split; apply (unique_app_duplicates wire_key wire_key_eqb wire_key_eqb_eq);
    intros b [<-|[]]; right; exists w; split; auto using wire_key_reversed.
Qed.

Lemma reversed_wire_is_duplicate_witness :
  wires (_remove_duplicate_wires
           (append_wire (mkParser [] [mkWire 0 0 100 0; mkWire 100 0 100 64] [] None None 0)
                        (reversed (mkWire 100 0 100 64))))
  = [mkWire 0 0 100 0; mkWire 100 0 100 64].
Proof.
  apply (reversed_wire_is_duplicate
           (mkParser [] [mkWire 0 0 100 0; mkWire 100 0 100 64] [] None None 0)
           (mkWire 100 0 100 64)).
  cbn [wires In]. right. left. reflexivity.
Defined.

(** *** Component ids *)

Lemma comp_id_injective a b : comp_id a = comp_id b -> a = b.
Proof.
  unfold comp_id. intro H. cbn [append] in H. injection H as H.
  pose proof (int_str a) as Ha. rewrite H, int_str in Ha. congruence.
Qed.

Lemma sorted_snoc ks n :
  StronglySorted Z.lt ks -> Forall (fun k => k < n) ks -> StronglySorted Z.lt (ks ++ [n]).
Proof.
  induction 1 as [|k ks S IH F]; intro B; cbn [app].
  - repeat constructor.
  - inversion B as [|? ? Bk Bks]; subst. constructor; [now apply IH|].
    apply Forall_app. split; [exact F | now constructor].
Qed.

Lemma numbered_snoc n cs c :
  0 < n -> numbered_up_to (n - 1) cs -> id c = comp_id n -> numbered_up_to n (cs ++ [c]).
Proof.
  intros Hn (_ & ks & E & S & F) Hc. split; [lia|]. exists (ks ++ [n]).
  rewrite !map_app, E. cbn [map]. rewrite Hc. split; [reflexivity|]. split.
  - apply sorted_snoc; [exact S|]. eapply Forall_impl; [|exact F]. cbn beta. intros; lia.
  - apply Forall_app. split.
    + eapply Forall_impl; [|exact F]. cbn beta. intros; lia.
    + constructor; [lia | constructor].
Qed.

Lemma numbered_weaken n m cs : n <= m -> numbered_up_to n cs -> numbered_up_to m cs.
Proof.
  intros Hm (Hn & ks & E & S & F). split; [lia|]. exists ks. repeat split; try assumption.
  eapply Forall_impl; [|exact F]. cbn beta. intros; lia.
Qed.

Lemma numbered_subsequence n l' l :
  subsequence l' l -> numbered_up_to n l -> numbered_up_to n l'.
Proof.
  intros H (Hn & ks & E & S & F). split; [exact Hn|].
  enough (X : exists ks', map id l' = map comp_id ks' /\ StronglySorted Z.lt ks'
                          /\ Forall (fun k => 0 < k <= n) ks'
                          /\ forall j, In j ks' -> In j ks).
  { destruct X as (ks' & X1 & X2 & X3 & _). now exists ks'. }
  revert ks E S F.
  induction H as [|a l1 l2 H IH|a l1 l2 H IH]; intros ks E S F.
  - exists []. repeat split; try constructor. intros j [].
  - destruct ks as [|k ks]; [discriminate E|]. cbn [map] in E. injection E as _ E.
    inversion S; subst. inversion F; subst.
    destruct (IH ks) as (ks' & E' & S'' & F'' & I); try assumption.
    exists ks'. repeat split; try assumption. intros j Hj. right. auto.
  - destruct ks as [|k ks]; [discriminate E|]. cbn [map] in E. injection E as Ea E.
    inversion S as [|? ? S' Fk]; subst. inversion F as [|? ? Bk F']; subst.
    destruct (IH ks E S' F') as (ks' & E' & S'' & F'' & I).
    exists (k :: ks'). cbn [map]. rewrite Ea, E'. split; [reflexivity|]. split; [|split].
    + constructor; [exact S''|]. rewrite Forall_forall in Fk |- *. auto.
    + now constructor.
    + intros j [<-|Hj]; [now left | right; auto].
Qed.

Lemma symbol_line_id self line c self1 :
  _parse_symbol_line self line = inr (c, self1) ->
  id c = comp_id (component_counter self1)
  /\ components self1 = components self
  /\ component_counter self1 = component_counter self + 1.
Proof.
  unfold _parse_symbol_line. intro H. repeat bind_inv H. injection H as <- <-.
  repeat split.
Qed.

Lemma symattr_line_id c line c' : _add_symattr_to_component c line = inr c' -> id c' = id c.
Proof.
  unfold _add_symattr_to_component. intro H. bind_inv H. injection H as <-. reflexivity.
Qed.

Lemma loops_ids lines :
  (forall self st,
      numbered_up_to (component_counter self) (components self) ->
      parse_loop self lines = inr st ->
      numbered_up_to (component_counter st) (components st))
  /\ (forall self1 c st,
        numbered_up_to (component_counter self1 - 1) (components self1) ->
        0 < component_counter self1 ->
        id c = comp_id (component_counter self1) ->
        attrs_loop self1 c lines = inr st ->
        numbered_up_to (component_counter st) (components st)).
Proof.
  induction lines as [|r rest [IHo IHi]].
  - split.
    + intros self st N E. injection E as <-. exact N.
    + intros self1 c st N P Hc E. injection E as <-.
      cbn [append_component components component_counter]. now apply numbered_snoc.
  - assert (Ho : forall self st,
               numbered_up_to (component_counter self) (components self) ->
               parse_loop self (r :: rest) = inr st ->
               numbered_up_to (component_counter st) (components st)).
    { intros self st N E. rewrite parse_loop_cons in E. cbv zeta in E.
      destruct (startswith (strip r) "Version").
      { bind_inv E. now apply (IHo _ _) in E. }
      destruct (startswith (strip r) "SHEET").
      { bind_inv E. now apply (IHo _ _) in E. }
      destruct (startswith (strip r) "SYMBOL").
      { bind_inv E. destruct p as [c self1]. cbn [fst snd] in E.
        destruct (symbol_line_id _ _ _ _ E0) as (Hc & Hs & Hn).
        apply (IHi _ _ _) in E; [exact E | | | exact Hc].
        - rewrite Hs, Hn. now replace (component_counter self + 1 - 1)
            with (component_counter self) by lia.
        - destruct N as [N _]. lia. }
      destruct (startswith (strip r) "WIRE").
      { bind_inv E. now apply (IHo _ _) in E. }
      destruct (startswith (strip r) "FLAG").
      { bind_inv E. now apply (IHo _ _) in E. }
      exact (IHo _ _ N E). }
    split; [exact Ho|].
    intros self1 c st N P Hc E. rewrite attrs_loop_cons in E.
    destruct (startswith (strip r) "SYMATTR").
    + bind_inv E. apply (IHi _ _ _ N P) in E; [exact E|].
      now rewrite (symattr_line_id _ _ _ E0).
    + apply (Ho _ _) in E; [exact E|].
      cbn [append_component components component_counter]. now apply numbered_snoc.
Qed.

Lemma sorted_NoDup ks : StronglySorted Z.lt ks -> NoDup ks.
Proof.
  induction 1 as [|k ks S IH F]; constructor; [|exact IH].
  intro H. rewrite Forall_forall in F. specialize (F k H). lia.
Qed.

Lemma NoDup_comp_ids ks : NoDup ks -> NoDup (map comp_id ks).
Proof.
  induction 1 as [|k ks N _ IH]; cbn [map]; constructor; [|exact IH].
  intro H. apply in_map_iff in H. destruct H as (j & E & Hj).
  apply comp_id_injective in E. now subst j.
Qed.

(** The ids of a parsed document are comp_k for increasing positive
    numbers k, in the order of the components: no id occurs twice. *)
Theorem component_ids_are_distinct (text : string) (s : CircuitData) :
  parse text = inr s ->
  NoDup (map id (cd_components s))
  /\ exists ks, map id (cd_components s) = map comp_id ks
                /\ StronglySorted Z.lt ks /\ Forall (fun k => 0 < k) ks.
Proof.
  unfold parse, parse_lines. intro H. bind_inv H. injection H as <-.
  destruct (loops_ids (readlines text)) as [L _].
  assert (N0 : numbered_up_to (component_counter init) (components init)).
  { split; [cbn; lia|]. exists []. repeat split; constructor. }
  pose proof (L init a N0 E) as N.
  apply (numbered_subsequence _ (unique_components [] (components a))) in N.
  2:{ rewrite unique_components_unique. apply unique_subsequence. }
  destruct N as (_ & ks & Ek & S & F).
  cbn [_to_json _remove_duplicate_wires _remove_duplicate_components cd_components
         components].
  split.
  - rewrite Ek. now apply NoDup_comp_ids, sorted_NoDup.
  - exists ks. repeat split; try assumption.
    eapply Forall_impl; [|exact F]. cbn beta. intros; lia.
Qed.

Lemma component_ids_are_distinct_witness :
  NoDup (map id (cd_components document_A)).
Proof.
  apply (component_ids_are_distinct scenario_A document_A). vm_compute. reflexivity.
Defined.

(** *** Lines *)

Lemma loops_strip l1 :
  forall l2,
    map strip l1 = map strip l2 ->
    (forall self, parse_loop self l1 = parse_loop self l2)
    /\ (forall self1 c, attrs_loop self1 c l1 = attrs_loop self1 c l2).
Proof.
  induction l1 as [|r1 l1 IH]; intros [|r2 l2] H; try discriminate H.
  - split; reflexivity.
  - cbn [map] in H. injection H as Hr H. destruct (IH l2 H) as [IHo IHi].
    assert (Ho : forall self, parse_loop self (r1 :: l1) = parse_loop self (r2 :: l2)).
    { intro self. rewrite !parse_loop_cons. cbv zeta. rewrite <- Hr.
      repeat match goal with
             | |- (if ?b then _ else _) = _ => destruct b
             end;
        try (apply IHo);
        match goal with
        | |- bind ?m _ = _ => destruct m; cbn [bind]; [reflexivity | auto]
        end. }
    split; [exact Ho|].
    intros self1 c. rewrite !attrs_loop_cons, <- Hr.
    destruct (startswith (strip r1) "SYMATTR"); [|apply Ho].
    destruct (_add_symattr_to_component _ _); cbn [bind]; [reflexivity | apply IHi].
Qed.

(** White space at either end of a line has no meaning: two lists of lines
    that agree once every line is stripped parse to the same result. *)
Theorem surrounding_white_space_is_ignored (l1 l2 : list string) :
  map strip l1 = map strip l2 -> parse_lines l1 = parse_lines l2.
Proof.
  intro H. unfold parse_lines. destruct (loops_strip l1 l2 H) as [Ho _]. now rewrite Ho.
Qed.

Lemma surrounding_white_space_is_ignored_witness :
  parse_lines [("  Version 4" ++ nl)%string; "WIRE 0 0 100 0  "] = parse_lines ["Version 4"; "WIRE 0 0 100 0"].
Proof.
  apply (surrounding_white_space_is_ignored
           [("  Version 4" ++ nl)%string; "WIRE 0 0 100 0  "] ["Version 4"; "WIRE 0 0 100 0"]).
  vm_compute. reflexivity.
Defined.

Lemma unrecognized_line raw :
  recognized raw = false ->
  startswith (strip raw) "Version" = false /\ startswith (strip raw) "SHEET" = false
  /\ startswith (strip raw) "SYMBOL" = false /\ startswith (strip raw) "SYMATTR" = false
  /\ startswith (strip raw) "WIRE" = false /\ startswith (strip raw) "FLAG" = false.
Proof.
  unfold recognized. cbv zeta. intro H. repeat (apply orb_false_iff in H; destruct H as [H ?]).
  repeat split; assumption.
Qed.

Lemma attrs_loop_no_attribute self1 c post :
  next_is_no_attribute post = true ->
  attrs_loop self1 c post = parse_loop (append_component self1 c) post.
Proof.
  destruct post as [|r post]; [reflexivity|]. cbn [next_is_no_attribute]. unfold is_symattr.
  intro H. apply negb_true_iff in H. now rewrite attrs_loop_cons, H.
Qed.

Lemma unrecognized_skipped l post :
  recognized l = false ->
  forall pre,
    (forall self, fold_left block_step pre false = false \/ next_is_no_attribute post = true ->
                  parse_loop self (pre ++ l :: post) = parse_loop self (pre ++ post))
    /\ (forall self1 c, fold_left block_step pre true = false \/ next_is_no_attribute post = true ->
          attrs_loop self1 c (pre ++ l :: post) = attrs_loop self1 c (pre ++ post)).
Proof.
  intro Hl. destruct (unrecognized_line _ Hl) as (U1 & U2 & U3 & U4 & U5 & U6).
  assert (B : forall self, parse_loop self (l :: post) = parse_loop self post).
  { intro self. rewrite parse_loop_cons. cbv zeta. now rewrite U1, U2, U3, U5, U6. }
  induction pre as [|raw pre [IHo IHi]].
  - split; [intros self _; apply B|]. intros self1 c [H|H]; [discriminate H|].
    cbn [app]. rewrite attrs_loop_cons, U4, B. symmetry. now apply attrs_loop_no_attribute.
  - assert (Ho : forall self, fold_left block_step (raw :: pre) false = false
                              \/ next_is_no_attribute post = true ->
               parse_loop self ((raw :: pre) ++ l :: post)
               = parse_loop self ((raw :: pre) ++ post)).
    { intros self Hb. cbn [app fold_left] in *. rewrite !parse_loop_cons. cbv zeta.
      destruct (startswith (strip raw) "SYMATTR") eqn:Ea.
      { rewrite block_step_symattr in Hb by exact Ea.
        destruct (symattr_exclusive _ Ea) as (-> & -> & -> & -> & ->). now apply IHo. }
      destruct (startswith (strip raw) "SYMBOL") eqn:E3.
      { rewrite block_step_symbol in Hb by exact E3.
        destruct (symbol_exclusive _ E3) as (-> & ->).
        destruct (_parse_symbol_line self _); cbn [bind]; [reflexivity | now apply IHi]. }
      rewrite block_step_plain in Hb by assumption.
      destruct (startswith (strip raw) "Version").
      { destruct (index _ 1); cbn [bind]; [reflexivity | now apply IHo]. }
      destruct (startswith (strip raw) "SHEET").
      { destruct (parse_sheet_line _); cbn [bind]; [reflexivity | now apply IHo]. }
      destruct (startswith (strip raw) "WIRE").
      { destruct (_parse_wire_line _); cbn [bind]; [reflexivity | now apply IHo]. }
      destruct (startswith (strip raw) "FLAG").
      { destruct (_parse_flag_line _); cbn [bind]; [reflexivity | now apply IHo]. }
      now apply IHo. }
    split; [exact Ho|].
    intros self1 component Hb. cbn [app fold_left] in *. rewrite !attrs_loop_cons.
    destruct (startswith (strip raw) "SYMATTR") eqn:Ea.
    + destruct (_add_symattr_to_component _ _); cbn [bind]; [reflexivity|].
      apply IHi. now rewrite block_step_symattr in Hb by exact Ea.
    + apply (Ho (append_component self1 component)). cbn [fold_left].
      rewrite block_step_other in Hb by exact Ea. exact Hb.
Qed.

(** A line that starts with none of the six keywords, a blank line for
    one, is skipped, unless it stands between a symbol block and an
    attribute line: the parse of the text with the line equals the parse
    of the text without it. *)
Theorem unrecognized_line_is_skipped (pre : list string) (l : string) (post : list string) :
  recognized l = false ->
  in_symbol_block pre = false \/ next_is_no_attribute post = true ->
  parse_lines (pre ++ l :: post) = parse_lines (pre ++ post).
Proof.
  intros Hl H. unfold parse_lines.
  destruct (unrecognized_skipped l post Hl pre) as [Ho _]. now rewrite (Ho init H).
Qed.

Lemma unrecognized_line_is_skipped_witness :
  parse_lines (["SYMBOL res 100 100 R0"; "SYMATTR InstName R1"] ++ nl :: ["WIRE 0 0 100 0"])
  = parse_lines (["SYMBOL res 100 100 R0"; "SYMATTR InstName R1"] ++ ["WIRE 0 0 100 0"]).
Proof.
  apply (unrecognized_line_is_skipped ["SYMBOL res 100 100 R0"; "SYMATTR InstName R1"] nl
           ["WIRE 0 0 100 0"]).
  - reflexivity.
  - right. reflexivity.
Defined.

Lemma in_symbol_block_after pre l :
  is_symbol l = false -> is_symattr l = false -> in_symbol_block (pre ++ [l]) = false.
Proof.
  intros H1 H2. unfold in_symbol_block. rewrite fold_left_app. cbn [fold_left].
  now apply block_step_plain.
Qed.

(** Attribute lines belong to a symbol only when they follow its SYMBOL
    line at once: after any other line, a line that the parser does not
    recognize included, the attribute lines are dropped. *)
Theorem attributes_after_another_line_are_dropped
  (pre : list string) (l : string) (attrs post : list string) :
  is_symbol l = false -> is_symattr l = false ->
  forallb is_symattr attrs = true ->
  parse_lines (pre ++ l :: attrs ++ post) = parse_lines (pre ++ l :: post).
Proof.
  intros H1 H2. induction attrs as [|a attrs IH]; intro H; [reflexivity|].
  cbn [forallb] in H. apply andb_true_iff in H. destruct H as [Ha Hs].
  rewrite <- (IH Hs). cbn [app]. unfold parse_lines.
  destruct (orphan_skipped a (attrs ++ post) Ha (pre ++ [l])) as [Ho _].
  rewrite <- !app_assoc in Ho. cbn [app] in Ho.
  rewrite Ho; [reflexivity|]. now apply in_symbol_block_after.
Qed.

Lemma attributes_after_another_line_are_dropped_witness :
  parse_lines (["SYMBOL res 100 100 R0"] ++ "WINDOW 0 0 56 VBottom 2"
               :: ["SYMATTR InstName R1"; "SYMATTR Value 1k"] ++ ["WIRE 0 0 100 0"])
  = parse_lines (["SYMBOL res 100 100 R0"] ++ "WINDOW 0 0 56 VBottom 2" :: ["WIRE 0 0 100 0"]).
Proof.
  apply (attributes_after_another_line_are_dropped ["SYMBOL res 100 100 R0"]
           "WINDOW 0 0 56 VBottom 2" ["SYMATTR InstName R1"; "SYMATTR Value 1k"]
           ["WIRE 0 0 100 0"]); reflexivity.
Defined.

(** *** Line endings *)

Lemma readlines_crlf_line (l rest : string) :
  no_newline l = true ->
  readlines ((l ++ CRLF) ++ rest) = (l ++ nl)%string :: readlines rest.
Proof.
  induction l as [|c l IH]; intro H.
  - reflexivity.
  - cbn [no_newline] in H. apply andb_true_iff in H. destruct H as [H Hl].
    apply andb_true_iff in H. destruct H as [H1 H2].
    apply negb_true_iff in H1, H2.
    cbn [append readlines]. rewrite H1, H2.
    rewrite (IH Hl). reflexivity.
Qed.

Lemma readlines_crlf (ls : list string) :
  forallb no_newline ls = true ->
  readlines (text_of CRLF ls) = map (fun l => l ++ nl)%string ls.
Proof.
  unfold text_of. induction ls as [|l ls IH]; intro H; [reflexivity|].
  cbn [forallb] in H. apply andb_true_iff in H. destruct H as [Hl Hs].
  cbn [map]. rewrite concat_cons, readlines_crlf_line by assumption.
  now rewrite IH.
Qed.

Lemma readlines_last (l : string) :
  no_newline l = true -> l <> EmptyString -> readlines l = [l].
Proof.
  induction l as [|c l IH]; intros H Hn; [congruence|].
  cbn [no_newline] in H. apply andb_true_iff in H. destruct H as [H Hl].
  apply andb_true_iff in H. destruct H as [H1 H2]. apply negb_true_iff in H1, H2.
  cbn [readlines]. rewrite H1, H2. destruct l as [|c' l]; [reflexivity|].
  rewrite IH by (assumption || discriminate). reflexivity.
Qed.

Lemma readlines_text_last (ls : list string) (l : string) :
  forallb no_newline ls = true -> no_newline l = true -> l <> EmptyString ->
  readlines (text_of nl ls ++ l) = map (fun l => l ++ nl)%string ls ++ [l].
Proof.
  intros H Hl Hn. unfold text_of. induction ls as [|l0 ls IH].
  - cbn [map String.concat append app]. now apply readlines_last.
  - cbn [forallb] in H. apply andb_true_iff in H. destruct H as [H0 Hs].
    cbn [map app]. rewrite concat_cons, append_assoc, readlines_line by assumption.
    now rewrite IH.
Qed.

Lemma lstrip_all_space s : all_space s = true -> lstrip s = EmptyString.
Proof.
  induction s as [|c s IH]; [reflexivity|]. cbn [all_space lstrip]. intro H.
  apply andb_true_iff in H. destruct H as [-> H]. now apply IH.
Qed.

Lemma lstrip_app a b :
  lstrip (a ++ b) = if all_space a then lstrip b else (lstrip a ++ b)%string.
Proof.
  induction a as [|c a IH]; [reflexivity|]. cbn [append lstrip all_space].
  destruct (isspace c); [exact IH | reflexivity].
Qed.

Lemma strip_line_break l : strip (l ++ nl) = strip l.
Proof.
  unfold strip. rewrite lstrip_app. destruct (all_space l) eqn:E.
  - now rewrite (lstrip_all_space l E).
  - now apply rstrip_app_space.
Qed.

(** The line ending does not matter: the parse of a text whose lines end
    with a carriage return and a line feed is the parse of the text whose
    lines end with a line feed, and a last line may lack its ending. *)
Theorem line_endings_do_not_matter (ls : list string) (last : string) :
  forallb no_newline ls = true -> no_newline last = true ->
  parse (text_of CRLF ls) = parse (text_of nl ls)
  /\ parse (text_of nl ls ++ last) = parse (text_of nl (ls ++ [last])).
Proof.
  intros H Hl. unfold parse. split.
  - rewrite readlines_crlf by exact H. unfold text_of.
    now rewrite readlines_unlines by exact H.
  - assert (H' : forallb no_newline (ls ++ [last]) = true).
    { rewrite forallb_app, H. cbn [forallb]. now rewrite Hl. }
    unfold text_of at 2. rewrite readlines_unlines by exact H'. rewrite map_app. cbn [map].
    destruct last as [|c last].
    + rewrite append_nil_r. unfold text_of. rewrite readlines_unlines by exact H.
      unfold parse_lines.
      destruct (unrecognized_skipped (EmptyString ++ nl) [] eq_refl
                  (map (fun l => l ++ nl)%string ls)) as [Ho _].
      rewrite (Ho init (or_intror eq_refl)). now rewrite app_nil_r.
    + rewrite readlines_text_last by (assumption || discriminate).
      unfold parse_lines.
      destruct (loops_strip (map (fun l => l ++ nl)%string ls ++ [String c last])
                  (map (fun l => l ++ nl)%string ls ++ [(String c last ++ nl)%string]))
        as [Ho _]; [|now rewrite Ho].
      rewrite !map_app. cbn [map]. now rewrite strip_line_break.
Qed.

Lemma line_endings_do_not_matter_witness :
  parse (text_of CRLF ["Version 4"; "SHEET 1 880 680"])
  = parse (text_of nl ["Version 4"; "SHEET 1 880 680"])
  /\ parse (text_of nl ["Version 4"; "SHEET 1 880 680"] ++ "WIRE 0 0 100 0")
     = parse (text_of nl (["Version 4"; "SHEET 1 880 680"] ++ ["WIRE 0 0 100 0"])).
Proof.
  apply (line_endings_do_not_matter ["Version 4"; "SHEET 1 880 680"] "WIRE 0 0 100 0");
    reflexivity.
Defined.

(** *** The shape of a parsed document *)

(** In a parsed document the version, the types, the rotations, the
    attribute keys and the net names are tokens without white space; no
    attribute key is InstName or occurs twice in a component; an attribute
    value is a sequence of tokens separated by single spaces; no two
    components and no two wires have the same key. *)
Theorem parsed_document_is_well_formed (text : string) (s : CircuitData) :
  parse text = inr s -> wf_tokens s = true /\ keys_distinct s = true.
Proof. unfold parse. apply parse_lines_wf. Qed.

Lemma parsed_document_is_well_formed_witness :
  wf_tokens document_A = true /\ keys_distinct document_A = true.
Proof.
  apply (parsed_document_is_well_formed scenario_A document_A). vm_compute. reflexivity.
Defined.

End DocumentProps.

(** ** A parser object that parses twice *)

Module ASCObjectProps.
Import Py ASC ParserSpec RoundTripSpec DocumentSpec ASCObjectSpec.
Import ParserProps RoundTripProps DocumentProps.
Local Open Scope string_scope.
Local Open Scope list_scope.
Local Open Scope py_scope.

Lemma add_nothing b : add b (mkDelta [] [] [] None None) = b.
Proof.
  destruct b. unfold add. cbn. now rewrite !app_nil_r, Z.add_0_r.
Qed.

Lemma symbol_line_any a b line c a1 :
  _parse_symbol_line a line = inr (c, a1) ->
  _parse_symbol_line b line
  = inr (with_id c (comp_id (component_counter b + 1)), bump b)
  /\ attributes c = [].
Proof.
  unfold _parse_symbol_line. intro H. repeat bind_inv H. injection H as <- <-.
  cbn [bind].
  repeat match goal with
         | E : ?m = inr _ |- context [bind ?m _] => rewrite E; cbn [bind]
         end.
  split; reflexivity.
Qed.

Lemma symattr_line_any c i line r :
  _add_symattr_to_component c line = inr r ->
  _add_symattr_to_component (with_id c i) line = inr (with_id r i)
  /\ forall attrs, with_attributes r attrs = with_attributes c attrs.
Proof.
  unfold _add_symattr_to_component. intro H. bind_inv H. injection H as <-.
  split; reflexivity.
Qed.

Lemma add_component_first b c d :
  add (append_component (bump b) (with_id c (comp_id (component_counter b + 1)))) d
  = add b (mkDelta (c :: new_components d) (new_wires d) (new_flags d) (new_version d)
                   (new_sheet d)).
Proof.
  unfold add, append_component, bump.
  cbn [components wires flags version sheet component_counter new_components new_wires
         new_flags new_version new_sheet renumber List.length].
  rewrite <- app_assoc. cbn [app]. f_equal. lia.
Qed.

Lemma loops_add lines :
  (forall a a', parse_loop a lines = inr a' ->
                exists d, forall b, parse_loop b lines = inr (add b d))
  /\ (forall a1 c a', attrs_loop a1 c lines = inr a' ->
        exists attrs d,
          forall b1 i,
            attrs_loop b1 (with_id c i) lines
            = inr (add (append_component b1 (with_id (with_attributes c attrs) i)) d)).
Proof.
  induction lines as [|r rest [IHo IHi]].
  - split.
    + intros a a' _. exists (mkDelta [] [] [] None None). intro b.
      now rewrite add_nothing.
    + intros a1 c a' _. exists (attributes c), (mkDelta [] [] [] None None).
      intros b1 i. rewrite add_nothing. reflexivity.
  - assert (Ho : forall a a', parse_loop a (r :: rest) = inr a' ->
               exists d, forall b, parse_loop b (r :: rest) = inr (add b d)).
    { intros a a' E. rewrite parse_loop_cons in E. cbv zeta in E.
      destruct (startswith (strip r) "Version") eqn:E1.
      { bind_inv E. destruct (IHo _ _ E) as [d Hd].
        exists (mkDelta (new_components d) (new_wires d) (new_flags d)
                        (override (Some s) (new_version d)) (new_sheet d)).
        intro b. rewrite parse_loop_cons. cbv zeta. rewrite E1, E0. cbn [bind].
        rewrite Hd. unfold add, set_version.
        cbn [components wires flags version sheet component_counter new_components
               new_wires new_flags new_version new_sheet].
        now destruct (new_version d). }
      destruct (startswith (strip r) "SHEET") eqn:E2.
      { bind_inv E. destruct (IHo _ _ E) as [d Hd].
        exists (mkDelta (new_components d) (new_wires d) (new_flags d)
                        (new_version d) (override (Some s) (new_sheet d))).
        intro b. rewrite parse_loop_cons. cbv zeta. rewrite E1, E2, E0. cbn [bind].
        rewrite Hd. unfold add, set_sheet.
        cbn [components wires flags version sheet component_counter new_components
               new_wires new_flags new_version new_sheet].
        now destruct (new_sheet d). }
      destruct (startswith (strip r) "SYMBOL") eqn:E3.
      { bind_inv E. destruct p as [c a1]. cbn [fst snd] in E.
        destruct (IHi _ _ _ E) as (attrs & d & Hd).
        exists (mkDelta (with_attributes c attrs :: new_components d) (new_wires d)
                        (new_flags d) (new_version d) (new_sheet d)).
        intro b. rewrite parse_loop_cons. cbv zeta. rewrite E1, E2, E3.
        destruct (symbol_line_any a b _ _ _ E0) as [-> Hc]. cbn [bind fst snd].
        rewrite Hd.
        rewrite <- (add_component_first b (with_attributes c attrs) d). reflexivity. }
      destruct (startswith (strip r) "WIRE") eqn:E4.
      { bind_inv E. destruct (IHo _ _ E) as [d Hd].
        exists (mkDelta (new_components d) (w :: new_wires d) (new_flags d)
                        (new_version d) (new_sheet d)).
        intro b. rewrite parse_loop_cons. cbv zeta. rewrite E1, E2, E3, E4, E0. cbn [bind].
        rewrite Hd. unfold add, append_wire.
        cbn [components wires flags version sheet component_counter new_components
               new_wires new_flags new_version new_sheet].
        now rewrite <- app_assoc. }
      destruct (startswith (strip r) "FLAG") eqn:E5.
      { bind_inv E. destruct (IHo _ _ E) as [d Hd].
        exists (mkDelta (new_components d) (new_wires d) (f :: new_flags d)
                        (new_version d) (new_sheet d)).
        intro b. rewrite parse_loop_cons. cbv zeta. rewrite E1, E2, E3, E4, E5, E0.
        cbn [bind]. rewrite Hd. unfold add, append_flag.
        cbn [components wires flags version sheet component_counter new_components
               new_wires new_flags new_version new_sheet].
        now rewrite <- app_assoc. }
      destruct (IHo _ _ E) as [d Hd]. exists d. intro b.
      rewrite parse_loop_cons. cbv zeta. now rewrite E1, E2, E3, E4, E5. }
    split; [exact Ho|].
    intros a1 c a' E. rewrite attrs_loop_cons in E.
    destruct (startswith (strip r) "SYMATTR") eqn:Ea.
    + bind_inv E. destruct (IHi _ _ _ E) as (attrs & d & Hd).
      exists attrs, d. intros b1 i. rewrite attrs_loop_cons, Ea.
      destruct (symattr_line_any c i _ _ E0) as [-> Hw]. cbn [bind].
      rewrite <- Hw. apply Hd.
    + destruct (Ho _ _ E) as [d Hd]. exists (attributes c), d.
      intros b1 i. rewrite attrs_loop_cons, Ea, Hd. reflexivity.
Qed.

Lemma renumber_twice n m cs : renumber n (renumber m cs) = renumber n cs.
Proof.
  revert n m. induction cs as [|c cs IH]; intros n m; [reflexivity|].
  cbn [renumber]. now rewrite IH.
Qed.

Lemma renumber_length n cs : List.length (renumber n cs) = List.length cs.
Proof.
  revert n. induction cs as [|c cs IH]; intro n; [reflexivity|].
  cbn [renumber List.length]. now rewrite IH.
Qed.

Lemma renumber_key n cs b :
  In b (renumber n cs) -> exists a, In a cs /\ component_key b = component_key a.
Proof.
  revert n. induction cs as [|c cs IH]; intros n H; [destruct H|].
  cbn [renumber] in H. destruct H as [<-|H].
  - exists c. split; [now left | reflexivity].
  - destruct (IH _ H) as (a & Ha & Ek). exists a. split; [now right | exact Ek].
Qed.

(** A second run of the loop over the same lines adds what the first run
    read, the components under new ids. *)
Lemma parse_loop_again lines raw :
  parse_loop init lines = inr raw ->
  forall b,
    parse_loop b lines
    = inr (mkParser (components b ++ renumber (component_counter b) (components raw))
                    (wires b ++ wires raw) (flags b ++ flags raw)
                    (override (version b) (version raw))
                    (override (sheet b) (sheet raw))
                    (component_counter b + component_counter raw)).
Proof.
  intros H b. destruct (loops_add lines) as [L _]. destruct (L _ _ H) as [d Hd].
  rewrite Hd in H. injection H as <-. rewrite Hd. unfold add, init.
  cbn [components wires flags version sheet component_counter app].
  rewrite renumber_twice. cbn [override Z.add].
  now destruct (new_version d), (new_sheet d).
Qed.

Lemma unique_components_again cs n :
  unique_components [] (unique_components [] cs ++ renumber n cs) = unique_components [] cs.
Proof.
  rewrite !unique_components_unique.
  rewrite (unique_app_duplicates component_key component_key_eqb component_key_eqb_eq).
  - destruct (unique_distinct component_key component_key_eqb component_key_eqb_sym cs [])
      as [_ D].
    apply unique_id; [apply component_key_eqb_sym | | exact D].
    apply forallb_forall. reflexivity.
  - intros b Hb. right. apply renumber_key in Hb. destruct Hb as (a & Ha & Ek).
    destruct (unique_represents component_key component_key_eqb component_key_eqb_eq
                cs a [] Ha) as [X|(a' & Ha' & Ek')]; [discriminate X|].
    exists a'. split; [exact Ha' | congruence].
Qed.

Lemma unique_wires_again ws :
  unique_wires [] (unique_wires [] ws ++ ws) = unique_wires [] ws.
Proof.
  rewrite !unique_wires_unique.
  rewrite (unique_app_duplicates wire_key wire_key_eqb wire_key_eqb_eq).
  - destruct (unique_distinct wire_key wire_key_eqb wire_key_eqb_sym ws []) as [_ D].
    apply unique_id; [apply wire_key_eqb_sym | | exact D].
    apply forallb_forall. reflexivity.
  - intros b Hb. right.
    destruct (unique_represents wire_key wire_key_eqb wire_key_eqb_eq ws b [] Hb)
      as [X|(a' & Ha' & Ek')]; [discriminate X|].
    now exists a'.
Qed.

Lemma override_same {A : Type} (v : option A) : override v v = v.
Proof. now destruct v. Qed.

Section Files.

Variable writable : string -> bool.

(** The whole of [convert_asc_to_json] when the first parse succeeds and
    the path, if any, can be written. *)
Lemma convert_asc_to_json_run lines path raw :
  parse_loop init lines = inr raw ->
  (forall output_path, saving path = Some output_path -> writable output_path = true) ->
  let d := _to_json (_remove_duplicate_wires (_remove_duplicate_components raw)) in
  exists dict st,
    ASCObject.convert_asc_to_json writable lines path
    = inr (dict,
           if ASCObject.given path
           then Some (mkCircuit (cd_version d) (cd_sheet d) (cd_components d) (cd_wires d)
                                (cd_flags d ++ cd_flags d))
           else None,
           st)
    /\ ASCObject.read st dict
       = if ASCObject.given path
         then mkCircuit (cd_version d) (cd_sheet d)
                (cd_components d ++ renumber (component_counter raw) (components raw))
                (cd_wires d ++ wires raw) (cd_flags d ++ cd_flags d)
         else d.
Proof.
  intros H W. cbv zeta.
  unfold ASCObject.convert_asc_to_json, ASCObject.new, ASCObject.empty_store,
    ASCObject.alloc.
  cbn [ASCObject.component_lists ASCObject.wire_lists ASCObject.flag_lists app List.length].
  unfold ASCObject.parse at 1.
  cbn [ASCObject.components_ref ASCObject.wires_ref ASCObject.flags_ref
         ASCObject.version_field ASCObject.sheet_field ASCObject.counter_field
         ASCObject.component_lists ASCObject.wire_lists ASCObject.flag_lists
         ASCObject.get nth].
  change (mkParser [] [] [] None None 0) with init. rewrite H.
  cbn -[parse_loop unique_components unique_wires ASCObject.given ASCObject.save_json].
  destruct path as [output_path|]; [|eexists _, _; split; reflexivity].
  unfold saving in W. destruct (ASCObject.given (Some output_path)).
  - unfold ASCObject.save_json, ASCObject.parse.
    rewrite (W output_path eq_refl).
    cbn [ASCObject.components_ref ASCObject.wires_ref ASCObject.flags_ref
           ASCObject.version_field ASCObject.sheet_field ASCObject.counter_field
           ASCObject.component_lists ASCObject.wire_lists ASCObject.flag_lists
           ASCObject.get nth].
    rewrite (parse_loop_again lines raw H).
    cbn [components wires flags version sheet component_counter].
    rewrite !override_same.
    cbn -[parse_loop unique_components unique_wires renumber].
    rewrite unique_components_again, unique_wires_again.
    eexists _, _. split; reflexivity.
  - eexists _, _. split; reflexivity.
Qed.

(** [convert_asc_to_json] when the path cannot be written: the second
    parse succeeds as the first did, and [open] raises. *)
Lemma convert_asc_to_json_not_writable lines path output_path raw :
  parse_loop init lines = inr raw ->
  saving path = Some output_path ->
  writable output_path = false ->
  ASCObject.convert_asc_to_json writable lines path = inl OSError.
Proof.
  intros H S W.
  unfold ASCObject.convert_asc_to_json, ASCObject.new, ASCObject.empty_store,
    ASCObject.alloc.
  cbn [ASCObject.component_lists ASCObject.wire_lists ASCObject.flag_lists app List.length].
  unfold ASCObject.parse at 1.
  cbn [ASCObject.components_ref ASCObject.wires_ref ASCObject.flags_ref
         ASCObject.version_field ASCObject.sheet_field ASCObject.counter_field
         ASCObject.component_lists ASCObject.wire_lists ASCObject.flag_lists
         ASCObject.get nth].
  change (mkParser [] [] [] None None 0) with init. rewrite H.
  cbn -[parse_loop unique_components unique_wires ASCObject.given ASCObject.save_json].
  unfold saving in S. destruct path as [p|]; [|discriminate S].
  destruct (ASCObject.given (Some p)); [|discriminate S]. injection S as ->.
  unfold ASCObject.save_json, ASCObject.parse. rewrite W.
  cbn [ASCObject.components_ref ASCObject.wires_ref ASCObject.flags_ref
         ASCObject.version_field ASCObject.sheet_field ASCObject.counter_field
         ASCObject.component_lists ASCObject.wire_lists ASCObject.flag_lists
         ASCObject.get nth].
  rewrite (parse_loop_again lines raw H). reflexivity.
Qed.

(** [convert_asc_to_json], for a file that is read.  It raises what the
    parse raises.  When the parse succeeds and no path to save to is
    given, nothing is written.  When a path is given, the file is parsed
    again with the same parser: if the path cannot be written the call
    raises [OSError], and otherwise what is written is the document of the
    parse with every flag twice. *)
Theorem saved_document_has_every_flag_twice (lines : list string) (path : option string) :
  match parse_lines lines with
  | inl e => ASCObject.convert_asc_to_json writable lines path = inl e
  | inr d =>
      match saving path with
      | None =>
          exists dict st,
            ASCObject.convert_asc_to_json writable lines path = inr (dict, None, st)
      | Some output_path =>
          if writable output_path
          then exists dict st,
                 ASCObject.convert_asc_to_json writable lines path
                 = inr (dict,
                        Some (mkCircuit (cd_version d) (cd_sheet d) (cd_components d)
                                        (cd_wires d) (cd_flags d ++ cd_flags d)),
                        st)
          else ASCObject.convert_asc_to_json writable lines path = inl OSError
      end
  end.
Proof.
  unfold parse_lines. destruct (parse_loop init lines) as [e|raw] eqn:H; cbn [bind ret].
  - unfold ASCObject.convert_asc_to_json, ASCObject.new, ASCObject.empty_store,
      ASCObject.alloc, ASCObject.parse.
    cbn [ASCObject.components_ref ASCObject.wires_ref ASCObject.flags_ref
           ASCObject.version_field ASCObject.sheet_field ASCObject.counter_field
           ASCObject.component_lists ASCObject.wire_lists ASCObject.flag_lists
           ASCObject.get nth app List.length].
    change (mkParser [] [] [] None None 0) with init. now rewrite H.
  - destruct (saving path) as [output_path|] eqn:S.
    + destruct (writable output_path) eqn:W.
      * destruct (convert_asc_to_json_run lines path raw H) as (dict & st & E & _).
        { intros p Hp. congruence. }
        assert (G : ASCObject.given path = true).
        { unfold saving in S. now destruct (ASCObject.given path). }
        rewrite G in E. now exists dict, st.
      * now apply (convert_asc_to_json_not_writable lines path output_path raw).
    + destruct (convert_asc_to_json_run lines path raw H) as (dict & st & E & _).
      { intros p Hp. congruence. }
      assert (G : ASCObject.given path = false).
      { unfold saving in S. destruct path as [p|]; [|reflexivity].
        destruct (ASCObject.given (Some p)); [discriminate S | reflexivity]. }
      rewrite G in E. now exists dict, st.
Qed.

(** When [convert_asc_to_json] returns, that is when the parse succeeds
    and the path to save to, if one is given, can be written, the
    dictionary it returns holds the lists of the parser.  With a path the
    second parse has appended to them: the caller reads the components and
    the wires of the document followed by all the components, under new
    ids, and all the wires of the text, duplicates included, and every
    flag twice.  Without a path the caller reads the document of the
    parse. *)
Theorem returned_document_is_changed_by_saving
  (lines : list string) (path : option string) (raw : ASCParser) :
  parse_loop init lines = inr raw ->
  (forall output_path, saving path = Some output_path -> writable output_path = true) ->
  let d := _to_json (_remove_duplicate_wires (_remove_duplicate_components raw)) in
  parse_lines lines = inr d
  /\ exists dict written st,
      ASCObject.convert_asc_to_json writable lines path = inr (dict, written, st)
      /\ ASCObject.read st dict
         = if ASCObject.given path
           then mkCircuit (cd_version d) (cd_sheet d)
                  (cd_components d ++ renumber (component_counter raw) (components raw))
                  (cd_wires d ++ wires raw) (cd_flags d ++ cd_flags d)
           else d.
Proof.
  intros H W. cbv zeta. split.
  - unfold parse_lines. now rewrite H.
  - destruct (convert_asc_to_json_run lines path raw H W) as (dict & st & E & R).
    eexists dict, _, st. split; [exact E | exact R].
Qed.

End Files.

Lemma returned_document_is_changed_by_saving_witness :
  exists dict written st,
    ASCObject.convert_asc_to_json every_path flagged_symbol (Some "circuit_output.json")
    = inr (dict, written, st)
    /\ ASCObject.read st dict
       = mkCircuit None None
           [mkComponent "comp_1" "res" 100 100 "R0" [];
            mkComponent "comp_2" "res" 100 100 "R0" []]
           [] [mkFlag 0 16 "0"; mkFlag 0 16 "0"].
Proof.
  apply (returned_document_is_changed_by_saving every_path flagged_symbol
           (Some "circuit_output.json")
           (mkParser [mkComponent "comp_1" "res" 100 100 "R0" []] [] [mkFlag 0 16 "0"]
                     None None 1)).
  - vm_compute. reflexivity.
  - intros output_path _. reflexivity.
Defined.

(** A path that cannot be written: the call raises although the parse
    succeeds. *)
Example unwritable_path_raises :
  parse_lines flagged_symbol
  = inr (mkCircuit None None [mkComponent "comp_1" "res" 100 100 "R0" []] []
           [mkFlag 0 16 "0"])
  /\ ASCObject.convert_asc_to_json no_path flagged_symbol (Some "/") = inl OSError
  /\ exists dict st,
       ASCObject.convert_asc_to_json no_path flagged_symbol None = inr (dict, None, st).
Proof. repeat split. vm_compute. eexists _, _. reflexivity. Qed.

End ASCObjectProps.

(** ** The reconstruction *)

Module ReconstructionProps.
Import Py Recognizer PlacerSpec GridSpec DocumentSpec ReconstructionSpec.
Import PlacerProps GridProps.
Local Open Scope string_scope.
Local Open Scope list_scope.

(** *** The entries of the text *)

Lemma asc_items_entries
  (data_res data_vol data_vol_ac data_cap data_gnd data_ind : DataFrame)
  (wires wires_horizontal wires_vertical : list Wire) :
  asc_items data_res data_vol data_vol_ac data_cap data_gnd data_ind
    wires wires_horizontal wires_vertical
  = if some_ground_attaches data_gnd wires wires_horizontal
    then raise (KeyError "y_center")
    else ret (entries data_res data_vol data_vol_ac data_cap data_ind
                      wires wires_horizontal wires_vertical).
Proof.
  unfold asc_items, some_ground_attaches, entries, symbols.
  rewrite !place_symbols_numbered.
  rewrite place_grounds_result by (intros; now apply In_has_label).
  destruct (existsb _ data_gnd); cbn [bind raise ret]; [reflexivity|].
  cbn [snd]. rewrite place_symbols_numbered. rewrite <- !app_assoc. reflexivity.
Qed.

Lemma asc_content_entries
  (data_res data_vol data_vol_ac data_cap data_gnd data_ind : DataFrame)
  (wires wires_horizontal wires_vertical : list Wire) :
  _generate_asc_content data_res data_vol data_vol_ac data_cap data_gnd data_ind
    wires wires_horizontal wires_vertical
  = if some_ground_attaches data_gnd wires wires_horizontal
    then raise (KeyError "y_center")
    else ret (String.concat EmptyString
                (no_duplicates
                   (map render (entries data_res data_vol data_vol_ac data_cap data_ind
                                        wires wires_horizontal wires_vertical)))).
Proof.
  unfold _generate_asc_content. rewrite asc_items_entries.
  now destruct (some_ground_attaches data_gnd wires wires_horizontal).
Qed.

(** [_generate_asc_content] raises [KeyError] when some ground detection
    attaches to some wire.  Otherwise it returns the two constants, the
    symbols of the resistors, of the dc sources, of the ac sources, of the
    capacitors and of the inductors, and the wires, in this order, less
    the repeated entries: a ground detection adds nothing. *)
Theorem text_is_entries_or_KeyError
  (data_res data_vol data_vol_ac data_cap data_gnd data_ind : DataFrame)
  (wires wires_horizontal wires_vertical : list Wire) :
  _generate_asc_content data_res data_vol data_vol_ac data_cap data_gnd data_ind
    wires wires_horizontal wires_vertical
  = if some_ground_attaches data_gnd wires wires_horizontal
    then raise (KeyError "y_center")
    else ret (String.concat EmptyString
                (no_duplicates
                   (map render (entries data_res data_vol data_vol_ac data_cap data_ind
                                        wires wires_horizontal wires_vertical)))).
Proof. apply asc_content_entries. Qed.

(** A detection that attaches to no wire is dropped: the loop places what
    it places without the detection. *)
Theorem unattached_detection_is_dropped
  (k : Kind) (before : DataFrame) (row : Row) (after : DataFrame)
  (wires wires_horizontal wires_vertical : list Wire) (asc_lines : list Item) :
  (forall wire, In wire wires ->
                attaches k wires_horizontal wires_vertical row wire = false) ->
  place_symbols k (before ++ row :: after) wires wires_horizontal wires_vertical asc_lines
  = place_symbols k (before ++ after) wires wires_horizontal wires_vertical asc_lines.
Proof.
  intro H. rewrite !place_symbols_numbered, !flat_map_app. cbn [flat_map].
  assert (E : every_match k wires_horizontal wires_vertical wires row = []).
  { unfold every_match.
    replace (filter (attaches k wires_horizontal wires_vertical row) wires)
      with (@nil Wire); [reflexivity|].
    symmetry. induction wires as [|w ws IH]; [reflexivity|]. cbn [filter].
    rewrite H by now left. apply IH. intros w' Hw'. apply H. now right. }
  now rewrite E.
Qed.

Lemma unattached_detection_is_dropped_witness :
  place_symbols resistor ([] ++ mkRow 5 400 50 40 90 (9 # 10) 5 "resistor" :: [resistor_108_50])
    [wire_112] [] [wire_112] []
  = place_symbols resistor ([] ++ [resistor_108_50]) [wire_112] [] [wire_112] [].
Proof.
  apply (unattached_detection_is_dropped resistor []
           (mkRow 5 400 50 40 90 (9 # 10) 5 "resistor") [resistor_108_50]
           [wire_112] [] [wire_112] []).
  intros wire [<-|[]]. vm_compute. reflexivity.
Defined.

Lemma select_other df1 row df2 n :
  (name row =? n) = false -> select (df1 ++ row :: df2) n = select (df1 ++ df2) n.
Proof.
  intro H. unfold select. rewrite !filter_app. cbn [filter]. now rewrite H.
Qed.

(** A detection of a class that the service does not select changes
    nothing: the text, or the failure, is the one of the frame without
    it. *)
Theorem other_classes_are_ignored
  (atan2_degrees : Z -> Z -> Q) (before : DataFrame) (row : Row) (after : DataFrame) :
  selected_class (name row) = false ->
  _process_image_to_asc atan2_degrees (before ++ row :: after)
  = _process_image_to_asc atan2_degrees (before ++ after).
Proof.
  unfold selected_class. cbn [existsb]. intro H.
  repeat (apply orb_false_iff in H; destruct H as [? H]).
  unfold _process_image_to_asc. cbv zeta. now rewrite !select_other by assumption.
Qed.

Lemma other_classes_are_ignored_witness :
  _process_image_to_asc atan2_degrees_on_axes ([junction_a] ++ diode_10_10 :: [junction_b])
  = _process_image_to_asc atan2_degrees_on_axes ([junction_a] ++ [junction_b]).
Proof.
  apply (other_classes_are_ignored atan2_degrees_on_axes [junction_a] diode_10_10
           [junction_b]).
  reflexivity.
Defined.

(** *** Fewer than two junctions *)

Lemma align_junctions_one row : align_junctions [row] = [row].
Proof.
  unfold align_junctions, align_lists. cbn [fold_left]. rewrite Nat.eqb_refl. reflexivity.
Qed.

Lemma no_wire_without_two_junctions (atan2_degrees : Z -> Z -> Q) (data : DataFrame) :
  (List.length data <= 1)%nat -> _process_junctions atan2_degrees data = ([], [], []).
Proof.
  destruct data as [|row [|row2 data]]; cbn [List.length]; intro H; [reflexivity | | lia].
  unfold _process_junctions, grid_junctions. rewrite align_junctions_one.
  unfold synth_wires, synth_pair, snap_xcenter, snap_ycenter.
  cbn [map fold_left label set_xcenter set_ycenter checked_coordinates pair_in existsb orb].
  rewrite Nat.eqb_refl. reflexivity.
Qed.

Lemma symbols_without_wires k data wh wv : symbols k data [] wh wv = [].
Proof.
  unfold symbols. replace (flat_map (every_match k wh wv []) data) with (@nil (Row * Wire));
    [reflexivity|].
  induction data as [|r data IH]; [reflexivity | exact IH].
Qed.

(** With fewer than two junctions there is no wire, and without a wire
    nothing is placed: whatever else was detected, the text is the two
    constants. *)
Theorem fewer_than_two_junctions_give_the_constants
  (atan2_degrees : Z -> Z -> Q) (df : DataFrame) :
  (List.length (select df "junction") <= 1)%nat ->
  _process_image_to_asc atan2_degrees df = inr header_text.
Proof.
  intro H. unfold _process_image_to_asc. cbv zeta.
  rewrite (no_wire_without_two_junctions atan2_degrees _ H).
  rewrite asc_content_entries.
  unfold some_ground_attaches, entries. rewrite !symbols_without_wires.
  replace (existsb (fun row => existsb (ground_attaches [] row) []) (select df "gnd"))
    with false; [reflexivity|].
  induction (select df "gnd") as [|r l IH]; [reflexivity | exact IH].
Qed.

Lemma fewer_than_two_junctions_give_the_constants_witness :
  _process_image_to_asc atan2_degrees_on_axes [junction_a; resistor_108_50; ground_50_10]
  = inr header_text.
Proof.
  apply (fewer_than_two_junctions_give_the_constants atan2_degrees_on_axes
           [junction_a; resistor_108_50; ground_50_10]).
  vm_compute. lia.
Defined.

(** *** Repeated entries *)

Lemma no_duplicates_spec l :
  forall acc,
    NoDup acc ->
    exists tl,
      fold_left
        (fun acc object =>
           if existsb (String.eqb object) acc then acc else acc ++ [object]) l acc
      = acc ++ tl
      /\ NoDup (acc ++ tl) /\ subsequence tl l
      /\ forall x, In x l -> In x (acc ++ tl).
Proof.
  induction l as [|a l IH]; intros acc N; cbn [fold_left].
  - exists []. rewrite app_nil_r. repeat split; [exact N | constructor | intros x []].
  - destruct (existsb (String.eqb a) acc) eqn:E.
    + destruct (IH acc N) as (tl & E1 & N1 & S1 & I1). exists tl.
      repeat split; try assumption; [now constructor|].
      intros x [<-|Hx]; [|now apply I1].
      apply existsb_exists in E. destruct E as (y & Hy & Ey).
      apply String.eqb_eq in Ey. subst y. apply in_or_app. now left.
    + assert (N' : NoDup (acc ++ [a])).
      { apply NoDup_app; [exact N | repeat constructor; intros [] |].
        intros x Hx [Ea|[]]. subst x.
        assert (X : existsb (String.eqb a) acc = true).
        { apply existsb_exists. exists a. split; [exact Hx | apply String.eqb_refl]. }
        congruence. }
      destruct (IH (acc ++ [a]) N') as (tl & E1 & N1 & S1 & I1). exists (a :: tl).
      rewrite <- app_assoc in E1, N1. cbn [app] in E1, N1.
      repeat split; try assumption; [now constructor|].
      intros x [<-|Hx].
      * apply in_or_app. right. now left.
      * specialize (I1 x Hx). rewrite <- app_assoc in I1. exact I1.
Qed.

Lemma subsequence_In {A : Type} (l1 l2 : list A) x :
  subsequence l1 l2 -> In x l1 -> In x l2.
Proof.
  induction 1 as [|a l1 l2 H IH|a l1 l2 H IH]; intro Hx.
  - exact Hx.
  - right. now apply IH.
  - destruct Hx as [<-|Hx]; [now left | right; now apply IH].
Qed.

(** A list that is not empty ends with the first occurrence of one of its
    entries and entries that occurred before. *)
Lemma last_first_occurrence (l : list string) :
  l <> [] ->
  exists before object after,
    l = before ++ object :: after
    /\ ~ In object before
    /\ forall x, In x after -> In x (before ++ [object]).
Proof.
  induction l as [|z l IH] using rev_ind; [congruence|]. intros _.
  destruct (in_dec string_dec z l) as [Hz|Hz].
  - destruct l as [|a l]; [destruct Hz|].
    destruct IH as (before & object & after & E & Hn & Ha); [discriminate|].
    exists before, object, (after ++ [z]). rewrite E, <- app_assoc. repeat split.
    + exact Hn.
    + intros x Hx. apply in_app_or in Hx. destruct Hx as [Hx|[<-|[]]]; [now apply Ha|].
      rewrite E in Hz. apply in_app_or in Hz. apply in_or_app.
      destruct Hz as [Hz|[<-|Hz]]; [now left | right; now left |].
      apply Ha in Hz. now apply in_app_or in Hz.
  - exists l, z, []. repeat split; [exact Hz | intros x []].
Qed.

Lemma NoDup_app_disjoint {A : Type} (l1 l2 : list A) (x : A) :
  NoDup (l1 ++ l2) -> In x l1 -> In x l2 -> False.
Proof.
  induction l1 as [|a l1 IH]; intros N H1 H2; [destruct H1|].
  cbn [app] in N. inversion N as [|? ? Ha N']; subst.
  destruct H1 as [->|H1]; [|now apply IH].
  apply Ha. apply in_or_app. now right.
Qed.

(** The loop that removes the repeated entries keeps the first of each:
    what it returns has no entry twice, is a subsequence of the entries
    and has every entry; and where an entry occurs for the first time, it
    is appended to what the loop returns for the entries before it.  No
    other function has these properties: one that keeps the last of each
    entry does not have the fourth. *)
Theorem no_duplicates_keeps_the_first_of_each :
  (forall asc_lines : list string,
      NoDup (no_duplicates asc_lines)
      /\ subsequence (no_duplicates asc_lines) asc_lines
      /\ (forall object, In object (no_duplicates asc_lines) <-> In object asc_lines)
      /\ (forall before object after,
             asc_lines = before ++ object :: after ->
             ~ In object before ->
             exists rest,
               no_duplicates asc_lines = no_duplicates before ++ object :: rest))
  /\ (forall f : list string -> list string,
         (forall l, NoDup (f l)) ->
         (forall l object, In object (f l) <-> In object l) ->
         (forall before object after,
             ~ In object before ->
             exists rest, f (before ++ object :: after) = f before ++ object :: rest) ->
         forall l, f l = no_duplicates l).
Proof.
  assert (Q : forall asc_lines : list string,
             NoDup (no_duplicates asc_lines)
             /\ subsequence (no_duplicates asc_lines) asc_lines
             /\ (forall object, In object (no_duplicates asc_lines) <-> In object asc_lines)
             /\ (forall before object after,
                    asc_lines = before ++ object :: after ->
                    ~ In object before ->
                    exists rest,
                      no_duplicates asc_lines = no_duplicates before ++ object :: rest)).
  { intro asc_lines.
    assert (M : forall l x, In x (no_duplicates l) <-> In x l).
    { intros l x. unfold no_duplicates.
      destruct (no_duplicates_spec l [] (NoDup_nil _)) as (tl & E & _ & S & I).
      rewrite E. cbn [app] in *. split; [now apply subsequence_In | apply I]. }
    assert (P : NoDup (no_duplicates asc_lines)
                /\ subsequence (no_duplicates asc_lines) asc_lines).
    { unfold no_duplicates.
      destruct (no_duplicates_spec asc_lines [] (NoDup_nil _)) as (tl & E & N & S & _).
      rewrite E. cbn [app] in *. now split. }
    destruct P as [N S]. repeat split; try assumption; try apply M.
    intros before object after -> Hn. unfold no_duplicates at 1.
    rewrite fold_left_app. fold (no_duplicates before). cbn [fold_left].
    destruct (existsb (String.eqb object) (no_duplicates before)) eqn:X.
    - exfalso. apply Hn. apply M.
      apply existsb_exists in X. destruct X as (y & Hy & Ey).
      apply String.eqb_eq in Ey. now subst y.
    - assert (N' : NoDup (no_duplicates before ++ [object])).
      { apply NoDup_app.
        - unfold no_duplicates.
          destruct (no_duplicates_spec before [] (NoDup_nil _)) as (t & -> & Nt & _).
          exact Nt.
        - repeat constructor. intros [].
        - intros x Hx [Ea|[]]. subst x. apply Hn. now apply M. }
      destruct (no_duplicates_spec after _ N') as (rest & -> & _).
      exists rest. now rewrite <- app_assoc. }
  split; [exact Q|]. intros f N M P.
  assert (K : forall g : list string -> list string,
             (forall l, NoDup (g l)) -> (forall l x, In x (g l) <-> In x l) ->
             (forall before object after,
                 ~ In object before ->
                 exists rest, g (before ++ object :: after) = g before ++ object :: rest) ->
             forall before object after,
               ~ In object before ->
               (forall x, In x after -> In x (before ++ [object])) ->
               g (before ++ object :: after) = g before ++ [object]).
  { intros g Ng Mg Pg before object after Hn Ha.
    destruct (Pg before object after Hn) as [rest E]. rewrite E.
    destruct rest as [|r rest]; [reflexivity|]. exfalso.
    specialize (Ng (before ++ object :: after)). rewrite E in Ng.
    assert (Hr : In r (before ++ object :: after)).
    { apply Mg. rewrite E. apply in_or_app. right. right. now left. }
    apply in_app_or in Hr.
    assert (Hr' : In r (before ++ [object])).
    { destruct Hr as [Hr|[<-|Hr]].
      - apply in_or_app. now left.
      - apply in_or_app. right. now left.
      - now apply Ha. }
    apply in_app_or in Hr'. destruct Hr' as [Hr'|[<-|[]]].
    - apply (NoDup_app_disjoint _ _ r Ng); [now apply Mg | right; now left].
    - apply NoDup_app_remove_l in Ng. inversion Ng as [|? ? Ho _]; subst.
      apply Ho. now left. }
  assert (G : forall n l, (List.length l <= n)%nat -> f l = no_duplicates l).
  { induction n as [|n IH]; intros l Hl.
    - destruct l; [|cbn in Hl; lia].
      change (no_duplicates []) with (@nil string).
      destruct (f []) as [|a t] eqn:E; [reflexivity|].
      exfalso. apply (M [] a). rewrite E. now left.
    - destruct l as [|a l0]; [apply IH; cbn; lia|].
      destruct (last_first_occurrence (a :: l0)) as (before & object & after & E & Hn & Ha);
        [discriminate|].
      rewrite E. rewrite (K f N M P before object after Hn Ha).
      rewrite (K no_duplicates) with (1 := fun l => proj1 (Q l)); try assumption.
      + f_equal. apply IH.
        assert (L : List.length (a :: l0) = List.length (before ++ object :: after))
          by now rewrite E.
        rewrite length_app in L. cbn [List.length] in L, Hl. lia.
      + intros l x. apply (Q l).
      + intros b ob af Hb.
        apply (proj2 (proj2 (proj2 (Q (b ++ ob :: af)))) b ob af eq_refl Hb). }
  intro l. now apply (G (List.length l)).
Qed.

(** *** The wires *)

Section Wires.

Variable atan2_degrees : Z -> Z -> Q.

Lemma Wire__init___oid n x1 y1 x2 y2 : oid (Wire__init__ atan2_degrees n x1 y1 x2 y2) = n.
Proof. unfold Wire__init__. now destruct (_ =? 1)%Z. Qed.

Lemma synth_sorted_snoc s checked w :
  synth_sorted s -> oid w = created s -> orientation w <> o ->
  synth_sorted
    (mkSynth checked (wires s ++ [w])
       (if is_horizontal w then wires_horizontal s ++ [w] else wires_horizontal s)
       (if is_vertical w then wires_vertical s ++ [w] else wires_vertical s)
       (S (created s))).
Proof.
  intros (Hh & Hv & F & N) Ho Hn. unfold synth_sorted.
  cbn [wires wires_horizontal wires_vertical created]. rewrite !filter_app. cbn [filter].
  repeat split.
  - rewrite Hh. destruct (is_horizontal w); [reflexivity | now rewrite app_nil_r].
  - rewrite Hv. destruct (is_vertical w); [reflexivity | now rewrite app_nil_r].
  - apply Forall_app. split.
    + eapply Forall_impl; [|exact F]. cbn beta. intros a [? ?]. split; [assumption | lia].
    + constructor; [|constructor]. split; [assumption | lia].
  - rewrite map_app. cbn [map]. apply NoDup_app; [exact N | repeat constructor; intros [] |].
    intros n Hn' [E|[]]. apply in_map_iff in Hn'. destruct Hn' as (a & Ea & Ha).
    rewrite Forall_forall in F. destruct (F a Ha) as [_ Hlt]. lia.
Qed.

Lemma synth_sorted_created s checked :
  synth_sorted s ->
  synth_sorted (mkSynth checked (wires s) (wires_horizontal s) (wires_vertical s)
                        (S (created s))).
Proof.
  intros (Hh & Hv & F & N). unfold synth_sorted.
  cbn [wires wires_horizontal wires_vertical created]. repeat split; try assumption.
  eapply Forall_impl; [|exact F]. cbn beta. intros a [? ?]. split; [assumption | lia].
Qed.

Lemma synth_pair_sorted row row2 s :
  synth_sorted s -> synth_sorted (synth_pair atan2_degrees row row2 s).
Proof.
  intro Hs. unfold synth_pair. destruct (_ || _); [exact Hs|]. cbv zeta.
  destruct (label row =? label row2)%nat; [now apply synth_sorted_created|].
  match goal with
  | |- context [orientation ?w] =>
      pose proof (synth_sorted_snoc s
                    (checked_coordinates s ++ [(label row, label row2); (label row2, label row)])
                    w Hs (Wire__init___oid _ _ _ _ _)) as X;
      unfold is_horizontal, is_vertical in X; destruct (orientation w)
  end.
  - apply X. discriminate.
  - apply X. discriminate.
  - now apply synth_sorted_created.
Qed.

Lemma synth_wires_sorted data : synth_sorted (synth_wires atan2_degrees data).
Proof.
  unfold synth_wires. apply fold_left_invariant.
  - repeat split; constructor.
  - intros s row Hs _. apply fold_left_invariant; [exact Hs|].
    intros s' row2 Hs' _. now apply synth_pair_sorted.
Qed.

Lemma is_in_filter (p : Wire -> bool) ws w :
  NoDup (map oid ws) -> In w ws -> is_in w (filter p ws) = p w.
Proof.
  intros N Hw. unfold is_in. destruct (p w) eqn:E.
  - apply existsb_exists. exists w. split; [|apply Nat.eqb_refl].
    apply filter_In. now split.
  - destruct (existsb _ _) eqn:X; [|reflexivity].
    apply existsb_exists in X. destruct X as (w' & Hw' & Eo).
    apply filter_In in Hw'. destruct Hw' as [Hw' Ep]. apply Nat.eqb_eq in Eo.
    assert (w' = w); [|congruence].
    clear E Ep. induction ws as [|a ws IH]; [destruct Hw|].
    cbn [map] in N. inversion N as [|? ? Na N']; subst.
    destruct Hw as [->|Hw], Hw' as [->|Hw']; try reflexivity.
    + exfalso. apply Na. rewrite <- Eo. now apply in_map.
    + exfalso. apply Na. rewrite Eo. now apply in_map.
    + now apply IH.
Qed.

(** The wires that [_process_junctions] returns are distinct objects,
    none of them oblique; the horizontal wires and the vertical wires are
    the wires of that orientation, in the order of the wires.  So for a
    wire of this list the test [wire in wires_vertical] tells whether the
    wire is vertical, and [wire in wires_horizontal] whether it is
    horizontal. *)
Theorem wires_are_sorted_by_orientation (data : DataFrame) :
  let '(wires, wires_horizontal, wires_vertical) := _process_junctions atan2_degrees data in
  wires_horizontal = filter is_horizontal wires
  /\ wires_vertical = filter is_vertical wires
  /\ NoDup (map oid wires)
  /\ forall wire, In wire wires ->
       orientation wire <> o
       /\ is_in wire wires_vertical = is_vertical wire
       /\ is_in wire wires_horizontal = is_horizontal wire.
Proof.
  unfold _process_junctions. cbv zeta.
  destruct (synth_wires_sorted (grid_junctions data)) as (Hh & Hv & F & N).
  repeat split; try assumption.
  - rewrite Forall_forall in F. now apply F.
  - rewrite Hv. now apply is_in_filter.
  - rewrite Hh. now apply is_in_filter.
Qed.

Lemma Wire__init___ends n x1 y1 x2 y2 :
  let w := Wire__init__ atan2_degrees n x1 y1 x2 y2 in
  WireSpec.dist2 (x_start w) (y_start w) <= WireSpec.dist2 (x_end w) (y_end w)
  /\ (((x_start w, y_start w) = (x1, y1) /\ (x_end w, y_end w) = (x2, y2))
      \/ ((x_start w, y_start w) = (x2, y2) /\ (x_end w, y_end w) = (x1, y1))).
Proof.
  cbv zeta. unfold Wire__init__, select_starting_point, WireSpec.dist2.
  destruct (x1 ^ 2 + y1 ^ 2 <? x2 ^ 2 + y2 ^ 2)%Z eqn:E; cbn [Z.eqb Pos.eqb x_start y_start x_end y_end].
  - apply Z.ltb_lt in E. split; [lia | now left].
  - apply Z.ltb_ge in E. split; [lia | now right].
Qed.

Lemma synth_pair_joins data row row2 s :
  In row data -> In row2 data ->
  Forall (fun w => exists r1 r2, joins data w r1 r2) (wires s) ->
  Forall (fun w => exists r1 r2, joins data w r1 r2)
         (wires (synth_pair atan2_degrees row row2 s)).
Proof.
  intros Hr Hr2 F. unfold synth_pair. destruct (_ || _); [exact F|]. cbv zeta.
  destruct (label row =? label row2)%nat eqn:El; [exact F|].
  apply Nat.eqb_neq in El.
  match goal with
  | |- context [orientation ?w] =>
      assert (J : exists r1 r2, joins data w r1 r2);
      [|destruct (orientation w); cbn [wires]; try exact F;
        apply Forall_app; split; [exact F | now constructor | exact F | now constructor]]
  end.
  match goal with
  | |- context [Wire__init__ _ ?n ?a ?b ?c ?d] =>
      destruct (Wire__init___ends n a b c d) as [D [[E1 E2]|[E1 E2]]]
  end.
  - exists row, row2. unfold joins, position. repeat split; assumption.
  - exists row2, row. unfold joins, position. repeat split; try assumption. congruence.
Qed.

Lemma synth_wires_joins data :
  Forall (fun w => exists r1 r2, joins data w r1 r2) (wires (synth_wires atan2_degrees data)).
Proof.
  unfold synth_wires.
  apply (fold_left_invariant
           (fun s => Forall (fun w => exists r1 r2, joins data w r1 r2) (wires s))).
  - constructor.
  - intros s row Hs Hr.
    apply (fold_left_invariant
             (fun s => Forall (fun w => exists r1 r2, joins data w r1 r2) (wires s)));
      [exact Hs|].
    intros s' row2 Hs' Hr2. now apply synth_pair_joins.
Qed.

(** Every wire that [_process_junctions] returns joins two junctions of
    the frame, as aligned and snapped to the grid, that have different
    labels; it starts at the one that is not farther from the origin. *)
Theorem every_wire_joins_two_junctions (data : DataFrame) (wire : Wire) :
  In wire (fst (fst (_process_junctions atan2_degrees data))) ->
  exists r1 r2, joins (grid_junctions data) wire r1 r2.
Proof.
  unfold _process_junctions. cbn [fst]. intro H.
  pose proof (synth_wires_joins (grid_junctions data)) as F.
  rewrite Forall_forall in F. now apply F.
Qed.

End Wires.

Lemma every_wire_joins_two_junctions_witness :
  exists r1 r2,
    joins (grid_junctions [junction_a; junction_b]) (mkWire 1 112 0 112 192 v) r1 r2.
Proof.
  apply (every_wire_joins_two_junctions atan2_degrees_on_axes [junction_a; junction_b]).
  vm_compute. left. reflexivity.
Defined.

(** *** The alignment *)

Lemma find_label (data d : DataFrame) row :
  Forall2 same_detection data d -> In row data ->
  exists r', find (fun r => (label r =? label row)%nat) d = Some r' /\ In r' d.
Proof.
  induction 1 as [|a b data d Hab F IH]; intro Hr; [destruct Hr|]. cbn [find].
  destruct (label b =? label row)%nat eqn:E.
  - exists b. split; [reflexivity | now left].
  - destruct Hr as [->|Hr].
    + destruct Hab as [Hl _]. rewrite Hl, Nat.eqb_refl in E. discriminate E.
    + destruct (IH Hr) as (r' & E' & Hr'). exists r'. split; [exact E' | now right].
Qed.

Lemma loc_set_x_aligned data d index q :
  aligned data d -> (exists r1, In r1 data /\ q = xcenter r1) ->
  aligned data (loc_set_x d index q).
Proof.
  intros [F C] Hq. unfold loc_set_x. split.
  - clear C Hq. induction F as [|a b data' d' Hab F IH]; cbn [map]; [constructor|].
    constructor; [|exact IH]. destruct (label b =? index)%nat; exact Hab.
  - apply Forall_forall. intros r' Hr'. apply in_map_iff in Hr'.
    destruct Hr' as (r & <- & Hr). rewrite Forall_forall in C. destruct (C r Hr) as [Cx Cy].
    destruct (label r =? index)%nat; [|now split]. split; [|exact Cy].
    destruct Hq as (r1 & H1 & ->). now exists r1.
Qed.

Lemma loc_set_y_aligned data d index q :
  aligned data d -> (exists r1, In r1 data /\ q = ycenter r1) ->
  aligned data (loc_set_y d index q).
Proof.
  intros [F C] Hq. unfold loc_set_y. split.
  - clear C Hq. induction F as [|a b data' d' Hab F IH]; cbn [map]; [constructor|].
    constructor; [|exact IH]. destruct (label b =? index)%nat; exact Hab.
  - apply Forall_forall. intros r' Hr'. apply in_map_iff in Hr'.
    destruct Hr' as (r & <- & Hr). rewrite Forall_forall in C. destruct (C r Hr) as [Cx Cy].
    destruct (label r =? index)%nat; [|now split]. split; [exact Cx|].
    destruct Hq as (r1 & H1 & ->). now exists r1.
Qed.

Lemma loc_x_aligned data d row :
  aligned data d -> In row data -> exists r1, In r1 data /\ loc_x d (label row) = xcenter r1.
Proof.
  intros [F C] Hr. destruct (find_label data d row F Hr) as (r' & E & Hr').
  unfold loc_x. rewrite E. rewrite Forall_forall in C. exact (proj1 (C r' Hr')).
Qed.

Lemma loc_y_aligned data d row :
  aligned data d -> In row data -> exists r1, In r1 data /\ loc_y d (label row) = ycenter r1.
Proof.
  intros [F C] Hr. destruct (find_label data d row F Hr) as (r' & E & Hr').
  unfold loc_y. rewrite E. rewrite Forall_forall in C. exact (proj2 (C r' Hr')).
Qed.

Lemma align_lists_head index row d :
  let al := align_lists index row d in
  (fst al = [] \/ hd 0%nat (fst al) = index) /\ (snd al = [] \/ hd 0%nat (snd al) = index).
Proof.
  cbv zeta. unfold align_lists.
  apply (fold_left_invariant
           (fun acc : list nat * list nat =>
              (fst acc = [] \/ hd 0%nat (fst acc) = index)
              /\ (snd acc = [] \/ hd 0%nat (snd acc) = index))).
  - split; now left.
  - intros acc row2 [Hx Hy] _. cbv zeta.
    destruct (index =? label row2)%nat; [now split|].
    destruct (Qltb _ 50).
    { cbn [fst snd]. split; [|exact Hy]. right.
      destruct Hx as [->|Hx]; [reflexivity|]. now destruct (fst acc). }
    destruct (Qltb _ 50); [|now split].
    cbn [fst snd]. split; [exact Hx|]. right.
    destruct Hy as [->|Hy]; [reflexivity|]. now destruct (snd acc).
Qed.

Lemma equate_x_aligned data d l row :
  In row data -> l = [] \/ hd 0%nat l = label row ->
  aligned data d -> aligned data (equate_x l d).
Proof.
  intros Hr Hl A. unfold equate_x. apply fold_left_invariant; [exact A|].
  intros d' index A' Hi. destruct Hl as [->|Hl]; [destruct Hi|]. rewrite Hl.
  apply loc_set_x_aligned; [exact A'|].
  destruct (loc_x_aligned data d' row A' Hr) as (r1 & H1 & E). now exists r1.
Qed.

Lemma equate_y_aligned data d l row :
  In row data -> l = [] \/ hd 0%nat l = label row ->
  aligned data d -> aligned data (equate_y l d).
Proof.
  intros Hr Hl A. unfold equate_y. apply fold_left_invariant; [exact A|].
  intros d' index A' Hi. destruct Hl as [->|Hl]; [destruct Hi|]. rewrite Hl.
  apply loc_set_y_aligned; [exact A'|].
  destruct (loc_y_aligned data d' row A' Hr) as (r1 & H1 & E). now exists r1.
Qed.

(** The alignment keeps the junctions, their order and their labels, and
    changes centres only: each coordinate of an aligned centre is that
    coordinate of some junction of the frame as it was detected. *)
Theorem alignment_copies_coordinates (data : DataFrame) :
  Forall2 same_detection data (align_junctions data)
  /\ Forall (centre_from data) (align_junctions data).
Proof.
  unfold align_junctions. apply (fold_left_invariant (aligned data)).
  - split.
    + induction data as [|r data IH]; constructor; [repeat split | exact IH].
    + apply Forall_forall. intros r Hr. split; now exists r.
  - intros d row A Hr. cbv zeta.
    destruct (align_lists_head (label row) row d) as [Hx Hy].
    eapply equate_y_aligned; [exact Hr | exact Hy |].
    eapply equate_x_aligned; [exact Hr | exact Hx | exact A].
Qed.

(** *** Instance names *)

Lemma symbols_first k data ws wh wv row wire :
  In row data -> In wire ws -> attaches k wh wv row wire = true ->
  exists x y rot rest, symbols k data ws wh wv = Symbol (sym k) x y rot (prefix k) 1 :: rest.
Proof.
  intros Hr Hw Ha. unfold symbols.
  assert (I : In (row, wire) (flat_map (every_match k wh wv ws) data)).
  { apply in_flat_map. exists row. split; [exact Hr|]. unfold every_match.
    apply in_map. apply filter_In. now split. }
  destruct (flat_map (every_match k wh wv ws) data) as [|[r w] l]; [destruct I|].
  cbn [numbered]. unfold placed. destruct (is_in w wv); eauto.
Qed.

(** The instance names are numbered loop by loop, and the loop of the dc
    sources and the loop of the ac sources both name their symbols V1,
    V2, ...: when a dc source and an ac source are placed, two entries of
    [asc_lines] are symbols of the name V1. *)
Theorem dc_and_ac_sources_share_the_name_V1
  (data_res data_vol data_vol_ac data_cap data_gnd data_ind : DataFrame)
  (wires wires_horizontal wires_vertical : list Wire)
  (dc ac : Row) (wire_dc wire_ac : Wire) (items : list Item) :
  In dc data_vol -> In wire_dc wires ->
  attaches voltage_dc wires_horizontal wires_vertical dc wire_dc = true ->
  In ac data_vol_ac -> In wire_ac wires ->
  attaches voltage_dc_ac wires_horizontal wires_vertical ac wire_ac = true ->
  asc_items data_res data_vol data_vol_ac data_cap data_gnd data_ind
    wires wires_horizontal wires_vertical = inr items ->
  exists x y rot x' y' rot' l1 l2 l3,
    items = l1 ++ Symbol "voltage" x y rot "V" 1 :: l2
               ++ Symbol "voltage" x' y' rot' "V" 1 :: l3.
Proof.
  intros H1 H2 H3 H4 H5 H6. rewrite asc_items_entries.
  destruct (some_ground_attaches _ _ _); [discriminate|]. intro E. injection E as <-.
  destruct (symbols_first voltage_dc _ _ _ _ _ _ H1 H2 H3) as (x & y & rot & r1 & E1).
  destruct (symbols_first voltage_dc_ac _ _ _ _ _ _ H4 H5 H6) as (x' & y' & rot' & r2 & E2).
  unfold entries. rewrite E1, E2. cbn [sym prefix voltage_dc voltage_dc_ac].
  exists x, y, rot, x', y', rot'.
  exists ([Header "Version 4"; Header "SHEET 1 880 680"]
          ++ symbols resistor data_res wires wires_horizontal wires_vertical), r1.
  eexists. rewrite <- !app_assoc. cbn [app]. reflexivity.
Qed.

Lemma dc_and_ac_sources_share_the_name_V1_witness :
  exists x y rot x' y' rot' l1 l2 l3,
    [Header "Version 4"; Header "SHEET 1 880 680"; Symbol "voltage" 112 (-46) "R0" "V" 1;
     Symbol "voltage" 112 24 "R0" "V" 1; WireLine 112 0 112 208]
    = l1 ++ Symbol "voltage" x y rot "V" 1 :: l2
         ++ Symbol "voltage" x' y' rot' "V" 1 :: l3.
Proof.
  apply (dc_and_ac_sources_share_the_name_V1 [] [dc_110_50] [ac_115_120] [] [] []
           [wire_112] [] [wire_112] dc_110_50 ac_115_120 wire_112 wire_112);
    try (left; reflexivity); vm_compute; reflexivity.
Defined.

(** *** The grid *)

Lemma Qfloor_multiple (k : Z) : Qfloor (inject_Z (16 * k) / 16) = k.
Proof.
  transitivity (Qfloor (inject_Z k)); [|apply Qfloor_Z].
  apply Qfloor_comp. rewrite inject_Z_mult. change (inject_Z 16) with 16%Q. field.
Qed.

(** Snapping to the grid leaves a coordinate that is on the grid as it
    is, gives the same coordinate when it is applied twice, and keeps the
    order of two coordinates. *)
Theorem snapping_is_idempotent_and_monotone (c c' : Q) :
  (forall k : Z, (c == inject_Z (16 * k))%Q -> snap c = c)
  /\ (snap (snap c) == snap c)%Q
  /\ ((c <= c')%Q -> (snap c <= snap c')%Q).
Proof.
  destruct (snap_floor c) as (E & _). destruct (snap_floor c') as (E' & _).
  repeat split.
  - intros k Hk. unfold snap, fmod.
    assert (F : Qfloor (c / 16) = k).
    { rewrite <- (Qfloor_multiple k). apply Qfloor_comp. now rewrite Hk. }
    rewrite F.
    assert (Z0 : (c - 16 * inject_Z k == 0)%Q).
    { rewrite Hk, inject_Z_mult. change (inject_Z 16) with 16%Q. ring. }
    apply Qeq_bool_iff in Z0. now rewrite Z0.
  - destruct (snap_floor (snap c)) as (E2 & _). rewrite E2.
    assert (F : Qfloor (snap c / 16) = Qfloor (c / 16)).
    { transitivity (Qfloor (inject_Z (16 * Qfloor (c / 16)) / 16));
        [apply Qfloor_comp; now rewrite E | apply Qfloor_multiple]. }
    rewrite F. symmetry. exact E.
  - intro H. rewrite E, E'. rewrite <- Zle_Qle. apply Z.mul_le_mono_nonneg_l; [lia|].
    apply Qfloor_resp_le. apply Qmult_le_compat_r; [exact H|]. now compute.
Qed.

End ReconstructionProps.

(** ** The services *)

Module ServiceProps.
Import Py Recognizer Scratch PlacerSpec TextSpec RoundTripSpec DocumentSpec.
Import ReconstructionSpec ServiceSpec.
Import PlacerProps ParserProps TextProps RoundTripProps ReconstructionProps.
Local Open Scope string_scope.
Local Open Scope list_scope.
Local Open Scope py_scope.

(** *** Scratch files *)

Lemma fresh_above (w : World) f : In f (files w) -> (fst f < fresh w)%nat.
Proof.
  unfold fresh. induction (files w) as [|g l IH]; intro H; [destruct H|].
  cbn [fold_right]. destruct H as [->|H]; [lia|]. specialize (IH H). lia.
Qed.

Lemma files_without_fresh (w : World) :
  filter (fun f => negb (fst f =? fresh w)%nat) (files w) = files w.
Proof.
  pose proof (fresh_above w) as H. induction (files w) as [|g l IH]; [reflexivity|].
  cbn [filter]. assert (E : (fst g =? fresh w)%nat = false).
  { apply Nat.eqb_neq. specialize (H g (or_introl eq_refl)). lia. }
  rewrite E. cbn [negb]. f_equal. apply IH. intros f Hf. apply H. now right.
Qed.

Lemma files_write_fresh (w : World) c :
  map (fun f => if (fst f =? fresh w)%nat then (fresh w, c) else f) (files w) = files w.
Proof.
  pose proof (fresh_above w) as H. induction (files w) as [|g l IH]; [reflexivity|].
  cbn [map]. assert (E : (fst g =? fresh w)%nat = false).
  { apply Nat.eqb_neq. specialize (H g (or_introl eq_refl)). lia. }
  rewrite E. f_equal. apply IH. intros f Hf. apply H. now right.
Qed.

(** A scratch file from its creation to the [finally] block: the body
    reads the bytes that were written, and the world is as before. *)
Lemma scratch_file_cycle (file_content : string) (w : World) :
  (String.length file_content <= free w)%nat ->
  let (path, w1) := NamedTemporaryFile w in
  exists w2,
    write path file_content w1 = (inr tt, w2)
    /\ content path w2 = Some file_content
    /\ cleanup path w2 = w
    /\ files w2 = (path, file_content) :: files w
    /\ free w2 = (free w - String.length file_content)%nat.
Proof.
  intro H. unfold NamedTemporaryFile, write. cbn [files free].
  apply Nat.leb_le in H. rewrite H. eexists. split; [reflexivity|].
  cbn [map fst]. rewrite Nat.eqb_refl, files_write_fresh.
  unfold content, cleanup, exists_, unlink, content.
  cbn [files free find existsb fst snd option_map filter]. rewrite Nat.eqb_refl.
  cbn [orb negb option_map snd]. rewrite files_without_fresh.
  repeat split. destruct w as [fs fr]. cbn [files free] in *. f_equal.
  apply Nat.leb_le in H. lia.
Qed.

Lemma parse_asc_file_result (file_content : string) (w : World) :
  parse_asc_file file_content w
  = if (String.length file_content <=? free w)%nat then (ASC.parse file_content, w)
    else (raise OSError, with_scratch_file w).
Proof.
  destruct (String.length file_content <=? free w)%nat eqn:E.
  - apply Nat.leb_le in E. pose proof (scratch_file_cycle file_content w E) as C.
    unfold parse_asc_file. destruct (NamedTemporaryFile w) as [path w1].
    destruct C as (w2 & -> & Hc & Hw & _). unfold parser_parse. now rewrite Hc, Hw.
  - unfold parse_asc_file, NamedTemporaryFile, write. cbn [free]. now rewrite E.
Qed.

Lemma convert_to_json_result (file_content : string) (w : World) :
  convert_to_json file_content w
  = if (String.length file_content <=? free w)%nat then (ASC.parse file_content, w)
    else (raise OSError, with_scratch_file w).
Proof.
  destruct (String.length file_content <=? free w)%nat eqn:E.
  - apply Nat.leb_le in E. pose proof (scratch_file_cycle file_content w E) as C.
    unfold convert_to_json. destruct (NamedTemporaryFile w) as [path w1].
    destruct C as (w2 & -> & Hc & Hw & _).
    unfold convert_asc_to_json, parser_parse. now rewrite Hc, Hw.
  - unfold convert_to_json, NamedTemporaryFile, write. cbn [free]. now rewrite E.
Qed.


(** *** The image service *)

Section Image.

Variable atan2_degrees : Z -> Z -> Q.
Variable detector : string -> result DataFrame.

Lemma process_image_steps (file_content output_format : string) (w : World) :
  (String.length file_content <= free w)%nat ->
  exists w2,
    free w2 = (free w - String.length file_content)%nat
    /\ cleanup (fresh w) w2 = w
    /\ process_image atan2_degrees detector file_content output_format w
       = let (r, w3) :=
           match (df <- detector file_content ;; _process_image_to_asc atan2_degrees df) with
           | inl e => (raise e, w2)
           | inr asc_content =>
               if output_format =? "json" then
                 let (j, w') := convert_to_json asc_content w2 in
                 (match j with
                  | inl e => raise e
                  | inr json_data => ret (Json json_data)
                  end, w')
               else (ret (Asc asc_content), w2)
           end in
         (r, cleanup (fresh w) w3).
Proof.
  intro H. pose proof (scratch_file_cycle file_content w H) as C.
  unfold process_image. unfold NamedTemporaryFile in *.
  destruct C as (w2 & -> & Hc & Hw & _ & Hf). exists w2. repeat split; try assumption.
  unfold process_image_to_asc. now rewrite Hc.
Qed.

(** With room on the device for the image and for the text,
    [process_image] returns what the detector and the reconstruction
    give, parsed when the format is json, and leaves the files and the
    free space as they were.  Every format other than json gives the
    text. *)
Theorem process_image_runs_the_pipeline (file_content output_format : string) (w : World) :
  let asc_content := df <- detector file_content ;; _process_image_to_asc atan2_degrees df in
  (String.length file_content <= free w)%nat ->
  (forall text, asc_content = inr text ->
                (String.length text <= free w - String.length file_content)%nat) ->
  process_image atan2_degrees detector file_content output_format w
  = (text <- asc_content ;;
     if output_format =? "json" then json_data <- ASC.parse text ;; ret (Json json_data)
     else ret (Asc text),
     w).
Proof.
  cbv zeta. intros H Ht.
  destruct (process_image_steps file_content output_format w H) as (w2 & Hf & Hw & ->).
  destruct (df <- detector file_content ;; _process_image_to_asc atan2_degrees df)
    as [e|text]; cbn [bind]; [now rewrite Hw|].
  destruct (output_format =? "json"); [|now rewrite Hw].
  rewrite convert_to_json_result.
  specialize (Ht text eq_refl). rewrite <- Hf in Ht. apply Nat.leb_le in Ht. rewrite Ht, Hw.
  now destruct (ASC.parse text).
Qed.

Lemma process_image_json (file_content : string) (w : World) (out : Output) :
  fst (process_image atan2_degrees detector file_content "json" w) = inr out ->
  exists df text json_data,
    detector file_content = inr df
    /\ _process_image_to_asc atan2_degrees df = inr text
    /\ ASC.parse text = inr json_data /\ out = Json json_data.
Proof.
  destruct (String.length file_content <=? free w)%nat eqn:E.
  - apply Nat.leb_le in E.
    destruct (process_image_steps file_content "json" w E) as (w2 & Hf & Hw & ->).
    unfold raise, ret.
    destruct (detector file_content) as [e|df]; cbn [bind fst]; [discriminate|].
    destruct (_process_image_to_asc atan2_degrees df) as [e|text] eqn:Et;
      cbv beta iota zeta; cbn [fst]; [discriminate|].
    cbn [String.eqb Ascii.eqb Bool.eqb]. cbv iota. rewrite convert_to_json_result.
    unfold raise.
    destruct (String.length text <=? free w2)%nat; cbv beta iota zeta; cbn [fst];
      [|discriminate].
    destruct (ASC.parse text) as [e|d] eqn:Ed; [discriminate|].
    intro H. injection H as <-. exists df, text, d. repeat split; assumption.
  - unfold process_image, NamedTemporaryFile, write, raise. cbn [free]. rewrite E.
    discriminate.
Qed.

End Image.

Lemma process_image_runs_the_pipeline_witness :
  process_image atan2_degrees_on_axes detector_of_detections "image" "asc" (mkWorld [] 1000)
  = (inr (Asc ("Version 4SHEET 1 880 680SYMBOL res 96 50 R0" ++ nl
               ++ "SYMATTR InstName R1" ++ nl ++ "WIRE 112 0 112 192" ++ nl
               ++ "WIRE 112 192 288 192" ++ nl)),
     mkWorld [] 1000).
Proof.
  apply (process_image_runs_the_pipeline atan2_degrees_on_axes detector_of_detections
           "image" "asc" (mkWorld [] 1000)).
  - vm_compute. lia.
  - intros text H. vm_compute in H. injection H as <-. vm_compute. lia.
Defined.

(** *** The text of the reconstruction, read by the parser *)

Lemma header_line (rest : string) :
  startswith (strip (header_text ++ rest)) "Version" = true
  /\ index (split (strip (header_text ++ rest))) 1 = inr "4SHEET".
Proof. split; [reflexivity | vm_compute; reflexivity]. Qed.

Lemma entry_line_parts l :
  entry_line l = true ->
  no_newline l = true
  /\ (String.prefix "SY" l || String.prefix "WI" l) = true
  /\ ParserSpec.malformed (strip (l ++ nl)) = false.
Proof.
  unfold entry_line. intro H. apply andb_true_iff in H. destruct H as [H M].
  apply andb_true_iff in H. destruct H as [N P]. apply negb_true_iff in M. auto.
Qed.

Lemma entry_line_no_header l : entry_line l = true -> no_header_line (l ++ nl).
Proof.
  intro H. apply entry_line_parts in H. destruct H as (_ & H & _). unfold no_header_line.
  destruct l as [|c1 [|c2 l]]; cbn [String.prefix] in H.
  - discriminate H.
  - destruct (ascii_dec "S" c1), (ascii_dec "W" c1); discriminate H.
  - destruct (ascii_dec "S" c1) as [<-|N1].
    + destruct (ascii_dec "Y" c2) as [<-|N2]; [split; vm_compute; reflexivity|].
      vm_compute in H. discriminate H.
    + destruct (ascii_dec "W" c1) as [<-|N3]; [|discriminate H].
      destruct (ascii_dec "I" c2) as [<-|N4]; [split; vm_compute; reflexivity|].
      discriminate H.
Qed.

Lemma entry_lines_no_newline ls :
  forallb entry_line ls = true -> forallb no_newline ls = true.
Proof.
  intro H. apply forallb_forall. intros x Hx. rewrite forallb_forall in H.
  now apply entry_line_parts, H.
Qed.

Lemma loops_keep_header lines :
  Forall no_header_line lines ->
  (forall self st, ASC.parse_loop self lines = inr st ->
                   ASC.version st = ASC.version self /\ ASC.sheet st = ASC.sheet self)
  /\ (forall self1 c st, ASC.attrs_loop self1 c lines = inr st ->
                         ASC.version st = ASC.version self1 /\ ASC.sheet st = ASC.sheet self1).
Proof.
  induction 1 as [|r rest [Hv Hs] F [IHo IHi]].
  - split.
    + intros self st E. injection E as <-. now split.
    + intros self1 c st E. injection E as <-. now split.
  - assert (Ho : forall self st, ASC.parse_loop self (r :: rest) = inr st ->
                 ASC.version st = ASC.version self /\ ASC.sheet st = ASC.sheet self).
    { intros self st E. rewrite parse_loop_cons in E. cbv zeta in E. rewrite Hv, Hs in E.
      destruct (startswith (strip r) "SYMBOL").
      { bind_inv E. destruct p as [c self1]. cbn [fst snd] in E.
        apply IHi in E. unfold ASC._parse_symbol_line in E0. repeat bind_inv E0.
        injection E0 as _ <-. exact E. }
      destruct (startswith (strip r) "WIRE").
      { bind_inv E. apply IHo in E. exact E. }
      destruct (startswith (strip r) "FLAG").
      { bind_inv E. apply IHo in E. exact E. }
      apply IHo in E. exact E. }
    split; [exact Ho|].
    intros self1 c st E. rewrite attrs_loop_cons in E.
    destruct (startswith (strip r) "SYMATTR").
    + bind_inv E. apply IHi in E. exact E.
    + apply Ho in E. exact E.
Qed.

Lemma lines_text_app a b : lines_text (a ++ b) = (lines_text a ++ lines_text b)%string.
Proof.
  unfold lines_text. induction a as [|l a IH]; [reflexivity|].
  cbn [app map]. now rewrite !concat_cons, IH, !append_assoc.
Qed.

Lemma is_token_app a b : is_token a = true -> no_space b = true -> is_token (a ++ b) = true.
Proof.
  destruct a as [|c a]; [discriminate|]. cbn [is_token append no_space]. intros Ha Hb.
  apply andb_true_iff in Ha. destruct Ha as [-> Ha]. cbn [andb].
  induction a as [|c' a IH]; [exact Hb|]. cbn [append no_space] in *.
  apply andb_true_iff in Ha. destruct Ha as [-> Ha]. cbn [andb]. now apply IH.
Qed.

(** A line of tokens that the parser accepts is an entry line. *)
Lemma token_entry_line toks :
  forallb is_token toks = true -> toks <> [] ->
  (String.prefix "SY" (join " " toks) || String.prefix "WI" (join " " toks)) = true ->
  ParserSpec.malformed (join " " toks) = false ->
  entry_line (join " " toks) = true.
Proof.
  intros E Hn P M. unfold entry_line. rewrite (join_no_newline _ E), P.
  change (join " " toks ++ nl)%string with (raw (join " " toks)).
  now rewrite (strip_raw _ Hn E), M.
Qed.

Lemma symbol_block sym x y rot prefix counter :
  is_token sym = true -> is_token rot = true -> is_token prefix = true ->
  block (render (Symbol sym x y rot prefix counter)).
Proof.
  intros Hs Hr Hp.
  exists [join " " ["SYMBOL"; sym; str x; str y; rot];
          join " " ["SYMATTR"; "InstName"; (prefix ++ str counter)%string]].
  split.
  - unfold render, lines_text. cbn [map String.concat join]. now rewrite !append_assoc.
  - cbn [forallb]. rewrite andb_true_r. apply andb_true_iff. split.
    + assert (E : forallb is_token ["SYMBOL"; sym; str x; str y; rot] = true).
      { cbn [forallb]. now rewrite Hs, Hr, !str_token. }
      apply token_entry_line; [exact E | discriminate | reflexivity |].
      unfold ParserSpec.malformed. rewrite (split_join _ E).
      replace (startswith (join " " ["SYMBOL"; sym; str x; str y; rot]) "Version")
        with false by reflexivity.
      replace (startswith (join " " ["SYMBOL"; sym; str x; str y; rot]) "SHEET")
        with false by reflexivity.
      replace (startswith (join " " ["SYMBOL"; sym; str x; str y; rot]) "SYMBOL")
        with true by reflexivity.
      unfold ParserSpec.bad_tokens, ParserSpec.not_int.
      cbn [List.length Nat.ltb Nat.leb existsb nth_error orb]. now rewrite !int_str.
    + assert (E : forallb is_token ["SYMATTR"; "InstName"; (prefix ++ str counter)%string]
                  = true).
      { cbn [forallb].
        now rewrite (is_token_app _ _ Hp (is_token_no_space _ (str_token counter))). }
      apply token_entry_line; [exact E | discriminate | reflexivity |].
      unfold ParserSpec.malformed. rewrite (split_join _ E). reflexivity.
Qed.

Lemma wire_block wire : block (render (wire_line wire)).
Proof.
  exists [join " " ["WIRE"; str (x_start wire); str (y_start wire); str (x_end wire);
                    str (y_end wire)]].
  split.
  - unfold wire_line, render, lines_text. cbn [map String.concat join].
    now rewrite !append_assoc.
  - cbn [forallb]. rewrite andb_true_r.
    assert (E : forallb is_token ["WIRE"; str (x_start wire); str (y_start wire);
                                  str (x_end wire); str (y_end wire)] = true).
    { cbn [forallb]. now rewrite !str_token. }
    apply token_entry_line; [exact E | discriminate | reflexivity |].
    unfold ParserSpec.malformed. rewrite (split_join _ E).
    replace (startswith (join " " ["WIRE"; str (x_start wire); str (y_start wire);
                                   str (x_end wire); str (y_end wire)]) "Version")
      with false by reflexivity.
    replace (startswith (join " " ["WIRE"; str (x_start wire); str (y_start wire);
                                   str (x_end wire); str (y_end wire)]) "SHEET")
      with false by reflexivity.
    replace (startswith (join " " ["WIRE"; str (x_start wire); str (y_start wire);
                                   str (x_end wire); str (y_end wire)]) "SYMBOL")
      with false by reflexivity.
    replace (startswith (join " " ["WIRE"; str (x_start wire); str (y_start wire);
                                   str (x_end wire); str (y_end wire)]) "WIRE")
      with true by reflexivity.
    unfold ParserSpec.bad_tokens, ParserSpec.not_int.
    cbn [List.length Nat.ltb Nat.leb existsb nth_error orb]. now rewrite !int_str.
Qed.

Lemma symbols_blocks k data ws wh wv :
  kind_plain k = true -> Forall block (map render (symbols k data ws wh wv)).
Proof.
  unfold kind_plain, symbols. intro K.
  repeat (apply andb_true_iff in K; destruct K as [K ?]).
  generalize 1%Z as counter. induction (flat_map _ data) as [|[row wire] l IH]; intro counter.
  - constructor.
  - cbn [numbered map]. constructor; [|apply IH].
    unfold placed. destruct (is_in wire wv); now apply symbol_block.
Qed.

Lemma entries_blocks d1 d2 d3 d4 d6 ws wh wv :
  Forall block
    (map render
       (symbols resistor d1 ws wh wv ++ symbols voltage_dc d2 ws wh wv
        ++ symbols voltage_dc_ac d3 ws wh wv ++ symbols capacitor d4 ws wh wv
        ++ symbols inductor d6 ws wh wv ++ map wire_line ws)).
Proof.
  rewrite !map_app. repeat (apply Forall_app; split); try (now apply symbols_blocks).
  rewrite map_map. apply Forall_forall. intros b Hb. apply in_map_iff in Hb.
  destruct Hb as (w & <- & _). apply wire_block.
Qed.

Lemma subsequence_Forall {A : Type} (P : A -> Prop) l1 l2 :
  subsequence l1 l2 -> Forall P l2 -> Forall P l1.
Proof.
  induction 1 as [|a l1 l2 H IH|a l1 l2 H IH]; intro F; [constructor| |];
    inversion F; subst; auto.
Qed.

Lemma blocks_lines bs :
  Forall block bs ->
  exists ls, String.concat EmptyString bs = lines_text ls /\ forallb entry_line ls = true.
Proof.
  induction 1 as [|b bs (l1 & -> & H1) F (l2 & E2 & H2)].
  - now exists [].
  - exists (l1 ++ l2). rewrite concat_cons, E2, lines_text_app, forallb_app, H1, H2.
    now split.
Qed.

(** Whenever [_generate_asc_content] returns, the text is the two
    constants run together, followed by lines that start with SY or WI,
    each ended by a line break. *)
Lemma text_shape d1 d2 d3 d4 d5 d6 ws wh wv text :
  _generate_asc_content d1 d2 d3 d4 d5 d6 ws wh wv = inr text ->
  exists ls, text = (header_text ++ lines_text ls)%string /\ forallb entry_line ls = true.
Proof.
  rewrite asc_content_entries. destruct (some_ground_attaches d5 ws wh); [discriminate|].
  intro E. injection E as <-.
  pose proof (entries_blocks d1 d2 d3 d4 d6 ws wh wv) as F.
  match type of F with Forall block ?l => set (bs := l) in * end.
  unfold no_duplicates. cbn [fold_left existsb app]. cbn [String.eqb Ascii.eqb Bool.eqb].
  cbv iota. cbn [app].
  match goal with
  | |- context [fold_left ?g ?l ?acc] =>
      destruct (no_duplicates_spec l acc) as (tl & -> & _ & S & _)
  end.
  { repeat constructor; cbn [In]; intuition discriminate. }
  destruct (blocks_lines tl (subsequence_Forall _ _ _ S F)) as (ls & E & H).
  exists ls. split; [|exact H]. cbn [orb app]. now rewrite !concat_cons, E.
Qed.

Lemma parse_text_shape ls d :
  forallb entry_line ls = true ->
  ASC.parse (header_text ++ lines_text ls) = inr d ->
  ASC.cd_version d = Some "4SHEET" /\ ASC.cd_sheet d = None.
Proof.
  intros H E. destruct ls as [|l ls].
  - vm_compute in E. injection E as <-. now split.
  - cbn [forallb] in H. apply andb_true_iff in H. destruct H as [Hl Hls].
    assert (Nl : no_newline l = true) by now apply entry_line_parts.
    assert (Nls : forallb no_newline ls = true) by now apply entry_lines_no_newline.
    unfold ASC.parse, lines_text in E. cbn [map] in E. rewrite concat_cons in E.
    rewrite <- !append_assoc in E. rewrite readlines_line in E
      by (rewrite no_newline_app, Nl; reflexivity).
    rewrite readlines_unlines in E by exact Nls.
    unfold ASC.parse_lines in E. bind_inv E. injection E as <-.
    rewrite parse_loop_cons in E0. cbv zeta in E0. rewrite append_assoc in E0.
    destruct (header_line (l ++ nl)) as [Hv Hi]. rewrite Hv, Hi in E0. cbn [bind] in E0.
    destruct (loops_keep_header (map (fun l => l ++ nl)%string ls)) as [K _].
    { apply Forall_forall. intros x Hx. apply in_map_iff in Hx. destruct Hx as (y & <- & Hy).
      apply entry_line_no_header. rewrite forallb_forall in Hls. now apply Hls. }
    destruct (K _ _ E0) as [Kv Ks]. cbn [ASC._to_json ASC._remove_duplicate_wires
      ASC._remove_duplicate_components ASC.cd_version ASC.cd_sheet ASC.version ASC.sheet].
    now rewrite Kv, Ks.
Qed.

Lemma json_document_has_no_sheet
  (atan2_degrees : Z -> Z -> Q) (detector : string -> result DataFrame)
  (file_content : string) (w : World) (out : Output) :
  fst (process_image atan2_degrees detector file_content "json" w) = inr out ->
  exists json_data,
    out = Json json_data
    /\ ASC.cd_version json_data = Some "4SHEET" /\ ASC.cd_sheet json_data = None.
Proof.
  intro H. apply process_image_json in H.
  destruct H as (df & text & d & _ & Et & Ed & ->). exists d. split; [reflexivity|].
  unfold _process_image_to_asc in Et. cbv zeta in Et.
  destruct (_process_junctions atan2_degrees (select df "junction")) as [[ws wh] wv].
  apply text_shape in Et. destruct Et as (ls & -> & Hls).
  now apply (parse_text_shape ls).
Qed.

(** The JSON output of [process_image] never has a sheet, and its version
    is the token 4SHEET: the text that the reconstruction returns starts
    with the two constants on one line, which the parser reads as the
    version line, and no other line of the text is a SHEET line. *)
Theorem json_output_has_no_sheet
  (atan2_degrees : Z -> Z -> Q) (detector : string -> result DataFrame)
  (file_content : string) (w : World) (out : Output) :
  fst (process_image atan2_degrees detector file_content "json" w) = inr out ->
  exists json_data,
    out = Json json_data
    /\ ASC.cd_version json_data = Some "4SHEET" /\ ASC.cd_sheet json_data = None.
Proof. apply json_document_has_no_sheet. Qed.

Lemma json_output_has_no_sheet_witness :
  exists json_data,
    Json (ASC.mkCircuit (Some "4SHEET") None []
            [ASC.mkWire 112 0 112 192; ASC.mkWire 112 192 288 192] []) = Json json_data
    /\ ASC.cd_version json_data = Some "4SHEET" /\ ASC.cd_sheet json_data = None.
Proof.
  apply (json_output_has_no_sheet atan2_degrees_on_axes detector_of_detections "image"
           (mkWorld [] 1000)).
  vm_compute. reflexivity.
Defined.

(** *** The first line of the text *)

Lemma symbol_line_set_version self v line :
  ASC._parse_symbol_line (ASC.set_version self v) line
  = match ASC._parse_symbol_line self line with
    | inl e => inl e
    | inr cs => inr (fst cs, ASC.set_version (snd cs) v)
    end.
Proof.
  unfold ASC._parse_symbol_line.
  repeat match goal with
         | |- context [bind ?m _] => destruct m; cbn [bind]; [reflexivity|]
         end.
  reflexivity.
Qed.

Lemma loops_set_version lines v :
  Forall (fun raw => startswith (strip raw) "Version" = false) lines ->
  (forall self,
      ASC.parse_loop (ASC.set_version self v) lines
      = match ASC.parse_loop self lines with
        | inl e => inl e
        | inr st => inr (ASC.set_version st v)
        end)
  /\ (forall self1 c,
        ASC.attrs_loop (ASC.set_version self1 v) c lines
        = match ASC.attrs_loop self1 c lines with
          | inl e => inl e
          | inr st => inr (ASC.set_version st v)
          end).
Proof.
  induction 1 as [|r rest Hv F [IHo IHi]].
  - split; reflexivity.
  - assert (Ho : forall self,
               ASC.parse_loop (ASC.set_version self v) (r :: rest)
               = match ASC.parse_loop self (r :: rest) with
                 | inl e => inl e
                 | inr st => inr (ASC.set_version st v)
                 end).
    { intro self. rewrite !parse_loop_cons. cbv zeta. rewrite Hv.
      destruct (startswith (strip r) "SHEET").
      { destruct (ASC.parse_sheet_line _); cbn [bind]; [reflexivity|].
        apply (IHo (ASC.set_sheet self s)). }
      destruct (startswith (strip r) "SYMBOL").
      { rewrite symbol_line_set_version.
        destruct (ASC._parse_symbol_line self _) as [e|[c self1]]; cbn [bind fst snd];
          [reflexivity | apply IHi]. }
      destruct (startswith (strip r) "WIRE").
      { destruct (ASC._parse_wire_line _); cbn [bind]; [reflexivity|].
        apply (IHo (ASC.append_wire self w)). }
      destruct (startswith (strip r) "FLAG").
      { destruct (ASC._parse_flag_line _); cbn [bind]; [reflexivity|].
        apply (IHo (ASC.append_flag self f)). }
      apply IHo. }
    split; [exact Ho|].
    intros self1 c. rewrite !attrs_loop_cons.
    destruct (startswith (strip r) "SYMATTR").
    + destruct (ASC._add_symattr_to_component _ _); cbn [bind]; [reflexivity | apply IHi].
    + apply (Ho (ASC.append_component self1 c)).
Qed.

Lemma parse_text_first_line ls :
  forallb entry_line ls = true ->
  ASC.parse (header_text ++ lines_text ls)
  = (d <- ASC.parse (lines_text (tl ls)) ;; ret (with_version d "4SHEET")).
Proof.
  intro H. destruct ls as [|l ls]; [vm_compute; reflexivity|].
  cbn [forallb] in H. apply andb_true_iff in H. destruct H as [Hl Hls].
  assert (Nl : no_newline l = true) by now apply entry_line_parts.
  assert (Nls : forallb no_newline ls = true) by now apply entry_lines_no_newline.
  cbn [tl]. unfold ASC.parse. unfold lines_text at 1. cbn [map]. rewrite concat_cons.
  rewrite <- !append_assoc.
  rewrite readlines_line by (rewrite no_newline_app, Nl; reflexivity).
  fold (lines_text ls). unfold lines_text. rewrite readlines_unlines by exact Nls.
  unfold ASC.parse_lines. rewrite parse_loop_cons. cbv zeta. rewrite append_assoc.
  destruct (header_line (l ++ nl)) as [Hv Hi]. rewrite Hv, Hi. cbn [bind].
  destruct (loops_set_version (map (fun l => l ++ nl)%string ls) "4SHEET") as [K _].
  { apply Forall_forall. intros x Hx. apply in_map_iff in Hx. destruct Hx as (y & <- & Hy).
    apply entry_line_no_header. rewrite forallb_forall in Hls. now apply Hls. }
  rewrite K. destruct (ASC.parse_loop ASC.init _); reflexivity.
Qed.

(** Read by the parser, as the JSON output of [process_image] is, the
    text of the reconstruction loses its first line after the constants:
    the line runs on from the constants and is read with them as the
    version line.  The document is the one of the lines that follow, with
    the version 4SHEET; when the first line is a SYMBOL line, its SYMATTR
    line is left without symbol and the component is lost. *)
Theorem first_line_of_the_text_is_lost
  (data_res data_vol data_vol_ac data_cap data_gnd data_ind : DataFrame)
  (wires wires_horizontal wires_vertical : list Wire) (text : string) :
  _generate_asc_content data_res data_vol data_vol_ac data_cap data_gnd data_ind
    wires wires_horizontal wires_vertical = inr text ->
  exists ls,
    text = (header_text ++ lines_text ls)%string
    /\ forallb entry_line ls = true
    /\ ASC.parse text
       = (d <- ASC.parse (lines_text (tl ls)) ;; ret (with_version d "4SHEET")).
Proof.
  intro H. apply text_shape in H. destruct H as (ls & -> & Hls).
  exists ls. repeat split; [exact Hls | now apply parse_text_first_line].
Qed.

Lemma first_line_of_the_text_is_lost_witness :
  exists ls,
    ("Version 4SHEET 1 880 680SYMBOL res 96 50 R0" ++ nl ++ "SYMATTR InstName R1" ++ nl
     ++ "WIRE 112 0 112 208" ++ nl)%string
    = (header_text ++ lines_text ls)%string
    /\ forallb entry_line ls = true
    /\ ASC.parse ("Version 4SHEET 1 880 680SYMBOL res 96 50 R0" ++ nl
                  ++ "SYMATTR InstName R1" ++ nl ++ "WIRE 112 0 112 208" ++ nl)
       = (d <- ASC.parse (lines_text (tl ls)) ;; ret (with_version d "4SHEET")).
Proof.
  apply (first_line_of_the_text_is_lost [resistor_108_50] [] [] [] [] []
           [wire_112] [] [wire_112]).
  vm_compute. reflexivity.
Defined.

(** *** The parser accepts the text *)

Lemma all_accepted lines :
  Forall (fun raw => ParserSpec.malformed (strip raw) = false) lines ->
  forall block, ParserSpec.some_malformed block lines = false.
Proof.
  induction 1 as [|r rest H F IH]; intro b; [reflexivity|].
  cbn [ParserSpec.some_malformed]. cbv zeta. rewrite H, andb_false_r.
  destruct (startswith (strip r) "SYMATTR"); cbn [orb]; apply IH.
Qed.

Lemma lines_accepted ls :
  forallb entry_line ls = true -> exists d, ASC.parse (lines_text ls) = inr d.
Proof.
  intro H. unfold ASC.parse, lines_text.
  rewrite readlines_unlines by now apply entry_lines_no_newline.
  destruct (loops_fail_iff_malformed (map (fun l => l ++ nl)%string ls)) as [L _].
  destruct (L ASC.init) as [Fa _]. rewrite all_accepted in Fa.
  - unfold ASC.parse_lines. destruct (ASC.parse_loop ASC.init _); [discriminate Fa|].
    eexists. reflexivity.
  - apply Forall_forall. intros x Hx. apply in_map_iff in Hx. destruct Hx as (y & <- & Hy).
    rewrite forallb_forall in H. now apply entry_line_parts, H.
Qed.

(** The parser accepts every text that [_generate_asc_content] returns:
    read back for the JSON output, the text never makes [parse] raise. *)
Theorem generated_text_is_accepted_by_the_parser
  (data_res data_vol data_vol_ac data_cap data_gnd data_ind : DataFrame)
  (wires wires_horizontal wires_vertical : list Wire) (text : string) :
  _generate_asc_content data_res data_vol data_vol_ac data_cap data_gnd data_ind
    wires wires_horizontal wires_vertical = inr text ->
  exists json_data, ASC.parse text = inr json_data.
Proof.
  intro H. apply text_shape in H. destruct H as (ls & -> & Hls).
  rewrite (parse_text_first_line ls Hls).
  destruct (lines_accepted (tl ls)) as [d ->].
  - destruct ls as [|l ls]; [reflexivity|]. cbn [forallb] in Hls.
    apply andb_true_iff in Hls. exact (proj2 Hls).
  - eexists. reflexivity.
Qed.

Lemma generated_text_is_accepted_by_the_parser_witness :
  exists json_data,
    ASC.parse ("Version 4SHEET 1 880 680SYMBOL res 96 50 R0" ++ nl
               ++ "SYMATTR InstName R1" ++ nl ++ "WIRE 112 0 112 208" ++ nl)
    = inr json_data.
Proof.
  apply (generated_text_is_accepted_by_the_parser [resistor_108_50] [] [] [] [] []
           [wire_112] [] [wire_112]).
  vm_compute. reflexivity.
Defined.

End ServiceProps.

(** ** The routes *)

Module RoutesProps.
Import Py Routes RoutesSpec ServiceSpec.
Import ServiceProps.
Local Open Scope string_scope.
Local Open Scope list_scope.
Local Open Scope py_scope.

Lemma has_version_and_sheet_required : requires_version_and_sheet has_version_and_sheet.
Proof.
  intros d. unfold has_version_and_sheet.
  destruct (ASC.cd_version d), (ASC.cd_sheet d); intro H; try discriminate H.
  split; discriminate.
Qed.

Section Service.

Variable atan2_degrees : Z -> Z -> Q.
Variable detector : string -> result Recognizer.DataFrame.
Variable validates : ASC.CircuitData -> bool.
Hypothesis required : requires_version_and_sheet validates.

Lemma read_checked_error file c :
  read_checked file = HTTPException c -> c = 413 \/ c = 500.
Proof.
  unfold read_checked. cbv zeta. destruct (MAX_FILE_SIZE <? _)%Z.
  - intro H. injection H as <-. now left.
  - destruct (read file) as [e|file_content].
    + intro H. injection H as <-. now right.
    + destruct (_ && _); [|discriminate]. intro H. injection H as <-. now left.
Qed.

Lemma answer_document_incomplete r d :
  r = inr d -> ASC.cd_version d = None \/ ASC.cd_sheet d = None ->
  answer_document validates r = HTTPException 500.
Proof.
  intros -> H. unfold answer_document. destruct (validates d) eqn:V; [|reflexivity].
  destruct (required d V) as [Hv Hs]. tauto.
Qed.

(** A text that the parser accepts but that has no Version line or no
    SHEET line is answered with status 500 by the two routes of the
    parser: the model of the answer cannot be built from a document
    without version or without sheet. *)
Theorem text_without_version_or_sheet_is_answered_500
  (file : UploadFile) (w : Scratch.World) (file_content : string) (d : ASC.CircuitData) :
  not_in (content_type file) ALLOWED_ASC_TYPES = false ->
  read_checked file = Returns file_content ->
  ASC.parse file_content = inr d ->
  ASC.cd_version d = None \/ ASC.cd_sheet d = None ->
  fst (parse_asc_file validates file w) = HTTPException 500
  /\ fst (convert_asc_to_json validates file w) = HTTPException 500.
Proof.
  intros Ht Hr Hp Hd. unfold parse_asc_file, convert_asc_to_json. rewrite Ht, Hr.
  rewrite convert_to_json_result, parse_asc_file_result.
  destruct (String.length file_content <=? Scratch.free w)%nat; cbn [fst].
  - split; now apply (answer_document_incomplete _ d).
  - split; reflexivity.
Qed.

(** The route [recognize_and_parse] never returns: whatever the image
    and whatever the model detects, it raises an [HTTPException], of
    status 400, 413 or 500, since the document that it would return has no
    sheet.  The route [recognize_circuit] does return such a document
    when the format is json: its answer is not checked against the
    schema. *)
Theorem recognize_and_parse_never_returns (file : UploadFile) (w : Scratch.World) :
  is_error (fst (recognize_and_parse atan2_degrees detector validates file w))
  /\ forall out,
       fst (recognize_circuit atan2_degrees detector file "json" w) = Returns out ->
       exists json_data,
         out = Scratch.Json json_data /\ ASC.cd_sheet json_data = None.
Proof.
  pose proof (json_document_has_no_sheet atan2_degrees detector) as J. split.
  - unfold recognize_and_parse, is_error.
    destruct (not_in _ _); [now left|].
    destruct (read_checked file) as [file_content|c] eqn:Hr.
    2:{ cbn [fst]. destruct (read_checked_error _ _ Hr) as [-> | ->]; auto. }
    specialize (J file_content w).
    destruct (Scratch.process_image _ _ _ _ w) as [[e|out] w']; cbn [fst] in *.
    + auto.
    + destruct (J out eq_refl) as (d & -> & _ & Hs).
      right. right. apply (answer_document_incomplete _ d); auto.
  - intro out. unfold recognize_circuit.
    destruct (not_in _ _); [discriminate|]. cbn [existsb negb String.eqb Ascii.eqb Bool.eqb orb].
    destruct (read_checked file) as [file_content|c]; [|discriminate].
    specialize (J file_content w).
    destruct (Scratch.process_image _ _ _ _ w) as [[e|out'] w']; cbn [fst] in *;
      [discriminate|].
    intro H. injection H as <-. destruct (J out' eq_refl) as (d & -> & _ & Hs).
    now exists d.
Qed.

End Service.

Lemma text_without_version_or_sheet_is_answered_500_witness :
  fst (parse_asc_file has_version_and_sheet two_wires (Scratch.mkWorld [] 1000))
  = HTTPException 500
  /\ fst (convert_asc_to_json has_version_and_sheet two_wires (Scratch.mkWorld [] 1000))
     = HTTPException 500.
Proof.
  apply (text_without_version_or_sheet_is_answered_500 has_version_and_sheet
           has_version_and_sheet_required two_wires (Scratch.mkWorld [] 1000)
           ("WIRE 0 0 100 0" ++ nl ++ "WIRE 100 0 100 64" ++ nl)%string
           (ASC.mkCircuit None None [] [ASC.mkWire 0 0 100 0; ASC.mkWire 100 0 100 64] [])).
  - reflexivity.
  - vm_compute. reflexivity.
  - vm_compute. reflexivity.
  - left. reflexivity.
Defined.

Lemma recognize_and_parse_never_returns_witness :
  is_error
    (fst (recognize_and_parse Recognizer.atan2_degrees_on_axes detector_of_detections
            has_version_and_sheet an_image (Scratch.mkWorld [] 1000))).
Proof.
  apply (recognize_and_parse_never_returns Recognizer.atan2_degrees_on_axes
           detector_of_detections has_version_and_sheet has_version_and_sheet_required
           an_image (Scratch.mkWorld [] 1000)).
Defined.

End RoutesProps.
